(** * Incremental lexers of Notepad2 (Scintilla lexers): a shallow embedding

    The development follows the lexer sources: the Asymptote, VHDL and CMake
    lexers and folders, and the escape-sequence and block-comment parts of
    the F# and Dart lexers.  Characters, styles and C++ [int]s are integers
    ([Z]); the document is a list of bytes; the per-line state words and the
    fold levels kept by the host document are finite maps from line numbers. *)

From Stdlib Require Import ZArith List Bool Lia String Ascii.
From stdpp Require Import base gmap.
Import ListNotations.
Open Scope Z_scope.

(** ** C++ [int] arithmetic *)

(** A 32-bit two's complement [int] read back from an unbounded integer. *)
Definition int32 (x : Z) : Z := (x + 2 ^ 31) mod 2 ^ 32 - 2 ^ 31.

Definition INT_MIN : Z := - 2 ^ 31.
Definition INT_MAX : Z := 2 ^ 31 - 1.

(** [++x] and [--x] on an [int]. *)
Definition incr (x : Z) : Z := int32 (x + 1).
Definition decr (x : Z) : Z := int32 (x - 1).

(** [x << n], [x >> n], [x | y], [x & y] on [int]s. *)
Definition shl (x n : Z) : Z := int32 (Z.shiftl x n).
Definition shr (x n : Z) : Z := Z.shiftr x n.

(** ** Characters and strings *)

(** The code of a character literal. *)
Definition C (a : ascii) : Z := Z.of_nat (nat_of_ascii a).

(** The bytes of a string literal. *)
Definition bytes (s : string) : list Z := map C (list_ascii_of_string s).

Definition CH_LF : Z := 10.
Definition CH_CR : Z := 13.
Definition CH_TAB : Z := 9.
Definition CH_DQUOTE : Z := 34.
Definition CH_SQUOTE : Z := 39.
Definition CH_BACKSLASH : Z := 92.

Fixpoint list_Z_eqb (a b : list Z) : bool :=
  match a, b with
  | [], [] => true
  | x :: a', y :: b' => (x =? y) && list_Z_eqb a' b'
  | _, _ => false
  end.

(** [StrEqual(s, t)]. *)
Definition StrEqual (s : list Z) (t : string) : bool := list_Z_eqb s (bytes t).

(** [StrEqualsAny(s, t1, t2, ...)]. *)
Definition StrEqualsAny (s : list Z) (ts : list string) : bool :=
  existsb (StrEqual s) ts.

(** ** Character classification (CharacterSet.h) *)

Module CharacterSet.

(** Modelled from the spec: CharacterSet.h is not under src/; these are the
    pure character predicates of the Character Classifier (is-digit,
    is-identifier-start, is-operator, is-space), over ASCII. *)
Definition IsEOLChar (ch : Z) : bool := (ch =? CH_CR) || (ch =? CH_LF).

Definition isspacechar (ch : Z) : bool :=
  (ch =? 32) || ((9 <=? ch) && (ch <=? 13)).

Definition IsWhiteSpace (ch : Z) : bool := isspacechar ch.

Definition IsADigit (ch : Z) : bool := (C "0" <=? ch) && (ch <=? C "9").

Definition IsOctalDigit (ch : Z) : bool := (C "0" <=? ch) && (ch <=? C "7").

Definition IsHexDigit (ch : Z) : bool :=
  IsADigit ch
  || ((C "A" <=? ch) && (ch <=? C "F"))
  || ((C "a" <=? ch) && (ch <=? C "f")).

(** [IsADigit(ch, base)]: a digit of the given numeric base. *)
Definition IsADigitBase (ch base : Z) : bool :=
  if base <=? 10 then (C "0" <=? ch) && (ch <? C "0" + base)
  else ((C "0" <=? ch) && (ch <=? C "9"))
       || ((C "A" <=? ch) && (ch <? C "A" + base - 10))
       || ((C "a" <=? ch) && (ch <? C "a" + base - 10)).

(** [IsDecimalOrHex(ch, hex)]. *)
Definition IsDecimalOrHex (ch : Z) (hex : bool) : bool :=
  if hex then IsHexDigit ch else IsADigit ch.

Definition IsUpperCase (ch : Z) : bool := (C "A" <=? ch) && (ch <=? C "Z").
Definition IsLowerCase (ch : Z) : bool := (C "a" <=? ch) && (ch <=? C "z").
Definition IsAlpha (ch : Z) : bool := IsUpperCase ch || IsLowerCase ch.
Definition IsAlphaNumeric (ch : Z) : bool := IsAlpha ch || IsADigit ch.

Definition IsIdentifierChar (ch : Z) : bool := IsAlphaNumeric ch || (ch =? C "_").
Definition IsIdentifierStart (ch : Z) : bool := IsAlpha ch || (ch =? C "_").

Definition IsAGraphic (ch : Z) : bool := (32 <? ch) && (ch <? 127).

Definition iswordchar (ch : Z) : bool :=
  IsAlphaNumeric ch || (ch =? C ".") || (ch =? C "_").
Definition iswordstart (ch : Z) : bool := IsAlphaNumeric ch || (ch =? C "_").

Definition isoperator (ch : Z) : bool :=
  if IsAlphaNumeric ch then false
  else existsb (Z.eqb ch)
         (bytes "%^&*()-+=|{}[]:;<>,/?!.~").

Definition IsNumberStart (ch chNext : Z) : bool :=
  IsADigit ch || ((ch =? C ".") && IsADigit chNext).

Definition MakeLowerCase (ch : Z) : Z := if IsUpperCase ch then ch + 32 else ch.

End CharacterSet.

Export CharacterSet.

(** ** Word lists (WordList.h) *)

(** Modelled from the spec: WordList.h is not under src/; a word list is a
    set of strings queried by exact membership. *)
Definition WordList : Type := list (list Z).

Definition InList (wl : WordList) (s : list Z) : bool := existsb (list_Z_eqb s) wl.

(** [keywordLists[i]]; a list that was not configured is empty. *)
Definition LexerWordList : Type := list WordList.

Definition keywords (kl : LexerWordList) (i : nat) : WordList := nth i kl [].

(** ** The document accessor (LexAccessor.h, Accessor.h) *)

(** A committed style run: first offset, last offset, style code. *)
Definition StyleRun : Type := (Z * Z * Z)%type.

(** Modelled from the spec: LexAccessor.h and Accessor.h are not under src/.
    The accessor exposes character-at (with a sentinel out of range), the
    output sink of style runs (most recent first), and the per-line state
    words and fold levels kept by the host. *)
Record Accessor : Type := mkAccessor {
  buf : list Z;
  startSeg : Z;
  segments : list StyleRun;
  lineStates : gmap Z Z;
  levels : gmap Z Z
}.

Definition charAt (l : list Z) (pos : Z) : Z :=
  if pos <? 0 then 0 else nth (Z.to_nat pos) l 0.

Definition SafeGetCharAt (a : Accessor) (pos : Z) : Z := charAt (buf a) pos.

Definition Length (a : Accessor) : Z := Z.of_nat (List.length (buf a)).

(** Is the character [c], followed by [rest], the last one of its line?
    Lines end with CR, LF or CR LF. *)
Definition endsLine (c : Z) (rest : list Z) : bool :=
  (c =? CH_LF) || ((c =? CH_CR) && negb (charAt rest 0 =? CH_LF)).

(** Start offset of the [line]-th line after offset [pos], where [l] is the
    text from [pos] on; the document length when there is no such line. *)
Fixpoint lineStartFrom (l : list Z) (pos : Z) (line : nat) : Z :=
  match line with
  | O => pos
  | S k =>
      match l with
      | [] => pos
      | c :: rest =>
          if endsLine c rest then lineStartFrom rest (pos + 1) k
          else lineStartFrom rest (pos + 1) line
      end
  end.

Definition LineStart (a : Accessor) (line : Z) : Z :=
  if line <? 0 then 0 else lineStartFrom (buf a) 0 (Z.to_nat line).

(** Number of line ends strictly before the first [n] characters end. *)
Fixpoint countLines (l : list Z) (n : nat) : Z :=
  match n, l with
  | S k, c :: rest => (if endsLine c rest then 1 else 0) + countLines rest k
  | _, _ => 0
  end.

(** Is the character at index [n] of [l] the last one of its line? *)
Definition endAt (l : list Z) (n : nat) : bool :=
  match skipn n l with
  | c :: rest => endsLine c rest
  | [] => false
  end.

(** Is offset [pos] of the text the last one of its line? *)
Definition isLineEnd (text : list Z) (pos : Z) : bool :=
  (0 <=? pos) && endAt text (Z.to_nat pos).

(** [GetLine(pos)]: the line holding offset [pos]. *)
Definition GetLine (a : Accessor) (pos : Z) : Z := countLines (buf a) (Z.to_nat pos).

Definition GetLineState (a : Accessor) (line : Z) : Z :=
  default 0 (lineStates a !! line).

Definition SetLineState (a : Accessor) (line v : Z) : Accessor :=
  mkAccessor (buf a) (startSeg a) (segments a) (<[line := v]> (lineStates a)) (levels a).

Definition SC_FOLDLEVELBASE : Z := 1024.
Definition SC_FOLDLEVELHEADERFLAG : Z := 8192.

Definition LevelAt (a : Accessor) (line : Z) : Z :=
  default SC_FOLDLEVELBASE (levels a !! line).

Definition SetLevel (a : Accessor) (line v : Z) : Accessor :=
  mkAccessor (buf a) (startSeg a) (segments a) (lineStates a) (<[line := v]> (levels a)).

Definition StartSegment (a : Accessor) (pos : Z) : Accessor :=
  mkAccessor (buf a) pos (segments a) (lineStates a) (levels a).

(** [ColourTo(pos, style)]: commit the run from the segment start to [pos];
    an empty range commits nothing. *)
Definition ColourTo (a : Accessor) (pos style : Z) : Accessor :=
  if pos =? startSeg a - 1 then a
  else if pos <? startSeg a then a
  else mkAccessor (buf a) (pos + 1) ((startSeg a, pos, style) :: segments a)
                  (lineStates a) (levels a).

(** [StyleAt(pos)]: the style committed for offset [pos]; 0 when none. *)
Definition StyleAt (a : Accessor) (pos : Z) : Z :=
  match find (fun r : StyleRun => (r.1.1 <=? pos) && (pos <=? r.1.2)) (segments a) with
  | Some r => r.2
  | None => 0
  end.

(** The characters of offsets [from, to). *)
Definition GetRange (a : Accessor) (from to : Z) : list Z :=
  firstn (Z.to_nat (to - from)) (skipn (Z.to_nat from) (buf a)).

(** A fresh accessor over a document: nothing styled yet. *)
Definition openDocument (text : list Z) : Accessor :=
  mkAccessor text 0 [] ∅ ∅.

(** The style runs in the order they were committed. *)
Definition styleRuns (a : Accessor) : list StyleRun := rev (segments a).

(** ** Properties of style runs *)

(** The runs [segs], most recent first, tile the offsets [lo, hi): each is
    not empty and begins where the one committed before it ended. *)
Fixpoint covers (lo hi : Z) (segs : list StyleRun) : Prop :=
  match segs with
  | [] => lo = hi
  | r :: rest => r.1.1 <= r.1.2 /\ r.1.2 + 1 = hi /\ covers lo r.1.1 rest
  end.

(** The runs [runs], in the order they were committed, tile the offsets
    [lo, hi): the first starts at [lo], each covers the offsets from its
    start to just before the start of the next, the last ends at [hi - 1]. *)
Fixpoint tiles (lo hi : Z) (runs : list StyleRun) : Prop :=
  match runs with
  | [] => lo = hi
  | r :: rest => r.1.1 = lo /\ lo <= r.1.2 /\ tiles (r.1.2 + 1) hi rest
  end.

(** Run contiguity, on runs in the order they were committed: start offsets
    increase strictly and each run ends just before the next one starts. *)
Fixpoint contiguous (runs : list StyleRun) : Prop :=
  match runs with
  | r1 :: rest =>
      match rest with
      | r2 :: _ => r1.1.1 < r2.1.1 /\ r1.1.2 + 1 = r2.1.1
      | [] => True
      end /\ contiguous rest
  | [] => True
  end.

(** ** The style context: a forward-only cursor (StyleContext.h) *)

(** Modelled from the spec: StyleContext.h is not under src/.  The cursor is
    constructed with (start offset, length, initial style, accessor); it
    exposes the current, next and previous characters (a sentinel out of
    range), the line-start and line-end predicates, forward advance, set
    state (flush the previous run and begin a new token at the cursor) and
    change state (relabel the token in progress).  The accessor is the one
    the lexer function received by reference, so it lives inside the
    cursor and every access of the lexer to [styler] goes through it. *)
Record StyleContext : Type := mkSC {
  styler : Accessor;
  endPos : Z;
  lengthDocument : Z;
  lineDocEnd : Z;
  currentPos : Z;
  currentLine : Z;
  lineStartNext : Z;
  atLineStart : bool;
  atLineEnd : bool;
  state : Z;
  chPrev : Z;
  ch : Z;
  chNext : Z
}.

Module SC.

Definition with_styler (a : Accessor) (sc : StyleContext) : StyleContext :=
  mkSC a (endPos sc) (lengthDocument sc) (lineDocEnd sc) (currentPos sc)
       (currentLine sc) (lineStartNext sc) (atLineStart sc) (atLineEnd sc)
       (state sc) (chPrev sc) (ch sc) (chNext sc).

(** The line-end test of [GetNextChar], at offset [pos] of line [line]. *)
Definition lineEndAt (lineDocEnd line lineStartNext pos : Z) : bool :=
  if line <? lineDocEnd then pos >=? lineStartNext - 1
  else pos >=? lineStartNext.

(** [StyleContext sc(startPos, length, initStyle, styler)]. *)
Definition make (startPos length initStyle : Z) (a : Accessor) : StyleContext :=
  let a := StartSegment a startPos in
  let line := GetLine a startPos in
  let docEnd := GetLine a (Length a) in
  let nextStart := LineStart a (line + 1) in
  mkSC a (startPos + length) (Length a) docEnd startPos line nextStart
       (LineStart a line =? startPos)
       (lineEndAt docEnd line nextStart startPos)
       initStyle 0 (SafeGetCharAt a startPos) (SafeGetCharAt a (startPos + 1)).

Definition More (sc : StyleContext) : bool := currentPos sc <? endPos sc.

(** [Forward()]: advance by one character; past the end of the range the
    cursor stays and reads spaces. *)
Definition Forward (sc : StyleContext) : StyleContext :=
  if currentPos sc <? endPos sc then
    let start := atLineEnd sc in
    let line := if start then currentLine sc + 1 else currentLine sc in
    let nextStart :=
      if start then LineStart (styler sc) (line + 1) else lineStartNext sc in
    let pos := currentPos sc + 1 in
    mkSC (styler sc) (endPos sc) (lengthDocument sc) (lineDocEnd sc) pos
         line nextStart start
         (lineEndAt (lineDocEnd sc) line nextStart pos)
         (state sc) (ch sc) (chNext sc) (SafeGetCharAt (styler sc) (pos + 1))
  else
    mkSC (styler sc) (endPos sc) (lengthDocument sc) (lineDocEnd sc) (currentPos sc)
         (currentLine sc) (lineStartNext sc) false true
         (state sc) 32 32 32.

(** [Forward(n)] and [Advance(n)]: [n] single steps. *)
Definition ForwardN (n : Z) (sc : StyleContext) : StyleContext :=
  Nat.iter (Z.to_nat n) Forward sc.

Definition ChangeState (s : Z) (sc : StyleContext) : StyleContext :=
  mkSC (styler sc) (endPos sc) (lengthDocument sc) (lineDocEnd sc) (currentPos sc)
       (currentLine sc) (lineStartNext sc) (atLineStart sc) (atLineEnd sc)
       s (chPrev sc) (ch sc) (chNext sc).

(** The last offset of the token in progress. *)
Definition tokenEnd (sc : StyleContext) : Z :=
  currentPos sc - (if currentPos sc >? lengthDocument sc then 2 else 1).

(** [SetState(s)]: commit the run of the token in progress, begin a new
    token at the cursor. *)
Definition SetState (s : Z) (sc : StyleContext) : StyleContext :=
  ChangeState s (with_styler (ColourTo (styler sc) (tokenEnd sc) (state sc)) sc).

Definition ForwardSetState (s : Z) (sc : StyleContext) : StyleContext :=
  SetState s (Forward sc).

(** [Complete()]: commit the last run. *)
Definition Complete (sc : StyleContext) : StyleContext :=
  with_styler (ColourTo (styler sc) (tokenEnd sc) (state sc)) sc.

Definition Match2 (c0 c1 : Z) (sc : StyleContext) : bool :=
  (ch sc =? c0) && (chNext sc =? c1).

Definition GetRelative (n : Z) (sc : StyleContext) : Z :=
  SafeGetCharAt (styler sc) (currentPos sc + n).

Definition LengthCurrent (sc : StyleContext) : Z :=
  currentPos sc - startSeg (styler sc).

(** [GetCurrent(s, len)]: the text of the token in progress, cut to the
    [len - 1] characters the buffer holds. *)
Definition GetCurrent (len : Z) (sc : StyleContext) : list Z :=
  firstn (Z.to_nat (len - 1))
         (GetRange (styler sc) (startSeg (styler sc)) (currentPos sc)).

Definition GetCurrentLowered (len : Z) (sc : StyleContext) : list Z :=
  map MakeLowerCase (GetCurrent len sc).

(** The first character at or after offset [pos] that is not white space;
    0 when the document ends first. *)
Fixpoint nextNonWhite (l : list Z) : Z :=
  match l with
  | [] => 0
  | c :: rest => if IsWhiteSpace c then nextNonWhite rest else c
  end.

(** [GetDocNextChar()]: the next character of the document that is not
    white space, starting with the current one. *)
Definition GetDocNextChar (sc : StyleContext) : Z :=
  if negb (IsWhiteSpace (ch sc)) then ch sc
  else if negb (IsWhiteSpace (chNext sc)) then chNext sc
  else nextNonWhite (skipn (Z.to_nat (currentPos sc + 2)) (buf (styler sc))).

End SC.

(** ** The Asymptote lexer (src/unnamed/part_000) *)

Module Asy.

(** Modelled from the spec: SciLexer.h is not under src/; the style codes of
    the fixed per-language enumeration, the space-equivalent styles
    (default, comments, task marker) first. *)
Definition SCE_ASY_DEFAULT : Z := 0.
Definition SCE_ASY_COMMENTLINE : Z := 1.
Definition SCE_ASY_COMMENTBLOCK : Z := 2.
Definition SCE_ASY_TASKMARKER : Z := 3.
Definition SCE_ASY_OPERATOR : Z := 4.
Definition SCE_ASY_NUMBER : Z := 5.
Definition SCE_ASY_IDENTIFIER : Z := 6.
Definition SCE_ASY_WORD : Z := 7.
Definition SCE_ASY_TYPE : Z := 8.
Definition SCE_ASY_STRUCT : Z := 9.
Definition SCE_ASY_CONSTANT : Z := 10.
Definition SCE_ASY_FUNCTION : Z := 11.
Definition SCE_ASY_FUNCTION_DEFINITION : Z := 12.
Definition SCE_ASY_STRING_SQ : Z := 13.
Definition SCE_ASY_STRING_DQ : Z := 14.
Definition SCE_ASY_ESCAPECHAR : Z := 15.

Record EscapeSequence : Type := mkEsc {
  outerState : Z;
  digitsLeft : Z;
  numBase : Z
}.

Definition escInit : EscapeSequence := mkEsc SCE_ASY_DEFAULT 0 0.

(** [resetEscapeState(state, chNext)]: the record after the call and the
    returned flag. *)
Definition resetEscapeState (esc : EscapeSequence) (st chNext : Z)
  : EscapeSequence * bool :=
  if IsEOLChar chNext then (esc, false)
  else
    if IsOctalDigit chNext then (mkEsc st 3 8, true)
    else if (chNext =? C "x") || (chNext =? C "X") then (mkEsc st 3 16, true)
    else (mkEsc st 1 (numBase esc), true).

(** [atEscapeEnd(ch)]. *)
Definition atEscapeEnd (esc : EscapeSequence) (c : Z) : EscapeSequence * bool :=
  let n := decr (digitsLeft esc) in
  (mkEsc (outerState esc) n (numBase esc),
   (n <=? 0) || negb (IsADigitBase c (numBase esc))).

(** The characters of [cs] that the escape state takes before [atEscapeEnd]
    reports the end: the loop calls [atEscapeEnd] once per character. *)
Fixpoint escapeTail (esc : EscapeSequence) (cs : list Z) : nat :=
  match cs with
  | [] => O
  | c :: rest =>
      let (e, done) := atEscapeEnd esc c in
      if done then O else S (escapeTail e rest)
  end.

(** The digits of base [base] that [cs] starts with. *)
Fixpoint digitRun (base : Z) (cs : list Z) : nat :=
  match cs with
  | [] => O
  | c :: rest => if IsADigitBase c base then S (digitRun base rest) else O
  end.

Definition AsymptoteLineStateMaskLineComment : Z := 1.
Definition AsymptoteLineStateMaskImport : Z := 2.

(** [enum class KeywordType]. *)
Definition KeywordType_None : Z := SCE_ASY_DEFAULT.
Definition KeywordType_Struct : Z := SCE_ASY_STRUCT.
Definition KeywordType_Return : Z := 64.

Definition IsSpaceEquiv (st : Z) : bool := st <=? SCE_ASY_TASKMARKER.

(** The cursor and the local variables of [ColouriseAsyDoc]. *)
Record Lexer : Type := mkLexer {
  sc : StyleContext;
  lineStateLineType : Z;
  kwType : Z;
  visibleChars : Z;
  chBefore : Z;
  chPrevNonWhite : Z;
  escSeq : EscapeSequence
}.

Definition on_sc (f : StyleContext -> StyleContext) (l : Lexer) : Lexer :=
  mkLexer (f (sc l)) (lineStateLineType l) (kwType l) (visibleChars l)
          (chBefore l) (chPrevNonWhite l) (escSeq l).

Definition set_lineType (v : Z) (l : Lexer) : Lexer :=
  mkLexer (sc l) v (kwType l) (visibleChars l)
          (chBefore l) (chPrevNonWhite l) (escSeq l).

Definition set_kwType (v : Z) (l : Lexer) : Lexer :=
  mkLexer (sc l) (lineStateLineType l) v (visibleChars l)
          (chBefore l) (chPrevNonWhite l) (escSeq l).

Definition set_escSeq (e : EscapeSequence) (l : Lexer) : Lexer :=
  mkLexer (sc l) (lineStateLineType l) (kwType l) (visibleChars l)
          (chBefore l) (chPrevNonWhite l) e.

Definition set_chBefore (v : Z) (l : Lexer) : Lexer :=
  mkLexer (sc l) (lineStateLineType l) (kwType l) (visibleChars l)
          v (chPrevNonWhite l) (escSeq l).

(** The classification of a finished identifier: the body of
    [if (!IsIdentifierChar(sc.ch))] up to, not including, the final
    [sc.SetState(SCE_ASY_DEFAULT)]. *)
Definition classifyIdentifier (kl : LexerWordList) (l : Lexer) : Lexer :=
  let s := SC.GetCurrent 128 (sc l) in
  let l1 :=
    if InList (keywords kl 0) s then
      let l := on_sc (SC.ChangeState SCE_ASY_WORD) l in
      if StrEqualsAny s ["import"; "include"]%string then
        set_lineType AsymptoteLineStateMaskImport l
      else if StrEqualsAny s ["new"; "struct"]%string then
        set_kwType KeywordType_Struct l
      else if StrEqual s "return" then
        set_kwType KeywordType_Return l
      else l
    else if InList (keywords kl 1) s then
      on_sc (SC.ChangeState SCE_ASY_TYPE) l
    else if (kwType l =? KeywordType_Struct) || InList (keywords kl 2) s then
      on_sc (SC.ChangeState SCE_ASY_STRUCT) l
    else if InList (keywords kl 3) s then
      on_sc (SC.ChangeState SCE_ASY_CONSTANT) l
    else if negb (ch (sc l) =? C ".") then
      let chNext := SC.GetDocNextChar (sc l) in
      if chNext =? C "(" then
        if negb (kwType l =? KeywordType_Return)
           && (IsIdentifierChar (chBefore l) || (chBefore l =? C "]")) then
          on_sc (SC.ChangeState SCE_ASY_FUNCTION_DEFINITION) l
        else
          on_sc (SC.ChangeState SCE_ASY_FUNCTION) l
      else if SC.Match2 (C "[") (C "]") (sc l) || IsIdentifierStart chNext then
        on_sc (SC.ChangeState SCE_ASY_STRUCT) l
      else l
    else l in
  if negb (state (sc l1) =? SCE_ASY_WORD) then set_kwType KeywordType_None l1
  else l1.

(** The [switch (sc.state)] of the loop; the flag is set when the case
    ended with [continue]. *)
Definition switchState (kl : LexerWordList) (l : Lexer) : Lexer * bool :=
  let st := state (sc l) in
  if st =? SCE_ASY_OPERATOR then
    (on_sc (SC.SetState SCE_ASY_DEFAULT) l, false)
  else if st =? SCE_ASY_NUMBER then
    if negb (IsADigit (ch (sc l))
             || ((ch (sc l) =? C ".") && IsADigit (chNext (sc l)))) then
      (on_sc (SC.SetState SCE_ASY_DEFAULT) l, false)
    else (l, false)
  else if st =? SCE_ASY_IDENTIFIER then
    if negb (IsIdentifierChar (ch (sc l))) then
      (on_sc (SC.SetState SCE_ASY_DEFAULT) (classifyIdentifier kl l), false)
    else (l, false)
  else if st =? SCE_ASY_COMMENTLINE then
    if atLineStart (sc l) then (on_sc (SC.SetState SCE_ASY_DEFAULT) l, false)
    else (l, false)
  else if st =? SCE_ASY_COMMENTBLOCK then
    if SC.Match2 (C "*") (C "/") (sc l) then
      (on_sc (fun c => SC.ForwardSetState SCE_ASY_DEFAULT (SC.Forward c)) l, false)
    else (l, false)
  else if st =? SCE_ASY_STRING_DQ then
    if ch (sc l) =? CH_BACKSLASH then
      if (chNext (sc l) =? CH_BACKSLASH) || (chNext (sc l) =? CH_DQUOTE) then
        let e := mkEsc SCE_ASY_STRING_DQ 1 (numBase (escSeq l)) in
        (on_sc (fun c => SC.Forward (SC.SetState SCE_ASY_ESCAPECHAR c))
               (set_escSeq e l), false)
      else (l, false)
    else if ch (sc l) =? CH_DQUOTE then
      (on_sc (SC.ForwardSetState SCE_ASY_DEFAULT) l, false)
    else (l, false)
  else if st =? SCE_ASY_STRING_SQ then
    if ch (sc l) =? CH_BACKSLASH then
      let (e, ok) := resetEscapeState (escSeq l) (state (sc l)) (chNext (sc l)) in
      let l := set_escSeq e l in
      if ok then
        (on_sc (fun c => SC.Forward (SC.SetState SCE_ASY_ESCAPECHAR c)) l, false)
      else (l, false)
    else if ch (sc l) =? CH_SQUOTE then
      (on_sc (SC.ForwardSetState SCE_ASY_DEFAULT) l, false)
    else (l, false)
  else if st =? SCE_ASY_ESCAPECHAR then
    let (e, done) := atEscapeEnd (escSeq l) (ch (sc l)) in
    let l := set_escSeq e l in
    if done then (on_sc (SC.SetState (outerState e)) l, true)
    else (l, false)
  else (l, false).

(** The [if (sc.state == SCE_ASY_DEFAULT)] block: does a construct start
    at the current character? *)
Definition defaultState (l : Lexer) : Lexer :=
  if state (sc l) =? SCE_ASY_DEFAULT then
    if SC.Match2 (C "/") (C "/") (sc l) then
      let l := if visibleChars l =? 0
               then set_lineType AsymptoteLineStateMaskLineComment l else l in
      on_sc (SC.SetState SCE_ASY_COMMENTLINE) l
    else if SC.Match2 (C "/") (C "*") (sc l) then
      on_sc (fun c => SC.Forward (SC.SetState SCE_ASY_COMMENTBLOCK c)) l
    else if ch (sc l) =? CH_DQUOTE then
      on_sc (SC.SetState SCE_ASY_STRING_DQ) l
    else if ch (sc l) =? CH_SQUOTE then
      on_sc (SC.SetState SCE_ASY_STRING_SQ) l
    else if IsADigit (ch (sc l)) then
      on_sc (SC.SetState SCE_ASY_NUMBER) l
    else if IsIdentifierStart (ch (sc l)) then
      on_sc (SC.SetState SCE_ASY_IDENTIFIER) (set_chBefore (chPrevNonWhite l) l)
    else if IsAGraphic (ch (sc l))
            && negb ((ch (sc l) =? CH_BACKSLASH) || (ch (sc l) =? C "`")) then
      on_sc (SC.SetState SCE_ASY_OPERATOR) l
    else l
  else l.

(** The end of the loop body: visible characters, the line state at the
    end of a line, and [sc.Forward()]. *)
Definition lineEnd (l : Lexer) : Lexer :=
  let c := ch (sc l) in
  let vis := if negb (isspacechar c) then incr (visibleChars l) else visibleChars l in
  let prevNonWhite :=
    if negb (isspacechar c) && negb (IsSpaceEquiv (state (sc l)))
    then c else chPrevNonWhite l in
  let l := mkLexer (sc l) (lineStateLineType l) (kwType l) vis
                   (chBefore l) prevNonWhite (escSeq l) in
  let l :=
    if atLineEnd (sc l) then
      mkLexer (SC.with_styler
                 (SetLineState (styler (sc l)) (currentLine (sc l))
                               (lineStateLineType l)) (sc l))
              0 KeywordType_None 0 (chBefore l) (chPrevNonWhite l) (escSeq l)
    else l in
  on_sc SC.Forward l.

(** One iteration of [while (sc.More())]. *)
Definition iteration (kl : LexerWordList) (l : Lexer) : Lexer :=
  let (l1, cont) := switchState kl l in
  if cont then l1 else lineEnd (defaultState l1).

(** [while (sc.More()) { ... }], at most [fuel] iterations. *)
Fixpoint loop (fuel : nat) (kl : LexerWordList) (l : Lexer) : option Lexer :=
  if SC.More (sc l) then
    match fuel with
    | O => None
    | S fuel' => loop fuel' kl (iteration kl l)
    end
  else Some l.

(** The local variables at the start of [ColouriseAsyDoc]. *)
Definition start (startPos lengthDoc initStyle : Z) (a : Accessor) : Lexer :=
  mkLexer (SC.make startPos lengthDoc initStyle a)
          0 KeywordType_None 0 0 0 escInit.

(** Iterations that suffice for a range of [lengthDoc] characters: one per
    character and one more for each [continue]. *)
Definition enough (lengthDoc : Z) : nat := Z.to_nat (2 * lengthDoc + 2).

(** [ColouriseAsyDoc(startPos, lengthDoc, initStyle, keywordLists, styler)]:
    the accessor after the pass. *)
Definition ColouriseAsyDoc (startPos lengthDoc initStyle : Z)
    (kl : LexerWordList) (a : Accessor) : option Accessor :=
  match loop (enough lengthDoc) kl (start startPos lengthDoc initStyle a) with
  | Some l => Some (styler (SC.Complete (sc l)))
  | None => None
  end.

(** The lexer after [n] iterations of the loop. *)
Fixpoint steps (n : nat) (kl : LexerWordList) (l : Lexer) : Lexer :=
  match n with
  | O => l
  | S k => steps k kl (iteration kl l)
  end.

(** The host lexing a document of [lengthDoc] characters in two passes
    split at offset [p]: the second pass starts with the style of the last
    character of the first and with the accessor the first pass left. *)
Definition ColouriseInTwoPasses (p lengthDoc : Z) (kl : LexerWordList)
    (a : Accessor) : option Accessor :=
  match ColouriseAsyDoc 0 p SCE_ASY_DEFAULT kl a with
  | Some a1 => ColouriseAsyDoc p (lengthDoc - p) (StyleAt a1 (p - 1)) kl a1
  | None => None
  end.

(** [struct FoldLineState]: the two flags of a line state word. *)
Record FoldLineState : Type := mkFoldLineState {
  lineComment : Z;
  moduleImport : Z
}.

Definition foldLineState (lineState : Z) : FoldLineState :=
  mkFoldLineState (Z.land lineState AsymptoteLineStateMaskLineComment)
                  (Z.land (shr lineState 1) 1).

Definition IsMultilineStringStyle (style : Z) : bool :=
  (style =? SCE_ASY_STRING_SQ) || (style =? SCE_ASY_STRING_DQ)
  || (style =? SCE_ASY_ESCAPECHAR).

(** The loop variables of [FoldAsyDoc]. *)
Record Folder : Type := mkFolder {
  fstyler : Accessor;
  fpos : Z;
  lineCurrent : Z;
  levelCurrent : Z;
  levelNext : Z;
  foldPrev : FoldLineState;
  foldCurrent : FoldLineState;
  flineStartNext : Z;
  lineEndPos : Z;
  style : Z;
  styleNext : Z;
  fvisibleChars : Z
}.

(** The [switch (style)] of the fold loop: the change of [levelNext] for
    the character [c] of style [style], between [stylePrev] and
    [styleNext]. *)
Definition styleDelta (stylePrev style styleNext c : Z) : Z :=
  if style =? SCE_ASY_COMMENTBLOCK then
    if negb (style =? stylePrev) then 1
    else if negb (style =? styleNext) then -1 else 0
  else if (style =? SCE_ASY_STRING_SQ) || (style =? SCE_ASY_STRING_DQ) then
    if negb (IsMultilineStringStyle stylePrev) then 1
    else if negb (IsMultilineStringStyle styleNext) then -1 else 0
  else if style =? SCE_ASY_OPERATOR then
    if (c =? C "{") || (c =? C "[") || (c =? C "(") then 1
    else if (c =? C "}") || (c =? C "]") || (c =? C ")") then -1 else 0
  else 0.

(** What the [switch] adds to [levelNext] over the [n + 1] characters from
    offset [i] on, the first of style [cur] and preceded by style [prev]. *)
Fixpoint lineDelta (a : Accessor) (n : nat) (i prev cur : Z) : Z :=
  styleDelta prev cur (StyleAt a (i + 1)) (SafeGetCharAt a i)
  + match n with
    | O => 0
    | S k => lineDelta a k (i + 1) cur (StyleAt a (i + 1))
    end.

Section Fold.

(** [CheckBraceOnNextLine(styler, line, operatorStyle, maxSpaceStyle)] is
    not under src/: the offset of an opening brace that starts the next
    line, or 0. *)
Variable CheckBraceOnNextLine : Accessor -> Z -> Z -> Z -> Z.

(** The body of the [for] loop of [FoldAsyDoc], with its [i++]. *)
Definition foldStep (endPos : Z) (f : Folder) : Folder :=
  let a := fstyler f in
  let i := fpos f in
  let stylePrev := style f in
  let style1 := styleNext f in
  let styleNext1 := StyleAt a (i + 1) in
  let levelNext1 :=
    int32 (levelNext f + styleDelta stylePrev style1 styleNext1 (SafeGetCharAt a i)) in
  let visible :=
    if (fvisibleChars f =? 0) && negb (IsSpaceEquiv style1)
    then incr (fvisibleChars f) else fvisibleChars f in
  if i =? lineEndPos f then
    let foldNext := foldLineState (GetLineState a (lineCurrent f + 1)) in
    let '(levelNext2, i2, style2, styleNext2) :=
      if negb (lineComment (foldCurrent f) =? 0) then
        (int32 (levelNext1 + (lineComment foldNext - lineComment (foldPrev f))),
         i, style1, styleNext1)
      else if negb (moduleImport (foldCurrent f) =? 0) then
        (int32 (levelNext1 + (moduleImport foldNext - moduleImport (foldPrev f))),
         i, style1, styleNext1)
      else if negb (visible =? 0) then
        let bracePos :=
          CheckBraceOnNextLine a (lineCurrent f) SCE_ASY_OPERATOR SCE_ASY_TASKMARKER in
        if negb (bracePos =? 0) then
          (incr levelNext1, bracePos, SCE_ASY_OPERATOR, StyleAt a (bracePos + 1))
        else (levelNext1, i, style1, styleNext1)
      else (levelNext1, i, style1, styleNext1) in
    let levelUse := levelCurrent f in
    let lev := Z.lor levelUse (shl levelNext2 16) in
    let lev := if levelUse <? levelNext2
               then Z.lor lev SC_FOLDLEVELHEADERFLAG else lev in
    let a2 := if negb (lev =? LevelAt a (lineCurrent f))
              then SetLevel a (lineCurrent f) lev else a in
    let line := lineCurrent f + 1 in
    let nextStart := LineStart a2 (line + 1) in
    mkFolder a2 (i2 + 1) line levelNext2 levelNext2 (foldCurrent f) foldNext
             nextStart (Z.min nextStart endPos - 1) style2 styleNext2 0
  else
    mkFolder a (i + 1) (lineCurrent f) (levelCurrent f) levelNext1
             (foldPrev f) (foldCurrent f) (flineStartNext f) (lineEndPos f)
             style1 styleNext1 visible.

(** The folder after [n] turns of the loop. *)
Fixpoint foldSteps (n : nat) (endPos : Z) (f : Folder) : Folder :=
  match n with
  | O => f
  | S k => foldSteps k endPos (foldStep endPos f)
  end.

(** [for (i = startPos; i < endPos; i++)], at most [fuel] iterations. *)
Fixpoint foldLoop (fuel : nat) (endPos : Z) (f : Folder) : option Folder :=
  if fpos f <? endPos then
    match fuel with
    | O => None
    | S fuel' => foldLoop fuel' endPos (foldStep endPos f)
    end
  else Some f.

(** The variables of [FoldAsyDoc] when its loop starts. *)
Definition foldStart (startPos lengthDoc initStyle : Z) (a : Accessor) : Folder :=
  let endPos := startPos + lengthDoc in
  let lineCurrent := GetLine a startPos in
  let '(levelCurrent, foldPrev, startPos) :=
    if lineCurrent >? 0 then
      let bracePos :=
        CheckBraceOnNextLine a (lineCurrent - 1) SCE_ASY_OPERATOR SCE_ASY_TASKMARKER in
      (shr (LevelAt a (lineCurrent - 1)) 16,
       foldLineState (GetLineState a (lineCurrent - 1)),
       if negb (bracePos =? 0) then bracePos + 1 else startPos)
    else (SC_FOLDLEVELBASE, foldLineState 0, startPos) in
  let lineStartNext := LineStart a (lineCurrent + 1) in
  mkFolder a startPos lineCurrent levelCurrent levelCurrent foldPrev
           (foldLineState (GetLineState a lineCurrent))
           lineStartNext (Z.min lineStartNext endPos - 1)
           initStyle (StyleAt a startPos) 0.

(** [FoldAsyDoc(startPos, lengthDoc, initStyle, keywordLists, styler)]. *)
Definition FoldAsyDoc (startPos lengthDoc initStyle : Z) (a : Accessor)
  : option Accessor :=
  match foldLoop (Z.to_nat lengthDoc) (startPos + lengthDoc)
                 (foldStart startPos lengthDoc initStyle a) with
  | Some f => Some (fstyler f)
  | None => None
  end.

End Fold.

End Asy.

(** ** The CMake lexer (src/unnamed/part_002): line state and folder *)

Module CMake.

(** Modelled from the spec: SciLexer.h is not under src/; the style codes
    the line state and the folder use. *)
Definition SCE_CMAKE_DEFAULT : Z := 0.
Definition SCE_CMAKE_COMMENT : Z := 1.
Definition SCE_CMAKE_BLOCK_COMMENT : Z := 2.
Definition SCE_CMAKE_OPERATOR : Z := 5.
Definition SCE_CMAKE_WORD : Z := 8.
Definition SCE_CMAKE_BRACKET_ARGUMENT : Z := 14.

(** Modelled from the spec: LexerUtils.h is not under src/; the line-comment
    flag is the lowest bit of the line state word. *)
Definition SimpleLineStateMaskLineComment : Z := 1.

(** The word [ColouriseCMakeDoc] passes to [styler.SetLineState] at the end
    of a line. *)
Definition lineStateWord (bracketNumber outerStyle lineStateLineComment : Z) : Z :=
  Z.lor (Z.lor (shl bracketNumber 8) (shl outerStyle 1)) lineStateLineComment.

(** [outerStyle] and [bracketNumber] as [ColouriseCMakeDoc] reads them back
    from the word of the previous line. *)
Definition outerStyleOf (lineState : Z) : Z := Z.land (shr lineState 1) 127.
Definition bracketNumberOf (lineState : Z) : Z := Z.land (shr lineState 8) 255.

(** The locals of [ColouriseCMakeDoc] that the line state carries. *)
Record Carried : Type := mkCarried {
  csc : StyleContext;
  outerStyle : Z;
  bracketNumber : Z;
  lineStateLineComment : Z;
  visibleChars : Z
}.

(** The start of [ColouriseCMakeDoc]: the cursor, and the state of the
    previous line when the range does not start on the first line. *)
Definition start (startPos lengthDoc initStyle : Z) (a : Accessor) : Carried :=
  let sc := SC.make startPos lengthDoc initStyle a in
  if currentLine sc >? 0 then
    let lineState := GetLineState (styler sc) (currentLine sc - 1) in
    let outer := outerStyleOf lineState in
    let sc := if negb (outer =? SCE_CMAKE_DEFAULT) then SC.SetState outer sc else sc in
    mkCarried sc outer (bracketNumberOf lineState) 0 0
  else mkCarried sc SCE_CMAKE_DEFAULT 0 0 0.

(** The [if (sc.atLineEnd)] block at the end of the loop body. *)
Definition lineEnd (l : Carried) : Carried :=
  if atLineEnd (csc l) then
    mkCarried
      (SC.with_styler
         (SetLineState (styler (csc l)) (currentLine (csc l))
            (lineStateWord (bracketNumber l) (outerStyle l) (lineStateLineComment l)))
         (csc l))
      (outerStyle l) (bracketNumber l) 0 0
  else l.

Definition GetLineCommentState (lineState : Z) : Z :=
  Z.land lineState SimpleLineStateMaskLineComment.

(** The loop variables of [FoldCMakeDoc]; [word] is [buf[0 .. wordLen)]. *)
Record Folder : Type := mkFolder {
  fstyler : Accessor;
  fpos : Z;
  lineCurrent : Z;
  levelCurrent : Z;
  levelNext : Z;
  lineCommentPrev : Z;
  lineCommentCurrent : Z;
  flineStartNext : Z;
  lineEndPos : Z;
  style : Z;
  styleNext : Z;
  word : list Z
}.

Definition MaxFoldWordLength : Z := 15.

Definition StrStartsWith (s : list Z) (t : string) : bool :=
  list_Z_eqb (firstn (List.length (bytes t)) s) (bytes t).

(** The [switch (style)] of the fold loop: the change of [levelNext] and
    the word buffer after the character [c]. *)
Definition styleDelta (stylePrev style styleNext c : Z) (word : list Z)
  : Z * list Z :=
  if (style =? SCE_CMAKE_BLOCK_COMMENT) || (style =? SCE_CMAKE_BRACKET_ARGUMENT) then
    (if negb (style =? stylePrev) then 1
     else if negb (style =? styleNext) then -1 else 0, word)
  else if style =? SCE_CMAKE_OPERATOR then
    (if c =? C "(" then 1 else if c =? C ")" then -1 else 0, word)
  else if style =? SCE_CMAKE_WORD then
    let word1 :=
      if Z.of_nat (List.length word) <? MaxFoldWordLength
      then word ++ [MakeLowerCase c] else word in
    if negb (styleNext =? SCE_CMAKE_WORD) then
      (if StrStartsWith word1 "end" then -1
       else if StrEqualsAny word1 ["if"; "function"; "macro"; "foreach"; "while"]%string
            then 1 else 0, [])
    else (0, word1)
  else (0, word).

(** What the [switch] adds to [levelNext] over the [n + 1] characters from
    offset [i] on, the first of style [cur] and preceded by style [prev],
    starting with the word buffer [word]. *)
Fixpoint lineDelta (a : Accessor) (n : nat) (i prev cur : Z) (word : list Z) : Z :=
  let '(d, word1) :=
    styleDelta prev cur (StyleAt a (i + 1)) (SafeGetCharAt a i) word in
  d + match n with
      | O => 0
      | S k => lineDelta a k (i + 1) cur (StyleAt a (i + 1)) word1
      end.

(** The body of the [for] loop of [FoldCMakeDoc], with its [i++]. *)
Definition foldStep (endPos : Z) (f : Folder) : Folder :=
  let a := fstyler f in
  let i := fpos f in
  let stylePrev := style f in
  let style1 := styleNext f in
  let styleNext1 := StyleAt a (i + 1) in
  let '(d, word1) := styleDelta stylePrev style1 styleNext1 (SafeGetCharAt a i) (word f) in
  let levelNext1 := int32 (levelNext f + d) in
  if i =? lineEndPos f then
    let lineCommentNext := GetLineCommentState (GetLineState a (lineCurrent f + 1)) in
    let levelNext2 :=
      if negb (lineCommentCurrent f =? 0)
      then int32 (levelNext1 + (lineCommentNext - lineCommentPrev f))
      else levelNext1 in
    let levelUse := levelCurrent f in
    let lev := Z.lor levelUse (shl levelNext2 16) in
    let lev := if levelUse <? levelNext2
               then Z.lor lev SC_FOLDLEVELHEADERFLAG else lev in
    let a2 := if negb (lev =? LevelAt a (lineCurrent f))
              then SetLevel a (lineCurrent f) lev else a in
    let line := lineCurrent f + 1 in
    let nextStart := LineStart a2 (line + 1) in
    mkFolder a2 (i + 1) line levelNext2 levelNext2 (lineCommentCurrent f)
             lineCommentNext nextStart (Z.min nextStart endPos - 1)
             style1 styleNext1 word1
  else
    mkFolder a (i + 1) (lineCurrent f) (levelCurrent f) levelNext1
             (lineCommentPrev f) (lineCommentCurrent f) (flineStartNext f)
             (lineEndPos f) style1 styleNext1 word1.

(** The folder after [n] turns of the loop. *)
Fixpoint foldSteps (n : nat) (endPos : Z) (f : Folder) : Folder :=
  match n with
  | O => f
  | S k => foldSteps k endPos (foldStep endPos f)
  end.

(** [for (i = startPos; i < endPos; i++)], at most [fuel] iterations. *)
Fixpoint foldLoop (fuel : nat) (endPos : Z) (f : Folder) : option Folder :=
  if fpos f <? endPos then
    match fuel with
    | O => None
    | S fuel' => foldLoop fuel' endPos (foldStep endPos f)
    end
  else Some f.

(** The variables of [FoldCMakeDoc] when its loop starts. *)
Definition foldStart (startPos lengthDoc initStyle : Z) (a : Accessor) : Folder :=
  let endPos := startPos + lengthDoc in
  let lineCurrent := GetLine a startPos in
  let '(levelCurrent, lineCommentPrev) :=
    if lineCurrent >? 0 then
      (shr (LevelAt a (lineCurrent - 1)) 16,
       GetLineCommentState (GetLineState a (lineCurrent - 1)))
    else (SC_FOLDLEVELBASE, 0) in
  let lineStartNext := LineStart a (lineCurrent + 1) in
  mkFolder a startPos lineCurrent levelCurrent levelCurrent lineCommentPrev
           (GetLineCommentState (GetLineState a lineCurrent))
           lineStartNext (Z.min lineStartNext endPos - 1)
           initStyle (StyleAt a startPos) [].

(** [FoldCMakeDoc(startPos, lengthDoc, initStyle, keywordLists, styler)]. *)
Definition FoldCMakeDoc (startPos lengthDoc initStyle : Z) (a : Accessor)
  : option Accessor :=
  match foldLoop (Z.to_nat lengthDoc) (startPos + lengthDoc)
                 (foldStart startPos lengthDoc initStyle a) with
  | Some f => Some (fstyler f)
  | None => None
  end.

End CMake.

(** ** The VHDL lexer (src/unnamed/part_001): the colouriser *)

Module VHDL.

(** Modelled from the spec: SciLexer.h is not under src/; the style codes of
    the VHDL lexer. *)
Definition SCE_VHDL_DEFAULT : Z := 0.
Definition SCE_VHDL_COMMENT : Z := 1.
Definition SCE_VHDL_COMMENTLINEBANG : Z := 2.
Definition SCE_VHDL_NUMBER : Z := 3.
Definition SCE_VHDL_STRING : Z := 4.
Definition SCE_VHDL_OPERATOR : Z := 5.
Definition SCE_VHDL_IDENTIFIER : Z := 6.
Definition SCE_VHDL_STRINGEOL : Z := 7.
Definition SCE_VHDL_KEYWORD : Z := 8.
Definition SCE_VHDL_STDOPERATOR : Z := 9.
Definition SCE_VHDL_ATTRIBUTE : Z := 10.
Definition SCE_VHDL_STDFUNCTION : Z := 11.
Definition SCE_VHDL_STDPACKAGE : Z := 12.
Definition SCE_VHDL_STDTYPE : Z := 13.
Definition SCE_VHDL_USERWORD : Z := 14.
Definition SCE_VHDL_BLOCK_COMMENT : Z := 15.

(** "Determine if the current state should terminate." *)
Definition terminate (kl : LexerWordList) (sc : StyleContext) : StyleContext :=
  let st := state sc in
  if st =? SCE_VHDL_OPERATOR then SC.SetState SCE_VHDL_DEFAULT sc
  else if st =? SCE_VHDL_NUMBER then
    if negb (iswordchar (ch sc)) && negb (ch sc =? C "#")
    then SC.SetState SCE_VHDL_DEFAULT sc else sc
  else if st =? SCE_VHDL_IDENTIFIER then
    if negb (iswordstart (ch sc)) then
      let s := SC.GetCurrentLowered 128 sc in
      let sc :=
        if InList (keywords kl 0) s then SC.ChangeState SCE_VHDL_KEYWORD sc
        else if InList (keywords kl 1) s then SC.ChangeState SCE_VHDL_STDOPERATOR sc
        else if InList (keywords kl 2) s then SC.ChangeState SCE_VHDL_ATTRIBUTE sc
        else if InList (keywords kl 3) s then SC.ChangeState SCE_VHDL_STDFUNCTION sc
        else if InList (keywords kl 4) s then SC.ChangeState SCE_VHDL_STDPACKAGE sc
        else if InList (keywords kl 5) s then SC.ChangeState SCE_VHDL_STDTYPE sc
        else if InList (keywords kl 6) s then SC.ChangeState SCE_VHDL_USERWORD sc
        else sc in
      SC.SetState SCE_VHDL_DEFAULT sc
    else sc
  else if (st =? SCE_VHDL_COMMENT) || (st =? SCE_VHDL_COMMENTLINEBANG) then
    if atLineStart sc then SC.SetState SCE_VHDL_DEFAULT sc else sc
  else if st =? SCE_VHDL_STRING then
    if ch sc =? CH_BACKSLASH then
      if (chNext sc =? CH_DQUOTE) || (chNext sc =? CH_SQUOTE)
         || (chNext sc =? CH_BACKSLASH)
      then SC.Forward sc else sc
    else if ch sc =? CH_DQUOTE then SC.ForwardSetState SCE_VHDL_DEFAULT sc
    else if atLineEnd sc then
      SC.ForwardSetState SCE_VHDL_DEFAULT (SC.ChangeState SCE_VHDL_STRINGEOL sc)
    else sc
  else if st =? SCE_VHDL_BLOCK_COMMENT then
    if SC.Match2 (C "*") (C "/") sc
    then SC.ForwardSetState SCE_VHDL_DEFAULT (SC.Forward sc) else sc
  else sc.

(** "Determine if a new state should be entered." *)
Definition enter (sc : StyleContext) : StyleContext :=
  if state sc =? SCE_VHDL_DEFAULT then
    if IsNumberStart (ch sc) (chNext sc) then SC.SetState SCE_VHDL_NUMBER sc
    else if iswordstart (ch sc) then SC.SetState SCE_VHDL_IDENTIFIER sc
    else if SC.Match2 (C "-") (C "-") sc then
      if SC.GetRelative 2 sc =? C "!"
      then SC.SetState SCE_VHDL_COMMENTLINEBANG sc
      else SC.SetState SCE_VHDL_COMMENT sc
    else if SC.Match2 (C "/") (C "*") sc then SC.SetState SCE_VHDL_BLOCK_COMMENT sc
    else if ch sc =? CH_DQUOTE then SC.SetState SCE_VHDL_STRING sc
    else if isoperator (ch sc) then SC.SetState SCE_VHDL_OPERATOR sc
    else sc
  else sc.

(** One turn of [for (; sc.More(); sc.Forward())]: the body and the
    increment. *)
Definition iteration (kl : LexerWordList) (sc : StyleContext) : StyleContext :=
  SC.Forward (enter (terminate kl sc)).

Fixpoint loop (fuel : nat) (kl : LexerWordList) (sc : StyleContext)
  : option StyleContext :=
  if SC.More sc then
    match fuel with
    | O => None
    | S fuel' => loop fuel' kl (iteration kl sc)
    end
  else Some sc.

(** [ColouriseVHDLDoc(startPos, length, initStyle, keywordLists, styler)]:
    the accessor after the pass. *)
Definition ColouriseVHDLDoc (startPos length initStyle : Z)
    (kl : LexerWordList) (a : Accessor) : option Accessor :=
  match loop (Z.to_nat length) kl (SC.make startPos length initStyle a) with
  | Some sc => Some (styler (SC.Complete sc))
  | None => None
  end.

End VHDL.

(** [GetLineNextChar()]: the next character of the current line that is not
    white space, starting with the current one; 0 when the line ends first. *)
Definition GetLineNextChar (sc : StyleContext) : Z :=
  if negb (IsWhiteSpace (ch sc)) then ch sc
  else if currentPos sc + 1 =? lineStartNext sc then 0
  else if negb (IsWhiteSpace (chNext sc)) then chNext sc
  else SC.nextNonWhite
         (GetRange (styler sc) (currentPos sc + 2) (lineStartNext sc)).

(** ** The Dart lexer (src/scintilla/lexers/LexPowerShell.cxx, second file):
       escape sequences and nested block comments *)

Module Dart.

(** Modelled from the spec: SciLexer.h is not under src/; the style codes of
    the Dart lexer that the identifier and block-comment code use, the
    space-equivalent styles (default, comments, task marker) first. *)
Definition SCE_DART_DEFAULT : Z := 0.
Definition SCE_DART_COMMENTLINE : Z := 1.
Definition SCE_DART_COMMENTLINEDOC : Z := 2.
Definition SCE_DART_COMMENTBLOCK : Z := 3.
Definition SCE_DART_COMMENTBLOCKDOC : Z := 4.
Definition SCE_DART_TASKMARKER : Z := 5.
Definition SCE_DART_OPERATOR : Z := 6.
Definition SCE_DART_OPERATOR2 : Z := 7.
Definition SCE_DART_NUMBER : Z := 8.
Definition SCE_DART_WORD : Z := 9.
Definition SCE_DART_WORD2 : Z := 10.
Definition SCE_DART_CLASS : Z := 11.
Definition SCE_DART_ENUM : Z := 12.
Definition SCE_DART_FUNCTION : Z := 13.
Definition SCE_DART_FUNCTION_DEFINITION : Z := 14.
Definition SCE_DART_IDENTIFIER : Z := 15.
Definition SCE_DART_SIMPLE_IDENTIFIER : Z := 16.
Definition SCE_DART_METADATA : Z := 17.
Definition SCE_DART_SYMBOL_IDENTIFIER : Z := 18.
Definition SCE_DART_LABEL : Z := 19.
Definition SCE_DART_KEY : Z := 20.
Definition SCE_DART_STRING_SQ : Z := 21.
Definition SCE_DART_STRING_DQ : Z := 22.
Definition SCE_DART_TRIPLE_STRING_SQ : Z := 23.
Definition SCE_DART_TRIPLE_STRING_DQ : Z := 24.
Definition SCE_DART_RAWSTRING_SQ : Z := 25.
Definition SCE_DART_ESCAPECHAR : Z := 29.

Record EscapeSequence : Type := mkEsc {
  outerState : Z;
  digitsLeft : Z;
  brace : bool
}.

Definition escInit : EscapeSequence := mkEsc SCE_DART_DEFAULT 0 false.

(** [resetEscapeState(state, chNext)]. *)
Definition resetEscapeState (esc : EscapeSequence) (st chNext : Z)
  : EscapeSequence * bool :=
  if IsEOLChar chNext then (esc, false)
  else
    (mkEsc st (if chNext =? C "x" then 3 else if chNext =? C "u" then 5 else 1) false,
     true).

(** [atEscapeEnd(ch)]. *)
Definition atEscapeEnd (esc : EscapeSequence) (c : Z) : EscapeSequence * bool :=
  let n := decr (digitsLeft esc) in
  (mkEsc (outerState esc) n (brace esc), (n <=? 0) || negb (IsHexDigit c)).

Definition DartLineStateMaskLineComment : Z := 1.
Definition DartLineStateMaskImport : Z := 2.

Definition MaxKeywordSize : Z := 20.

(** [enum class KeywordType]. *)
Definition KeywordType_None : Z := SCE_DART_DEFAULT.
Definition KeywordType_Label : Z := SCE_DART_LABEL.
Definition KeywordType_Class : Z := SCE_DART_CLASS.
Definition KeywordType_Enum : Z := SCE_DART_ENUM.
Definition KeywordType_Return : Z := 64.

Definition IsDartIdentifierStart (c : Z) : bool := IsIdentifierStart c || (c =? C "$").
Definition IsDartIdentifierChar (c : Z) : bool := IsIdentifierChar c || (c =? C "$").

Definition IsSpaceEquiv (st : Z) : bool := st <=? SCE_DART_TASKMARKER.

(** The cursor and the local variables of [ColouriseDartDoc]. *)
Record Lexer : Type := mkLexer {
  sc : StyleContext;
  lineStateLineType : Z;
  commentLevel : Z;
  kwType : Z;
  chBeforeIdentifier : Z;
  nestedState : list Z;
  visibleChars : Z;
  chBefore : Z;
  visibleCharsBefore : Z;
  chPrevNonWhite : Z;
  escSeq : EscapeSequence
}.

Definition on_sc (f : StyleContext -> StyleContext) (l : Lexer) : Lexer :=
  mkLexer (f (sc l)) (lineStateLineType l) (commentLevel l) (kwType l)
          (chBeforeIdentifier l) (nestedState l) (visibleChars l) (chBefore l)
          (visibleCharsBefore l) (chPrevNonWhite l) (escSeq l).

Definition set_commentLevel (v : Z) (l : Lexer) : Lexer :=
  mkLexer (sc l) (lineStateLineType l) v (kwType l)
          (chBeforeIdentifier l) (nestedState l) (visibleChars l) (chBefore l)
          (visibleCharsBefore l) (chPrevNonWhite l) (escSeq l).

Definition set_kwType (v : Z) (l : Lexer) : Lexer :=
  mkLexer (sc l) (lineStateLineType l) (commentLevel l) v
          (chBeforeIdentifier l) (nestedState l) (visibleChars l) (chBefore l)
          (visibleCharsBefore l) (chPrevNonWhite l) (escSeq l).

Definition set_lineType (v : Z) (l : Lexer) : Lexer :=
  mkLexer (sc l) v (commentLevel l) (kwType l)
          (chBeforeIdentifier l) (nestedState l) (visibleChars l) (chBefore l)
          (visibleCharsBefore l) (chPrevNonWhite l) (escSeq l).

(** The comment depth as [ColouriseDartDoc] reads it back from the word of
    the previous line. *)
Definition commentLevelOf (lineState : Z) : Z := Z.land (shr lineState 2) 63.

(** [sc.GetLineNextChar(ignoreCurrent)]. *)
Definition lineNextChar (ignoreCurrent : bool) (c : StyleContext) : Z :=
  if negb ignoreCurrent then GetLineNextChar c
  else if currentPos c + 1 =? lineStartNext c then 0
  else if negb (IsWhiteSpace (chNext c)) then chNext c
  else SC.nextNonWhite (GetRange (styler c) (currentPos c + 2) (lineStartNext c)).

Section Helpers.

(** [HighlightTaskMarker(sc, visibleChars, visibleCharsBefore, markerStyle)],
    [IsJumpLabelPrevChar], [PackLineState], [UnpackLineState] and
    [LookbackNonWhite(styler, startPos, maxSpaceStyle, chPrevNonWhite, style)]
    are not under src/; the last one yields the new [chPrevNonWhite]. *)
Variable HighlightTaskMarker : StyleContext -> Z -> Z -> Z -> StyleContext * Z * bool.
Variable IsJumpLabelPrevChar : Z -> bool.
Variable PackLineState : list Z -> Z.
Variable UnpackLineState : Z -> list Z.
Variable LookbackNonWhite : Accessor -> Z -> Z -> Z -> Z.

(** The string case at a backslash: the body of
    [else if (sc.ch == '\\' && sc.state < SCE_DART_RAWSTRING_SQ)]. *)
Definition stringBackslash (l : Lexer) : Lexer :=
  let (e, ok) := resetEscapeState (escSeq l) (state (sc l)) (chNext (sc l)) in
  if ok then
    let sc1 := SC.Forward (SC.SetState SCE_DART_ESCAPECHAR (sc l)) in
    let (e, sc1) :=
      if SC.Match2 (C "u") (C "{") sc1
      then (mkEsc (outerState e) 7 true, SC.Forward sc1) else (e, sc1) in
    mkLexer sc1 (lineStateLineType l) (commentLevel l) (kwType l)
            (chBeforeIdentifier l) (nestedState l) (visibleChars l) (chBefore l)
            (visibleCharsBefore l) (chPrevNonWhite l) e
  else l.

(** The classification of a finished identifier of state
    [SCE_DART_IDENTIFIER] or [SCE_DART_SIMPLE_IDENTIFIER]: the [else] branch
    of the identifier case, from [sc.GetCurrent] to the reset of [kwType]. *)
Definition classifyIdentifier (kl : LexerWordList) (l : Lexer) : Lexer :=
  let s := SC.GetCurrent MaxKeywordSize (sc l) in
  let st := state (sc l) in
  let l1 :=
    if InList (keywords kl 0) s then
      let l := on_sc (SC.ChangeState SCE_DART_WORD) l in
      let l :=
        if st =? SCE_DART_SIMPLE_IDENTIFIER then set_kwType KeywordType_None l
        else if StrEqualsAny s ["import"; "part"]%string then
          if visibleChars l =? SC.LengthCurrent (sc l)
          then set_lineType DartLineStateMaskImport l else l
        else if StrEqualsAny s ["class"; "extends"; "implements"; "new"; "throw";
                                "with"; "as"; "is"; "on"]%string then
          set_kwType KeywordType_Class l
        else if StrEqual s "enum" then set_kwType KeywordType_Enum l
        else if StrEqualsAny s ["break"; "continue"]%string then
          set_kwType KeywordType_Label l
        else if StrEqualsAny s ["return"; "await"; "yield"]%string then
          set_kwType KeywordType_Return l
        else l in
      if (kwType l >? KeywordType_None) && (kwType l <? KeywordType_Return) then
        if negb (IsDartIdentifierStart (GetLineNextChar (sc l)))
        then set_kwType KeywordType_None l else l
      else l
    else if InList (keywords kl 1) s then on_sc (SC.ChangeState SCE_DART_WORD2) l
    else if InList (keywords kl 2) s then on_sc (SC.ChangeState SCE_DART_CLASS) l
    else if InList (keywords kl 3) s then on_sc (SC.ChangeState SCE_DART_ENUM) l
    else if (st =? SCE_DART_IDENTIFIER) && (ch (sc l) =? C ":") then
      if (chBefore l =? C ",") || (chBefore l =? C "{") || (chBefore l =? C "(")
      then on_sc (SC.ChangeState SCE_DART_KEY) l
      else if IsJumpLabelPrevChar (chBefore l)
           then on_sc (SC.ChangeState SCE_DART_LABEL) l
           else l
    else if (st =? SCE_DART_IDENTIFIER) && negb (ch (sc l) =? C ".") then
      if (kwType l >? KeywordType_None) && (kwType l <? KeywordType_Return) then
        on_sc (SC.ChangeState (kwType l)) l
      else
        let chNext := lineNextChar (ch (sc l) =? C "?") (sc l) in
        if chNext =? C "(" then
          if negb (kwType l =? KeywordType_Return)
             && (IsDartIdentifierChar (chBefore l) || (chBefore l =? C "]"))
          then on_sc (SC.ChangeState SCE_DART_FUNCTION_DEFINITION) l
          else on_sc (SC.ChangeState SCE_DART_FUNCTION) l
        else if ((chBeforeIdentifier l =? C "<")
                 && ((chNext =? C ">") || (chNext =? C "<")))
                || IsDartIdentifierStart chNext
        then on_sc (SC.ChangeState SCE_DART_CLASS) l
        else l
    else l in
  if negb (state (sc l1) =? SCE_DART_WORD) && negb (ch (sc l1) =? C ".")
  then set_kwType KeywordType_None l1 else l1.

(** [case SCE_DART_SIMPLE_IDENTIFIER: case SCE_DART_IDENTIFIER:
    case SCE_DART_METADATA: case SCE_DART_SYMBOL_IDENTIFIER:]; the flag is
    set when the case ended with [continue]. *)
Definition identifierCase (kl : LexerWordList) (l : Lexer) : Lexer * bool :=
  let st := state (sc l) in
  if negb (IsDartIdentifierChar (ch (sc l)))
     || ((ch (sc l) =? C "$") && (st =? SCE_DART_SIMPLE_IDENTIFIER)) then
    if (st =? SCE_DART_METADATA) || (st =? SCE_DART_SYMBOL_IDENTIFIER) then
      if ch (sc l) =? C "." then
        (on_sc (fun c => SC.ForwardSetState st (SC.SetState SCE_DART_OPERATOR c)) l,
         true)
      else (on_sc (SC.SetState SCE_DART_DEFAULT) l, false)
    else
      let l := classifyIdentifier kl l in
      if st =? SCE_DART_SIMPLE_IDENTIFIER then
        (on_sc (SC.SetState (outerState (escSeq l))) l, true)
      else (on_sc (SC.SetState SCE_DART_DEFAULT) l, false)
  else (l, false).

(** [case SCE_DART_COMMENTBLOCK: case SCE_DART_COMMENTBLOCKDOC:]; the flag
    is set when the case ended with [continue]. *)
Definition commentBlock (l : Lexer) : Lexer * bool :=
  if SC.Match2 (C "*") (C "/") (sc l) then
    let l := on_sc SC.Forward l in
    let l := set_commentLevel (decr (commentLevel l)) l in
    if commentLevel l =? 0
    then (on_sc (SC.ForwardSetState SCE_DART_DEFAULT) l, false)
    else (l, false)
  else if SC.Match2 (C "/") (C "*") (sc l) then
    let l := on_sc SC.Forward l in
    (set_commentLevel (incr (commentLevel l)) l, false)
  else
    let '(sc1, vis, found) :=
      HighlightTaskMarker (sc l) (visibleChars l) (visibleCharsBefore l)
                          SCE_DART_TASKMARKER in
    (mkLexer sc1 (lineStateLineType l) (commentLevel l) (kwType l)
             (chBeforeIdentifier l) (nestedState l) vis (chBefore l)
             (visibleCharsBefore l) (chPrevNonWhite l) (escSeq l), found).

(** The comment branch of the [if (sc.state == SCE_DART_DEFAULT)] block,
    taken at [//] and [/*]; it ends with [continue]. *)
Definition enterComment (l : Lexer) : Lexer :=
  let next := chNext (sc l) in
  let sc1 :=
    SC.ForwardN 2
      (SC.SetState (if next =? C "/" then SCE_DART_COMMENTLINE
                    else SCE_DART_COMMENTBLOCK) (sc l)) in
  let sc2 :=
    if (ch sc1 =? next) && negb (chNext sc1 =? next)
    then SC.ChangeState (state sc1 + SCE_DART_COMMENTLINEDOC - SCE_DART_COMMENTLINE) sc1
    else sc1 in
  mkLexer sc2
          (if (next =? C "/") && (visibleChars l =? 0)
           then DartLineStateMaskLineComment else lineStateLineType l)
          (if next =? C "/" then commentLevel l else 1)
          (kwType l) (chBeforeIdentifier l) (nestedState l) (visibleChars l)
          (chBefore l) (visibleChars l) (chPrevNonWhite l) (escSeq l).

(** The word [ColouriseDartDoc] passes to [styler.SetLineState]. *)
Definition lineStateWord (commentLevel lineStateLineType : Z) (nested : list Z) : Z :=
  let lineState := Z.lor (shl commentLevel 2) lineStateLineType in
  match nested with
  | [] => lineState
  | _ => Z.lor lineState (shl (PackLineState nested) 8)
  end.

(** The [if (sc.atLineEnd)] block at the end of the loop body. *)
Definition lineEnd (l : Lexer) : Lexer :=
  if atLineEnd (sc l) then
    mkLexer
      (SC.with_styler
         (SetLineState (styler (sc l)) (currentLine (sc l))
            (lineStateWord (commentLevel l) (lineStateLineType l) (nestedState l)))
         (sc l))
      0 (commentLevel l) KeywordType_None (chBeforeIdentifier l) (nestedState l)
      0 (chBefore l) 0 (chPrevNonWhite l) (escSeq l)
  else l.

(** The start of [ColouriseDartDoc]: the cursor, the comment depth and the
    nested states of the previous line, the shebang line of a file, and on
    resumption the last character before the range that is not white
    space. *)
Definition start (startPos lengthDoc initStyle : Z) (a : Accessor) : Lexer :=
  let sc := SC.make startPos lengthDoc initStyle a in
  let '(commentLevel, nested) :=
    if currentLine sc >? 0 then
      let lineState := GetLineState (styler sc) (currentLine sc - 1) in
      let rest := shr lineState 8 in
      (commentLevelOf lineState,
       if negb (rest =? 0) then UnpackLineState rest else [])
    else (0, []) in
  if startPos =? 0 then
    if SC.Match2 (C "#") (C "!") sc then
      mkLexer (SC.Forward (SC.SetState SCE_DART_COMMENTLINE sc))
              DartLineStateMaskLineComment commentLevel KeywordType_None 0 nested
              0 0 0 0 escInit
    else
      mkLexer sc 0 commentLevel KeywordType_None 0 nested 0 0 0 0 escInit
  else if IsSpaceEquiv initStyle then
    mkLexer sc 0 commentLevel KeywordType_None 0 nested 0 0 0
            (LookbackNonWhite (styler sc) startPos SCE_DART_TASKMARKER 0) escInit
  else
    mkLexer sc 0 commentLevel KeywordType_None 0 nested 0 0 0 0 escInit.

End Helpers.

End Dart.

(** ** The F# lexer (src/scintilla/lexers/LexFSharp.cxx): escape sequences
       and nested block comments *)

Module FSharp.

(** Modelled from the spec: SciLexer.h is not under src/; the style codes
    that the block-comment code and the line state use. *)
Definition SCE_FSHARP_DEFAULT : Z := 0.
Definition SCE_FSHARP_COMMENT : Z := 1.
Definition SCE_FSHARP_COMMENTLINE : Z := 2.
Definition SCE_FSHARP_COMMENTLINEDOC : Z := 3.
Definition SCE_FSHARP_OPERATOR : Z := 4.
Definition SCE_FSHARP_CHARACTER : Z := 11.
Definition SCE_FSHARP_STRING : Z := 12.
Definition SCE_FSHARP_INTERPOLATED_STRING : Z := 13.
Definition SCE_FSHARP_VERBATIM_STRING : Z := 14.
Definition SCE_FSHARP_INTERPOLATED_VERBATIM_STRING : Z := 15.
Definition SCE_FSHARP_TRIPLE_STRING : Z := 16.
Definition SCE_FSHARP_INTERPOLATED_TRIPLE_STRING : Z := 17.
Definition SCE_FSHARP_ESCAPECHAR : Z := 18.
Definition SCE_FSHARP_QUOTATION : Z := 20.

(** Modelled from the spec: LexerUtils.h is not under src/; the flags of the
    low byte of the line state word. *)
Definition PyLineStateMaskEmptyLine : Z := 1.
Definition PyLineStateMaskCommentLine : Z := 2.
Definition PyLineStateMaskTripleQuote : Z := 4.
Definition PyLineStateMaskCloseBrace : Z := 8.
Definition PyLineStateStringInterpolation : Z := 32.

Record EscapeSequence : Type := mkEsc {
  outerState : Z;
  digitsLeft : Z;
  hex : bool
}.

(** [resetEscapeState(state, chNext)]. *)
Definition resetEscapeState (esc : EscapeSequence) (st chNext : Z) : EscapeSequence :=
  if chNext =? C "x" then mkEsc st 3 true
  else if chNext =? C "u" then mkEsc st 5 true
  else if chNext =? C "U" then mkEsc st 9 true
  else if IsADigit chNext then mkEsc st 3 false
  else mkEsc st 1 true.

(** [resetEscapeState(state)]. *)
Definition resetEscapeState1 (esc : EscapeSequence) (st : Z) : EscapeSequence :=
  mkEsc st 1 (hex esc).

(** [atEscapeEnd(ch)]. *)
Definition atEscapeEnd (esc : EscapeSequence) (c : Z) : EscapeSequence * bool :=
  let n := decr (digitsLeft esc) in
  (mkEsc (outerState esc) n (hex esc), (n <=? 0) || negb (IsDecimalOrHex c (hex esc))).

Definition IsMultilineStyle (style : Z) : bool :=
  ((SCE_FSHARP_STRING <=? style) && (style <=? SCE_FSHARP_INTERPOLATED_TRIPLE_STRING))
  || (style =? SCE_FSHARP_QUOTATION).

Definition escInit : EscapeSequence := mkEsc SCE_FSHARP_DEFAULT 0 false.

(** The cursor and the locals of [ColouriseFSharpDoc] that the escape and
    block-comment code and the line state use; [nestedEmpty] is
    [nestedState.empty()]. *)
Record Lexer : Type := mkLexer {
  sc : StyleContext;
  commentLevel : Z;
  visibleChars : Z;
  indentCount : Z;
  lineState : Z;
  stringInterpolatorCount : Z;
  escSeq : EscapeSequence;
  nestedEmpty : bool
}.

Definition on_sc (f : StyleContext -> StyleContext) (l : Lexer) : Lexer :=
  mkLexer (f (sc l)) (commentLevel l) (visibleChars l) (indentCount l)
          (lineState l) (stringInterpolatorCount l) (escSeq l) (nestedEmpty l).

Definition set_commentLevel (v : Z) (l : Lexer) : Lexer :=
  mkLexer (sc l) v (visibleChars l) (indentCount l)
          (lineState l) (stringInterpolatorCount l) (escSeq l) (nestedEmpty l).

Definition set_lineState (v : Z) (l : Lexer) : Lexer :=
  mkLexer (sc l) (commentLevel l) (visibleChars l) (indentCount l)
          v (stringInterpolatorCount l) (escSeq l) (nestedEmpty l).

Definition set_escSeq (e : EscapeSequence) (l : Lexer) : Lexer :=
  mkLexer (sc l) (commentLevel l) (visibleChars l) (indentCount l)
          (lineState l) (stringInterpolatorCount l) e (nestedEmpty l).

(** The string case at a backslash: the body of
    [else if (sc.ch == '\\')]. *)
Definition stringBackslash (l : Lexer) : Lexer :=
  if (state (sc l) <? SCE_FSHARP_VERBATIM_STRING)
     && negb (IsEOLChar (chNext (sc l))) then
    on_sc (fun c => SC.Forward (SC.SetState SCE_FSHARP_ESCAPECHAR c))
          (set_escSeq (resetEscapeState (escSeq l) (state (sc l)) (chNext (sc l))) l)
  else l.

(** The comment depth as [ColouriseFSharpDoc] reads it back from the word
    of the previous line. *)
Definition commentLevelOf (lineState : Z) : Z := Z.land (shr lineState 12) 15.

(** [case SCE_FSHARP_COMMENT:]. *)
Definition comment (l : Lexer) : Lexer :=
  let l := if atLineStart (sc l) then set_lineState PyLineStateMaskCommentLine l
           else l in
  if SC.Match2 (C "(") (C "*") (sc l) then
    on_sc SC.Forward (set_commentLevel (incr (commentLevel l)) l)
  else if SC.Match2 (C "*") (C ")") (sc l) then
    let l := on_sc SC.Forward l in
    let l := set_commentLevel (decr (commentLevel l)) l in
    if commentLevel l =? 0 then
      let l := on_sc (SC.ForwardSetState SCE_FSHARP_DEFAULT) l in
      if (lineState l =? PyLineStateMaskCommentLine)
         && negb (GetLineNextChar (sc l) =? 0)
      then set_lineState 0 l else l
    else l
  else l.

(** The comment branch of the [if (sc.state == SCE_FSHARP_DEFAULT)] block,
    taken at an opening parenthesis followed by a star. *)
Definition enterComment (l : Lexer) : Lexer :=
  let l := on_sc (fun c => SC.Forward (SC.SetState SCE_FSHARP_COMMENT c)) l in
  if chNext (sc l) =? C ")" then
    on_sc (SC.ChangeState SCE_FSHARP_OPERATOR) l
  else
    let l := set_commentLevel 1 l in
    if visibleChars l =? 0 then set_lineState PyLineStateMaskCommentLine l else l.

(** The word [ColouriseFSharpDoc] passes to [styler.SetLineState]. *)
Definition lineStateWord (l : Lexer) : Z :=
  let flags :=
    if negb (nestedEmpty l)
    then Z.lor PyLineStateStringInterpolation PyLineStateMaskTripleQuote
    else if IsMultilineStyle (state (sc l)) then PyLineStateMaskTripleQuote
    else if (lineState l =? 0) && (visibleChars l =? 0) then PyLineStateMaskEmptyLine
    else lineState l in
  Z.lor flags
        (Z.lor (Z.lor (shl (indentCount l) 16) (shl (commentLevel l) 12))
               (shl (stringInterpolatorCount l) 8)).

(** The [if (sc.atLineEnd)] block at the end of the loop body. *)
Definition lineEnd (l : Lexer) : Lexer :=
  if atLineEnd (sc l) then
    mkLexer
      (SC.with_styler
         (SetLineState (styler (sc l)) (currentLine (sc l)) (lineStateWord l))
         (sc l))
      (commentLevel l) 0 0 0 (stringInterpolatorCount l) (escSeq l) (nestedEmpty l)
  else l.

(** The comment depth and interpolator count [ColouriseFSharpDoc] starts
    with: those of the previous line. *)
Definition start (sc : StyleContext) : Lexer :=
  if currentLine sc >? 0 then
    let w := GetLineState (styler sc) (currentLine sc - 1) in
    mkLexer sc (commentLevelOf w) 0 0 0 (Z.land (shr w 8) 15) escInit true
  else mkLexer sc 0 0 0 0 0 escInit true.

End FSharp.

(** ** The PowerShell lexer (src/scintilla/lexers/LexPowerShell.cxx, first
       file): the colouriser and the folder *)

Module PowerShell.

(** Modelled from the spec: SciLexer.h is not under src/; the style codes of
    the PowerShell lexer. *)
Definition SCE_POWERSHELL_DEFAULT : Z := 0.
Definition SCE_POWERSHELL_COMMENT : Z := 1.
Definition SCE_POWERSHELL_STRING_DQ : Z := 2.
Definition SCE_POWERSHELL_STRING_SQ : Z := 3.
Definition SCE_POWERSHELL_NUMBER : Z := 4.
Definition SCE_POWERSHELL_VARIABLE : Z := 5.
Definition SCE_POWERSHELL_OPERATOR : Z := 6.
Definition SCE_POWERSHELL_IDENTIFIER : Z := 7.
Definition SCE_POWERSHELL_KEYWORD : Z := 8.
Definition SCE_POWERSHELL_CMDLET : Z := 9.
Definition SCE_POWERSHELL_ALIAS : Z := 10.
Definition SCE_POWERSHELL_FUNCTION : Z := 11.
Definition SCE_POWERSHELL_USER1 : Z := 12.
Definition SCE_POWERSHELL_COMMENTSTREAM : Z := 13.

(** "Extended to accept accented characters". *)
Definition IsPSWordChar (ch : Z) : bool :=
  (ch >=? 128) || IsAlphaNumeric ch || (ch =? C "-") || (ch =? C "_").

(** The [switch (sc.state)] of the loop body. *)
Definition terminate (kl : LexerWordList) (sc : StyleContext) : StyleContext :=
  let st := state sc in
  if st =? SCE_POWERSHELL_COMMENT then
    if atLineStart sc then SC.SetState SCE_POWERSHELL_DEFAULT sc else sc
  else if st =? SCE_POWERSHELL_COMMENTSTREAM then
    if (ch sc =? C ">") && (chPrev sc =? C "#")
    then SC.ForwardSetState SCE_POWERSHELL_DEFAULT sc else sc
  else if st =? SCE_POWERSHELL_STRING_DQ then
    if ch sc =? CH_DQUOTE then SC.ForwardSetState SCE_POWERSHELL_DEFAULT sc else sc
  else if st =? SCE_POWERSHELL_STRING_SQ then
    if ch sc =? CH_SQUOTE then SC.ForwardSetState SCE_POWERSHELL_DEFAULT sc else sc
  else if st =? SCE_POWERSHELL_NUMBER then
    if negb (IsADigit (ch sc)) then SC.SetState SCE_POWERSHELL_DEFAULT sc else sc
  else if st =? SCE_POWERSHELL_VARIABLE then
    if negb (IsPSWordChar (ch sc)) then SC.SetState SCE_POWERSHELL_DEFAULT sc else sc
  else if st =? SCE_POWERSHELL_OPERATOR then
    if negb (isoperator (ch sc)) then SC.SetState SCE_POWERSHELL_DEFAULT sc else sc
  else if st =? SCE_POWERSHELL_IDENTIFIER then
    if negb (IsPSWordChar (ch sc)) then
      let s := SC.GetCurrentLowered 128 sc in
      let sc :=
        if InList (keywords kl 0) s then SC.ChangeState SCE_POWERSHELL_KEYWORD sc
        else if InList (keywords kl 1) s then SC.ChangeState SCE_POWERSHELL_CMDLET sc
        else if InList (keywords kl 2) s then SC.ChangeState SCE_POWERSHELL_ALIAS sc
        else if InList (keywords kl 3) s then SC.ChangeState SCE_POWERSHELL_FUNCTION sc
        else if InList (keywords kl 4) s then SC.ChangeState SCE_POWERSHELL_USER1 sc
        else sc in
      SC.SetState SCE_POWERSHELL_DEFAULT sc
    else sc
  else sc.

(** "Determine if a new state should be entered." *)
Definition enter (sc : StyleContext) : StyleContext :=
  if state sc =? SCE_POWERSHELL_DEFAULT then
    if ch sc =? C "#" then SC.SetState SCE_POWERSHELL_COMMENT sc
    else if (ch sc =? C "<") && (chNext sc =? C "#")
    then SC.SetState SCE_POWERSHELL_COMMENTSTREAM sc
    else if ch sc =? CH_DQUOTE then SC.SetState SCE_POWERSHELL_STRING_DQ sc
    else if ch sc =? CH_SQUOTE then SC.SetState SCE_POWERSHELL_STRING_SQ sc
    else if ch sc =? C "$" then SC.SetState SCE_POWERSHELL_VARIABLE sc
    else if IsNumberStart (ch sc) (chNext sc) then SC.SetState SCE_POWERSHELL_NUMBER sc
    else if isoperator (ch sc) then SC.SetState SCE_POWERSHELL_OPERATOR sc
    else if IsPSWordChar (ch sc) then SC.SetState SCE_POWERSHELL_IDENTIFIER sc
    else sc
  else sc.

(** One turn of [for (; sc.More(); sc.Forward())]: the body and the
    increment. *)
Definition iteration (kl : LexerWordList) (sc : StyleContext) : StyleContext :=
  SC.Forward (enter (terminate kl sc)).

Fixpoint loop (fuel : nat) (kl : LexerWordList) (sc : StyleContext)
  : option StyleContext :=
  if SC.More sc then
    match fuel with
    | O => None
    | S fuel' => loop fuel' kl (iteration kl sc)
    end
  else Some sc.

(** [ColourisePowerShellDoc(startPos, length, initStyle, keywordLists,
    styler)]: the accessor after the pass. *)
Definition ColourisePowerShellDoc (startPos length initStyle : Z)
    (kl : LexerWordList) (a : Accessor) : option Accessor :=
  match loop (Z.to_nat length) kl (SC.make startPos length initStyle a) with
  | Some sc => Some (styler (SC.Complete sc))
  | None => None
  end.

(** The loop variables of [FoldPowerShellDoc]. *)
Record Folder : Type := mkFolder {
  fstyler : Accessor;
  fpos : Z;
  lineCurrent : Z;
  levelCurrent : Z;
  levelNext : Z;
  fchNext : Z;
  style : Z;
  styleNext : Z
}.

(** The change of [levelNext] for the character [c] of style [style],
    between [stylePrev] and [styleNext]. *)
Definition styleDelta (stylePrev style styleNext c : Z) : Z :=
  if style =? SCE_POWERSHELL_OPERATOR then
    if c =? C "{" then 1 else if c =? C "}" then -1 else 0
  else if style =? SCE_POWERSHELL_COMMENTSTREAM then
    if negb (stylePrev =? SCE_POWERSHELL_COMMENTSTREAM) then 1
    else if negb (styleNext =? SCE_POWERSHELL_COMMENTSTREAM) then -1 else 0
  else 0.

(** The fold level word of a line that starts at level [levelUse] and ends
    at level [levelNext]. *)
Definition levelWord (levelUse levelNext : Z) : Z :=
  let lev := Z.lor levelUse (shl levelNext 16) in
  if levelUse <? levelNext then Z.lor lev SC_FOLDLEVELHEADERFLAG else lev.

(** The body of the [for] loop of [FoldPowerShellDoc], with its [i++]. *)
Definition foldStep (endPos : Z) (f : Folder) : Folder :=
  let a := fstyler f in
  let i := fpos f in
  let c := fchNext f in
  let chNext1 := SafeGetCharAt a (i + 1) in
  let stylePrev := style f in
  let style1 := styleNext f in
  let styleNext1 := StyleAt a (i + 1) in
  let atEOL := ((c =? CH_CR) && negb (chNext1 =? CH_LF)) || (c =? CH_LF) in
  let levelNext1 := int32 (levelNext f + styleDelta stylePrev style1 styleNext1 c) in
  if atEOL || (i =? endPos - 1) then
    let lev := levelWord (levelCurrent f) levelNext1 in
    let a1 := if negb (lev =? LevelAt a (lineCurrent f))
              then SetLevel a (lineCurrent f) lev else a in
    mkFolder a1 (i + 1) (lineCurrent f + 1) levelNext1 levelNext1
             chNext1 style1 styleNext1
  else
    mkFolder a (i + 1) (lineCurrent f) (levelCurrent f) levelNext1
             chNext1 style1 styleNext1.

(** The folder after [n] turns of the loop. *)
Fixpoint foldSteps (n : nat) (endPos : Z) (f : Folder) : Folder :=
  match n with
  | O => f
  | S k => foldSteps k endPos (foldStep endPos f)
  end.

(** The variables of [FoldPowerShellDoc] when its loop starts. *)
Definition foldStart (startPos length initStyle : Z) (a : Accessor) : Folder :=
  let lineCurrent := GetLine a startPos in
  let levelCurrent :=
    if lineCurrent >? 0 then shr (LevelAt a (lineCurrent - 1)) 16
    else SC_FOLDLEVELBASE in
  mkFolder a startPos lineCurrent levelCurrent levelCurrent
           (SafeGetCharAt a startPos) initStyle (StyleAt a startPos).

(** [FoldPowerShellDoc(startPos, length, initStyle, keywordLists, styler)]:
    the loop runs once for each offset of the range. *)
Definition FoldPowerShellDoc (startPos length initStyle : Z) (a : Accessor)
  : Accessor :=
  fstyler (foldSteps (Z.to_nat length) (startPos + length)
                     (foldStart startPos length initStyle a)).

End PowerShell.

(** ** The CMake lexer (src/unnamed/part_002): the colouriser *)

Module CMakeLexer.

(** Modelled from the spec: SciLexer.h is not under src/; the style codes of
    the CMake lexer that the line state and the folder do not use.  Only
    their being different from each other matters. *)
Definition SCE_CMAKE_STRING : Z := 3.
Definition SCE_CMAKE_NUMBER : Z := 4.
Definition SCE_CMAKE_FUNCATION : Z := 6.
Definition SCE_CMAKE_IDENTIFIER : Z := 7.
Definition SCE_CMAKE_COMMANDS : Z := 9.
Definition SCE_CMAKE_MACRO : Z := 10.
Definition SCE_CMAKE_PARAMETERS : Z := 11.
Definition SCE_CMAKE_PROPERTIES : Z := 12.
Definition SCE_CMAKE_VARIABLE : Z := 13.
Definition SCE_CMAKE_VALUES : Z := 15.
Definition SCE_CMAKE_ESCAPE_SEQUENCE : Z := 16.
Definition SCE_CMAKE_VARIABLE_DOLLAR : Z := 17.
Definition SCE_CMAKE_VARIABLE_AT : Z := 18.
Definition SCE_CMAKE_LINE_CONTINUE : Z := 19.

Definition IsCMakeOperator (ch : Z) : bool :=
  existsb (Z.eqb ch) (bytes "()=:;$<>,").

Definition IsCMakeChar (ch : Z) : bool :=
  IsIdentifierChar ch || (ch =? C ".") || (ch =? C "-") || (ch =? C "+").

(** The [while] loop of [IsBracketArgument] over the text [l] that starts
    at offset [pos]: the character that stops it, and [offset] after it. *)
Fixpoint scanEquals (l : list Z) (offset : Z) : Z * Z :=
  match l with
  | c :: rest => if c =? C "=" then scanEquals rest (incr offset) else (c, offset)
  | [] => (0, offset)
  end.

(** [IsBracketArgument(styler, pos, start, bracketNumber)]: the result and
    [bracketNumber] after the call. *)
Definition IsBracketArgument (a : Accessor) (pos : Z) (start : bool)
    (bracketNumber : Z) : bool * Z :=
  let '(c, offset) := scanEquals (skipn (Z.to_nat (pos + 1)) (buf a)) 0 in
  if start then
    if c =? C "[" then (true, offset) else (false, bracketNumber)
  else
    if (c =? C "]") && (offset =? bracketNumber) then (true, bracketNumber)
    else (false, bracketNumber).

Section Colourise.

(** [WordList::InListPrefixed(s, marker)] is not under src/. *)
Variable InListPrefixed : WordList -> list Z -> Z -> bool.

(** The cursor and the locals of [ColouriseCMakeDoc]. *)
Record Lexer : Type := mkLexer {
  sc : StyleContext;
  lineStateLineComment : Z;
  outerStyle : Z;
  varNestedLevel : Z;
  generatorExpr : Z;
  bracketNumber : Z;
  userDefType : Z;
  chBeforeNumber : Z;
  chIdentifierStart : Z;
  visibleChars : Z
}.

Definition on_sc (f : StyleContext -> StyleContext) (l : Lexer) : Lexer :=
  mkLexer (f (sc l)) (lineStateLineComment l) (outerStyle l) (varNestedLevel l)
          (generatorExpr l) (bracketNumber l) (userDefType l) (chBeforeNumber l)
          (chIdentifierStart l) (visibleChars l).

Definition set_lineComment (v : Z) (l : Lexer) : Lexer :=
  mkLexer (sc l) v (outerStyle l) (varNestedLevel l) (generatorExpr l)
          (bracketNumber l) (userDefType l) (chBeforeNumber l)
          (chIdentifierStart l) (visibleChars l).

Definition set_outerStyle (v : Z) (l : Lexer) : Lexer :=
  mkLexer (sc l) (lineStateLineComment l) v (varNestedLevel l) (generatorExpr l)
          (bracketNumber l) (userDefType l) (chBeforeNumber l)
          (chIdentifierStart l) (visibleChars l).

Definition set_varNestedLevel (v : Z) (l : Lexer) : Lexer :=
  mkLexer (sc l) (lineStateLineComment l) (outerStyle l) v (generatorExpr l)
          (bracketNumber l) (userDefType l) (chBeforeNumber l)
          (chIdentifierStart l) (visibleChars l).

Definition set_generatorExpr (v : Z) (l : Lexer) : Lexer :=
  mkLexer (sc l) (lineStateLineComment l) (outerStyle l) (varNestedLevel l) v
          (bracketNumber l) (userDefType l) (chBeforeNumber l)
          (chIdentifierStart l) (visibleChars l).

Definition set_bracketNumber (v : Z) (l : Lexer) : Lexer :=
  mkLexer (sc l) (lineStateLineComment l) (outerStyle l) (varNestedLevel l)
          (generatorExpr l) v (userDefType l) (chBeforeNumber l)
          (chIdentifierStart l) (visibleChars l).

Definition set_userDefType (v : Z) (l : Lexer) : Lexer :=
  mkLexer (sc l) (lineStateLineComment l) (outerStyle l) (varNestedLevel l)
          (generatorExpr l) (bracketNumber l) v (chBeforeNumber l)
          (chIdentifierStart l) (visibleChars l).

Definition set_chBeforeNumber (v : Z) (l : Lexer) : Lexer :=
  mkLexer (sc l) (lineStateLineComment l) (outerStyle l) (varNestedLevel l)
          (generatorExpr l) (bracketNumber l) (userDefType l) v
          (chIdentifierStart l) (visibleChars l).

Definition set_chIdentifierStart (v : Z) (l : Lexer) : Lexer :=
  mkLexer (sc l) (lineStateLineComment l) (outerStyle l) (varNestedLevel l)
          (generatorExpr l) (bracketNumber l) (userDefType l) (chBeforeNumber l)
          v (visibleChars l).

Definition set_visibleChars (v : Z) (l : Lexer) : Lexer :=
  mkLexer (sc l) (lineStateLineComment l) (outerStyle l) (varNestedLevel l)
          (generatorExpr l) (bracketNumber l) (userDefType l) (chBeforeNumber l)
          (chIdentifierStart l) v.

(** [case SCE_CMAKE_IDENTIFIER], at the end of the identifier. *)
Definition identifierEnd (kl : LexerWordList) (l : Lexer) : Lexer :=
  let c := sc l in
  let l1 :=
    if SC.GetDocNextChar c =? C "(" then
      let s := SC.GetCurrentLowered 128 c in
      let l0 := set_userDefType CMake.SCE_CMAKE_DEFAULT l in
      if InListPrefixed (keywords kl 0) s (C "(") then
        let l0 := on_sc (SC.ChangeState CMake.SCE_CMAKE_WORD) l0 in
        if StrEqual s "function" then set_userDefType SCE_CMAKE_FUNCATION l0
        else if StrEqual s "macro" then set_userDefType SCE_CMAKE_MACRO l0
        else l0
      else if InListPrefixed (keywords kl 1) s (C "(")
      then on_sc (SC.ChangeState SCE_CMAKE_COMMANDS) l0
      else on_sc (SC.ChangeState SCE_CMAKE_FUNCATION) l0
    else if negb (userDefType l =? CMake.SCE_CMAKE_DEFAULT) then
      set_userDefType CMake.SCE_CMAKE_DEFAULT
        (on_sc (SC.ChangeState (userDefType l)) l)
    else if IsUpperCase (chIdentifierStart l) then
      let s := SC.GetCurrent 128 c in
      if InList (keywords kl 2) s then on_sc (SC.ChangeState SCE_CMAKE_PARAMETERS) l
      else if InList (keywords kl 3) s
      then on_sc (SC.ChangeState SCE_CMAKE_PROPERTIES) l
      else if InList (keywords kl 4) s
      then on_sc (SC.ChangeState SCE_CMAKE_VARIABLE) l
      else if InList (keywords kl 5) s
      then on_sc (SC.ChangeState SCE_CMAKE_VALUES) l
      else l
    else l in
  on_sc (SC.SetState CMake.SCE_CMAKE_DEFAULT) l1.

(** [case SCE_CMAKE_BLOCK_COMMENT] and [case SCE_CMAKE_BRACKET_ARGUMENT]. *)
Definition bracketClose (l : Lexer) : Lexer :=
  let c := sc l in
  if (ch c =? C "]") && ((chNext c =? C "=") || (chNext c =? C "]")) then
    let '(ok, b) :=
      IsBracketArgument (styler c) (currentPos c) false (bracketNumber l) in
    if ok then
      set_bracketNumber 0
        (on_sc (fun c => SC.ForwardSetState CMake.SCE_CMAKE_DEFAULT
                           (SC.ForwardN (int32 (1 + b)) c))
               (set_bracketNumber b l))
    else set_bracketNumber b l
  else l.

(** [case SCE_CMAKE_STRING]; the flag is true on [continue]. *)
Definition stringCase (l : Lexer) : Lexer * bool :=
  let c := sc l in
  if ch c =? CH_BACKSLASH then
    if IsEOLChar (chNext c) then
      (on_sc (fun c => SC.ForwardSetState SCE_CMAKE_STRING
                         (SC.SetState SCE_CMAKE_LINE_CONTINUE c)) l, false)
    else
      (on_sc (fun c => SC.Forward (SC.SetState SCE_CMAKE_ESCAPE_SEQUENCE c)) l, false)
  else if SC.Match2 (C "$") (C "{") c then
    (on_sc (SC.SetState SCE_CMAKE_VARIABLE) (set_varNestedLevel 1 l), false)
  else if SC.Match2 (C "$") (C "<") c then
    (on_sc (SC.SetState CMake.SCE_CMAKE_OPERATOR) (set_generatorExpr 1 l), false)
  else if ((ch c =? C "$") || (ch c =? C "@")) && IsIdentifierStart (chNext c) then
    (on_sc (SC.SetState (if ch c =? C "$" then SCE_CMAKE_VARIABLE_DOLLAR
                         else SCE_CMAKE_VARIABLE_AT)) l, false)
  else if negb (generatorExpr l =? 0) && IsCMakeOperator (ch c) then
    let l1 :=
      if ch c =? C ">" then set_generatorExpr (decr (generatorExpr l)) l else l in
    (on_sc (fun c => SC.ForwardSetState SCE_CMAKE_STRING
                       (SC.SetState CMake.SCE_CMAKE_OPERATOR c)) l1, true)
  else if ch c =? CH_DQUOTE then
    (set_outerStyle CMake.SCE_CMAKE_DEFAULT
       (on_sc (SC.ForwardSetState CMake.SCE_CMAKE_DEFAULT) l), false)
  else (l, false).

(** [case SCE_CMAKE_ESCAPE_SEQUENCE]. *)
Definition escapeCase (l : Lexer) : Lexer * bool :=
  let c := sc l in
  if ch c =? CH_BACKSLASH then
    if IsEOLChar (chNext c) then
      (on_sc (fun c => SC.ForwardSetState (outerStyle l)
                         (SC.SetState SCE_CMAKE_LINE_CONTINUE c)) l, false)
    else (on_sc SC.Forward l, false)
  else
    (on_sc (SC.SetState (outerStyle l)) l,
     negb (outerStyle l =? CMake.SCE_CMAKE_DEFAULT)).

(** [case SCE_CMAKE_VARIABLE]. *)
Definition variableCase (l : Lexer) : Lexer * bool :=
  let c := sc l in
  if ch c =? C "}" then
    let l1 := set_varNestedLevel (decr (varNestedLevel l)) l in
    if varNestedLevel l1 =? 0 then
      (on_sc (SC.ForwardSetState (outerStyle l)) l1,
       negb (outerStyle l =? CMake.SCE_CMAKE_DEFAULT))
    else (l1, false)
  else if SC.Match2 (C "$") (C "{") c then
    (set_varNestedLevel (incr (varNestedLevel l)) l, false)
  else (l, false).

(** [case SCE_CMAKE_VARIABLE_DOLLAR] and [case SCE_CMAKE_VARIABLE_AT]. *)
Definition variableNameCase (l : Lexer) : Lexer * bool :=
  let c := sc l in
  if negb (IsIdentifierChar (ch c)) then
    let '(l1, done) :=
      if state c =? SCE_CMAKE_VARIABLE_AT then
        if ch c =? C "@" then (on_sc SC.Forward l, false) else (l, false)
      else if ch c =? C "{" then
        if StrEqualsAny (SC.GetCurrent 8 c) ["$ENV"; "$CACHE"]%string then
          (set_varNestedLevel 1 (on_sc (SC.SetState SCE_CMAKE_VARIABLE) l), true)
        else (l, false)
      else (l, false) in
    if negb done then
      (on_sc (SC.SetState (outerStyle l)) l1,
       negb (outerStyle l =? CMake.SCE_CMAKE_DEFAULT))
    else (l1, false)
  else (l, false).

(** The [switch (sc.state)] of the loop body; the flag is true on
    [continue]. *)
Definition switchState (kl : LexerWordList) (l : Lexer) : Lexer * bool :=
  let c := sc l in
  let st := state c in
  if st =? CMake.SCE_CMAKE_OPERATOR then
    (on_sc (SC.SetState CMake.SCE_CMAKE_DEFAULT) l, false)
  else if st =? SCE_CMAKE_NUMBER then
    if negb (IsNumberStart (ch c) (chNext c)) then
      let l1 :=
        if IsCMakeChar (ch c) || IsCMakeChar (chBeforeNumber l)
        then on_sc (SC.ChangeState CMake.SCE_CMAKE_DEFAULT) l else l in
      (on_sc (SC.SetState CMake.SCE_CMAKE_DEFAULT) l1, false)
    else (l, false)
  else if st =? SCE_CMAKE_IDENTIFIER then
    if negb (IsIdentifierChar (ch c) || (ch c =? C "-"))
    then (identifierEnd kl l, false) else (l, false)
  else if st =? CMake.SCE_CMAKE_COMMENT then
    if atLineStart c
    then (on_sc (SC.SetState CMake.SCE_CMAKE_DEFAULT) l, false) else (l, false)
  else if st =? CMake.SCE_CMAKE_BLOCK_COMMENT then (bracketClose l, false)
  else if st =? SCE_CMAKE_STRING then stringCase l
  else if st =? SCE_CMAKE_ESCAPE_SEQUENCE then escapeCase l
  else if st =? CMake.SCE_CMAKE_BRACKET_ARGUMENT then (bracketClose l, false)
  else if st =? SCE_CMAKE_VARIABLE then variableCase l
  else if (st =? SCE_CMAKE_VARIABLE_DOLLAR) || (st =? SCE_CMAKE_VARIABLE_AT)
  then variableNameCase l
  else (l, false).

(** Entering a line comment. *)
Definition enterComment (l : Lexer) : Lexer :=
  let l1 := on_sc (SC.SetState CMake.SCE_CMAKE_COMMENT) l in
  if visibleChars l =? 0
  then set_lineComment CMake.SimpleLineStateMaskLineComment l1 else l1.

(** The outer style a variable reference in the default state returns to. *)
Definition outerOfDefault (l : Lexer) : Z :=
  if negb (generatorExpr l =? 0) then outerStyle l else CMake.SCE_CMAKE_DEFAULT.

(** [if (sc.state == SCE_CMAKE_DEFAULT)]; the flag is true on [continue]. *)
Definition defaultState (l : Lexer) : Lexer * bool :=
  let c := sc l in
  if state c =? CMake.SCE_CMAKE_DEFAULT then
    if ch c =? C "#" then
      let '(ok, b) :=
        if chNext c =? C "["
        then IsBracketArgument (styler c) (currentPos c + 1) true (bracketNumber l)
        else (false, bracketNumber l) in
      if ok then
        (on_sc (fun c => SC.ForwardN (int32 (2 + b))
                           (SC.SetState CMake.SCE_CMAKE_BLOCK_COMMENT c))
               (set_bracketNumber b l), false)
      else (enterComment (set_bracketNumber b l), false)
    else if (ch c =? C "[") && ((chNext c =? C "=") || (chNext c =? C "[")) then
      let '(ok, b) :=
        IsBracketArgument (styler c) (currentPos c) true (bracketNumber l) in
      if ok then
        (on_sc (fun c => SC.ForwardN (int32 (2 + b))
                           (SC.SetState CMake.SCE_CMAKE_BRACKET_ARGUMENT c))
               (set_bracketNumber b l), false)
      else (set_bracketNumber b l, false)
    else if SC.Match2 (C "/") (C "/") c then (enterComment l, false)
    else if ch c =? CH_DQUOTE then
      (on_sc (SC.SetState SCE_CMAKE_STRING) (set_outerStyle SCE_CMAKE_STRING l), false)
    else if SC.Match2 (C "$") (C "{") c then
      (on_sc (SC.SetState SCE_CMAKE_VARIABLE)
             (set_outerStyle (outerOfDefault l) (set_varNestedLevel 1 l)), false)
    else if ((ch c =? C "$") || (ch c =? C "@")) && IsIdentifierStart (chNext c) then
      (on_sc (fun c => SC.Forward
                         (SC.SetState (if ch c =? C "$" then SCE_CMAKE_VARIABLE_DOLLAR
                                       else SCE_CMAKE_VARIABLE_AT) c))
             (set_outerStyle (outerOfDefault l) l), false)
    else if ch c =? CH_BACKSLASH then
      (on_sc (fun c => SC.Forward (SC.SetState SCE_CMAKE_ESCAPE_SEQUENCE c)) l, false)
    else if IsIdentifierStart (ch c) then
      (on_sc (SC.SetState SCE_CMAKE_IDENTIFIER) (set_chIdentifierStart (ch c) l), false)
    else if IsADigit (ch c) || ((ch c =? C "-") && IsADigit (chNext c)) then
      (set_chBeforeNumber (chPrev c) (on_sc (SC.SetState SCE_CMAKE_NUMBER) l), false)
    else if IsCMakeOperator (ch c) then
      let l1 := on_sc (SC.SetState CMake.SCE_CMAKE_OPERATOR) l in
      if negb (generatorExpr l =? 0) then
        if SC.Match2 (C "$") (C "<") c then
          (set_generatorExpr (incr (generatorExpr l)) l1, false)
        else if ch c =? C ">" then
          let g := decr (generatorExpr l) in
          (on_sc (SC.ForwardSetState
                    (if negb (g =? 0) then CMake.SCE_CMAKE_DEFAULT else outerStyle l))
                 (set_generatorExpr g l1), true)
        else (l1, false)
      else (l1, false)
    else (l, false)
  else (l, false).

(** The end of the loop body: the visible characters, the line state at
    the end of a line, and [sc.Forward()]. *)
Definition lineEnd (l : Lexer) : Lexer :=
  let l1 :=
    if (visibleChars l =? 0) && negb (isspacechar (ch (sc l)))
    then set_visibleChars (incr (visibleChars l)) l else l in
  let l2 :=
    if atLineEnd (sc l1) then
      set_visibleChars 0
        (set_lineComment 0
           (on_sc (fun c =>
                     SC.with_styler
                       (SetLineState (styler c) (currentLine c)
                          (CMake.lineStateWord (bracketNumber l1) (outerStyle l1)
                             (lineStateLineComment l1)))
                       c)
                  l1))
    else l1 in
  on_sc SC.Forward l2.

(** One turn of [while (sc.More())]. *)
Definition iteration (kl : LexerWordList) (l : Lexer) : Lexer :=
  let '(l1, cont) := switchState kl l in
  if cont then l1
  else
    let '(l2, cont2) := defaultState l1 in
    if cont2 then l2 else lineEnd l2.

Fixpoint loop (fuel : nat) (kl : LexerWordList) (l : Lexer) : option Lexer :=
  if SC.More (sc l) then
    match fuel with
    | O => None
    | S fuel' => loop fuel' kl (iteration kl l)
    end
  else Some l.

(** The cursor and the locals when the loop starts: the outer style and the
    bracket number are those of the line state of the previous line. *)
Definition start (startPos lengthDoc initStyle : Z) (a : Accessor) : Lexer :=
  let c := SC.make startPos lengthDoc initStyle a in
  if currentLine c >? 0 then
    let lineState := GetLineState (styler c) (currentLine c - 1) in
    let outer := CMake.outerStyleOf lineState in
    let c1 :=
      if negb (outer =? CMake.SCE_CMAKE_DEFAULT) then SC.SetState outer c else c in
    mkLexer c1 0 outer 0 0 (CMake.bracketNumberOf lineState)
            CMake.SCE_CMAKE_DEFAULT 0 0 0
  else mkLexer c 0 CMake.SCE_CMAKE_DEFAULT 0 0 0 CMake.SCE_CMAKE_DEFAULT 0 0 0.

(** Turns of the loop that are enough for a range of [lengthDoc]
    characters. *)
Definition enough (lengthDoc : Z) : nat := Z.to_nat (2 * lengthDoc + 2).

(** [ColouriseCMakeDoc(startPos, lengthDoc, initStyle, keywordLists,
    styler)]: the accessor after the pass. *)
Definition ColouriseCMakeDoc (startPos lengthDoc initStyle : Z)
    (kl : LexerWordList) (a : Accessor) : option Accessor :=
  match loop (enough lengthDoc) kl (start startPos lengthDoc initStyle a) with
  | Some l => Some (styler (SC.Complete (sc l)))
  | None => None
  end.

End Colourise.

End CMakeLexer.

(** ** The F# lexer (src/scintilla/lexers/LexFSharp.cxx): format specifiers
       and string kinds *)

Module FSharpFormat.

(** Modelled from the spec: CharacterSet.h is not under src/. *)
Definition IsASpaceOrTab (ch : Z) : bool := (ch =? 32) || (ch =? CH_TAB).

Definition IsPercentFormatSpecifier (ch : Z) : bool :=
  existsb (Z.eqb ch) (bytes "aAbBcdeEfFgGiMoOPstuxX").

(** [styler[pos]], where [l] is the text from offset [pos] on: the
    character at the end of the document is NUL. *)
Definition here (l : list Z) : Z :=
  match l with
  | c :: _ => c
  | [] => 0
  end.

(** [while (p(ch)) ch = styler[++pos];], on the text [l] from [pos] on. *)
Fixpoint skipWhile (p : Z -> bool) (l : list Z) (pos : Z) : list Z * Z :=
  match l with
  | c :: rest => if p c then skipWhile p rest (pos + 1) else (l, pos)
  | [] => ([], pos)
  end.

(** [ch = styler[++pos];]. *)
Definition next (s : list Z * Z) : list Z * Z := (tl s.1, s.2 + 1).

(** The width or the precision: a star, or digits. *)
Definition skipNumber (s : list Z * Z) : list Z * Z :=
  if here s.1 =? C "*" then next s else skipWhile IsADigit s.1 s.2.

Definition isFlag (ch : Z) : bool :=
  (ch =? C "-") || (ch =? C "+") || (ch =? 32) || (ch =? C "0").

(** [CheckPercentFormatSpecifier(sc, styler, insideUrl)]: the length of the
    format specifier that starts at the percent sign under the cursor, or
    0. *)
Definition CheckPercentFormatSpecifier (sc : StyleContext) (insideUrl : bool) : Z :=
  if chNext sc =? C "%" then 2
  else if insideUrl && IsHexDigit (chNext sc) then 0
  else if IsASpaceOrTab (chNext sc) && IsADigit (chPrev sc) then 0
  else
    let pos := currentPos sc + 1 in
    let s0 := (skipn (Z.to_nat pos) (buf (styler sc)), pos) in
    let s1 := skipWhile isFlag s0.1 s0.2 in
    let s2 := skipNumber s1 in
    let s3 := if here s2.1 =? C "." then skipNumber (next s2) else s2 in
    if IsPercentFormatSpecifier (here s3.1) then s3.2 + 1 - currentPos sc
    else 0.

End FSharpFormat.

(** ** Invariants, measures and example inputs *)

(** The cursor invariant: the token in progress starts at or before the
    cursor, the cursor stays inside the range that ends at [hi], and the
    committed runs tile the offsets from [lo] to the start of the token in
    progress.  [p0] is a lower bound of the cursor. *)
Definition scInv (lo hi p0 : Z) (sc : StyleContext) : Prop :=
  startSeg (styler sc) <= currentPos sc
  /\ currentPos sc <= endPos sc
  /\ endPos sc <= lengthDocument sc
  /\ p0 <= currentPos sc
  /\ endPos sc = hi
  /\ covers lo (startSeg (styler sc)) (segments (styler sc)).

Create HintDb scinv.

Definition asyInv (lo hi p0 : Z) (l : Asy.Lexer) : Prop :=
  scInv lo hi p0 (Asy.sc l)
  /\ Asy.outerState (Asy.escSeq l) <> Asy.SCE_ASY_ESCAPECHAR.

(** The measure of the loop: twice the characters left, and one more while
    an escape sequence is open. *)
Definition asyMeasure (l : Asy.Lexer) : Z :=
  2 * (endPos (Asy.sc l) - currentPos (Asy.sc l))
  + (if state (Asy.sc l) =? Asy.SCE_ASY_ESCAPECHAR then 1 else 0).

(** The document [a], a line feed, [b(]. *)
Definition asyTwoLines : list Z := bytes "a" ++ [CH_LF] ++ bytes "b(".

(** The Asymptote lexer in front of the parenthesis of [a f(]. *)
Definition asyAtCall : Asy.Lexer :=
  Asy.steps 3 [] (Asy.start 0 4 Asy.SCE_ASY_DEFAULT (openDocument (bytes "a f("))).

(** The keyword list that holds [new] and [if]. *)
Definition asyKeywords : LexerWordList := [[bytes "new"; bytes "if"]].

(** The Asymptote lexer in front of the parenthesis of [new Foo(]. *)
Definition asyAtNew : Asy.Lexer :=
  Asy.steps 7 asyKeywords
    (Asy.start 0 8 Asy.SCE_ASY_DEFAULT (openDocument (bytes "new Foo("))).

(** The Dart lexer at the end of the identifier [foo], the parenthesis
    being on the next line. *)
Definition dartAtLineEnd : Dart.Lexer :=
  Dart.mkLexer
    (SC.ChangeState Dart.SCE_DART_IDENTIFIER
       (SC.ForwardN 3
          (SC.make 0 5 Dart.SCE_DART_DEFAULT
             (openDocument (bytes "foo" ++ [CH_LF] ++ bytes "(")))))
    0 0 Dart.KeywordType_None 0 [] 3 0 0 0 Dart.escInit.

(** A jump-label test that accepts no character. *)
Definition noJumpLabel (c : Z) : bool := false.


(** Helpers for a lexer whose strings hold no interpolation. *)
Definition noPack (nested : list Z) : Z := 0.
Definition noUnpack (lineState : Z) : list Z := [].

(** A look-back that finds no character. *)
Definition noLookback (a : Accessor) (startPos maxSpaceStyle chPrevNonWhite : Z) : Z :=
  chPrevNonWhite.

(** A task-marker helper that finds no marker. *)
Definition noTaskMarker (sc : StyleContext) (v vb m : Z) : StyleContext * Z * bool :=
  (sc, v, false).

(** The Dart lexer at the second opening of the nested comment
    [/* /* */ */], at depth 1. *)
Definition dartInComment : Dart.Lexer :=
  Dart.mkLexer
    (SC.ChangeState Dart.SCE_DART_COMMENTBLOCK
       (SC.ForwardN 3
          (SC.make 0 11 Dart.SCE_DART_DEFAULT (openDocument (bytes "/* /* */ */")))))
    0 1 Dart.KeywordType_None 0 [] 2 0 0 0 Dart.escInit.

(** The Dart lexer on the line feed that ends the first line of a document,
    inside a block comment of depth 64. *)
Definition dartDeep : Dart.Lexer :=
  Dart.mkLexer
    (SC.ChangeState Dart.SCE_DART_COMMENTBLOCK
       (SC.ForwardN 1
          (SC.make 0 3 Dart.SCE_DART_COMMENTBLOCK
             (openDocument (bytes "x" ++ [CH_LF] ++ bytes "y")))))
    0 64 Dart.KeywordType_None 0 [] 1 0 0 0 Dart.escInit.

(** The F# lexer on the same line feed, inside a comment of depth 16. *)
Definition fsharpDeep : FSharp.Lexer :=
  FSharp.mkLexer
    (SC.ChangeState FSharp.SCE_FSHARP_COMMENT
       (SC.ForwardN 1
          (SC.make 0 3 FSharp.SCE_FSHARP_COMMENT
             (openDocument (bytes "x" ++ [CH_LF] ++ bytes "y")))))
    16 1 0 0 0 FSharp.escInit true.












(** The cursor reads the text: inside the range its characters, its line
    and its line-end flag are those of its offset. *)
Definition lineInv (text : list Z) (sc : StyleContext) : Prop :=
  buf (styler sc) = text
  /\ lengthDocument sc = Z.of_nat (List.length text)
  /\ lineDocEnd sc = GetLine (openDocument text) (Z.of_nat (List.length text))
  /\ 0 <= currentPos sc
  /\ (currentPos sc < endPos sc ->
      ch sc = charAt text (currentPos sc)
      /\ chNext sc = charAt text (currentPos sc + 1)
      /\ currentLine sc = GetLine (openDocument text) (currentPos sc)
      /\ lineStartNext sc = LineStart (openDocument text) (currentLine sc + 1)
      /\ atLineEnd sc
         = SC.lineEndAt (lineDocEnd sc) (currentLine sc) (lineStartNext sc)
                        (currentPos sc)).

(** No run of the string style holds the last character of a line. *)
Definition runsWithinLines (text : list Z) (segs : list StyleRun) : Prop :=
  forall s e, In (s, e, VHDL.SCE_VHDL_STRING) segs ->
              forall p, s <= p <= e -> isLineEnd text p = false.

(** The invariant of the VHDL loop. *)
Definition vhdlInv (text : list Z) (lo hi p0 : Z) (sc : StyleContext) : Prop :=
  scInv lo hi p0 sc
  /\ lineInv text sc
  /\ (state sc = VHDL.SCE_VHDL_STRING ->
      forall p, startSeg (styler sc) <= p < currentPos sc -> isLineEnd text p = false)
  /\ runsWithinLines text (segments (styler sc)).

(** In a string, the cursor is not on the last character of a line. *)
Definition notOnLineEnd (text : list Z) (sc : StyleContext) : Prop :=
  state sc = VHDL.SCE_VHDL_STRING ->
  currentPos sc < endPos sc -> isLineEnd text (currentPos sc) = false.


(** The cursor [sc] in a range that ends at [e]. *)
Definition withEnd (e : Z) (sc : StyleContext) : StyleContext :=
  mkSC (styler sc) e (lengthDocument sc) (lineDocEnd sc) (currentPos sc)
       (currentLine sc) (lineStartNext sc) (atLineStart sc) (atLineEnd sc)
       (state sc) (chPrev sc) (ch sc) (chNext sc).

(** The invariant of the one-pass run: past the start of the range the
    cursor remembers the character before it, the token in progress is not
    empty, and no identifier is in progress right after an end of line. *)
Definition psInv (text : list Z) (lo hi : Z) (sc : StyleContext) : Prop :=
  scInv lo hi lo sc
  /\ lineInv text sc
  /\ hi <= Z.of_nat (List.length text)
  /\ (lo < currentPos sc < hi ->
      atLineStart sc = isLineEnd text (currentPos sc - 1)
      /\ chPrev sc = charAt text (currentPos sc - 1)
      /\ startSeg (styler sc) < currentPos sc
      /\ (IsEOLChar (chPrev sc) = true ->
          state sc <> PowerShell.SCE_POWERSHELL_IDENTIFIER)).

(** The style an offset gets when the token in progress is committed as it
    is. *)
Definition styleFn (sc : StyleContext) (pos : Z) : Z :=
  if startSeg (styler sc) <=? pos then state sc else StyleAt (styler sc) pos.

(** Two cursors over the same text at the same offset and in the same
    state, whose runs give every offset the same style. *)
Definition psSim (a b : StyleContext) : Prop :=
  buf (styler a) = buf (styler b)
  /\ endPos a = endPos b
  /\ lengthDocument a = lengthDocument b
  /\ lineDocEnd a = lineDocEnd b
  /\ currentPos a = currentPos b
  /\ currentLine a = currentLine b
  /\ lineStartNext a = lineStartNext b
  /\ atLineStart a = atLineStart b
  /\ atLineEnd a = atLineEnd b
  /\ state a = state b
  /\ ch a = ch b
  /\ chNext a = chNext b
  /\ (chPrev a =? C "#") = (chPrev b =? C "#")
  /\ (forall pos, styleFn a pos = styleFn b pos)
  /\ (state a = PowerShell.SCE_POWERSHELL_IDENTIFIER ->
      startSeg (styler a) = startSeg (styler b))
  /\ startSeg (styler a) <= currentPos a
  /\ startSeg (styler b) <= currentPos b
  /\ currentPos a <= endPos a
  /\ endPos a <= lengthDocument a.

(** The accessor over the text in lower case. *)
Definition lowerA (a : Accessor) : Accessor :=
  mkAccessor (map MakeLowerCase (buf a)) (startSeg a) (segments a)
             (lineStates a) (levels a).

(** The cursor over the text in lower case. *)
Definition lowerSC (sc : StyleContext) : StyleContext :=
  mkSC (lowerA (styler sc)) (endPos sc) (lengthDocument sc) (lineDocEnd sc)
       (currentPos sc) (currentLine sc) (lineStartNext sc) (atLineStart sc)
       (atLineEnd sc) (state sc) (MakeLowerCase (chPrev sc))
       (MakeLowerCase (ch sc)) (MakeLowerCase (chNext sc)).

(** The styles for which [ColouriseVHDLDoc] has a case. *)
Definition vhdlHandled (s : Z) : bool :=
  (s =? VHDL.SCE_VHDL_DEFAULT) || (s =? VHDL.SCE_VHDL_OPERATOR)
  || (s =? VHDL.SCE_VHDL_NUMBER) || (s =? VHDL.SCE_VHDL_IDENTIFIER)
  || (s =? VHDL.SCE_VHDL_COMMENT) || (s =? VHDL.SCE_VHDL_COMMENTLINEBANG)
  || (s =? VHDL.SCE_VHDL_STRING) || (s =? VHDL.SCE_VHDL_BLOCK_COMMENT).

(** At offset [pos] there is a bracket, then [n] equal signs, then the
    character [c]. *)
Definition bracketAt (a : Accessor) (pos c n : Z) : Prop :=
  (forall i, 0 <= i < n -> SafeGetCharAt a (pos + 1 + i) = C "=")
  /\ SafeGetCharAt a (pos + 1 + n) = c.

(** The folder reads the document: its next character, next style and
    line are those of its offset. *)
Definition psFoldInv (a : Accessor) (f : PowerShell.Folder) : Prop :=
  buf (PowerShell.fstyler f) = buf a
  /\ segments (PowerShell.fstyler f) = segments a
  /\ 0 <= PowerShell.fpos f
  /\ PowerShell.fchNext f = SafeGetCharAt a (PowerShell.fpos f)
  /\ PowerShell.styleNext f = StyleAt a (PowerShell.fpos f)
  /\ PowerShell.lineCurrent f = GetLine a (PowerShell.fpos f).

(** A block over two lines, styled by the PowerShell colouriser. *)
Definition psBlock : Accessor :=
  match PowerShell.ColourisePowerShellDoc 0 3 0 []
          (openDocument (bytes "{" ++ [CH_LF] ++ bytes "}")) with
  | Some a => a
  | None => openDocument []
  end.

(** The invariant of the loop: the cursor invariant, and the outer style
    is the default one or the string. *)
Definition cmInv (lo hi p0 : Z) (l : CMakeLexer.Lexer) : Prop :=
  scInv lo hi p0 (CMakeLexer.sc l)
  /\ (CMakeLexer.outerStyle l = CMake.SCE_CMAKE_DEFAULT
      \/ CMakeLexer.outerStyle l = CMakeLexer.SCE_CMAKE_STRING).

(** The states a turn of the loop can leave without moving the cursor. *)
Definition cmPending (st : Z) : bool :=
  (st =? CMakeLexer.SCE_CMAKE_ESCAPE_SEQUENCE)
  || (st =? CMakeLexer.SCE_CMAKE_VARIABLE_DOLLAR)
  || (st =? CMakeLexer.SCE_CMAKE_VARIABLE_AT).

(** What a part of the loop body that may [continue] guarantees. *)
Definition cmPost (lo hi : Z) (l : CMakeLexer.Lexer) (r : CMakeLexer.Lexer * bool)
  : Prop :=
  cmInv lo hi (currentPos (CMakeLexer.sc l)) r.1
  /\ (r.2 = true ->
      currentPos (CMakeLexer.sc l) < currentPos (CMakeLexer.sc r.1)
      \/ (cmPending (state (CMakeLexer.sc l)) = true
          /\ cmPending (state (CMakeLexer.sc r.1)) = false)).

(** The measure of the loop: twice the characters left, and one more in a
    state that a turn can leave without moving. *)
Definition cmMeasure (l : CMakeLexer.Lexer) : Z :=
  2 * (endPos (CMakeLexer.sc l) - currentPos (CMakeLexer.sc l))
  + (if cmPending (state (CMakeLexer.sc l)) then 1 else 0).

(** The scanner of [CheckPercentFormatSpecifier] is at offset [s.2] of the
    text, inside the document or at its end. *)
Definition scanAt (text : list Z) (s : list Z * Z) : Prop :=
  0 <= s.2 <= Z.of_nat (List.length text)
  /\ s.1 = skipn (Z.to_nat s.2) text.

(** The cursor on the percent sign of a format specifier with a flag, a
    width and a precision. *)
Definition fsharpAtPercent : StyleContext :=
  SC.make 1 6 FSharp.SCE_FSHARP_STRING (openDocument (bytes "a%-5.2f"))%string.

(** The lexer right after the backslash and the [x] of a hexadecimal
    escape sequence in a string in single quotes. *)
Definition asyInEscape : Asy.Lexer :=
  Asy.steps 2 [] (Asy.start 0 7 Asy.SCE_ASY_DEFAULT (openDocument (bytes "'\x41g'"))).

(** * Theorems *)

(** Case analysis on the tests of a lexer function. *)
Ltac break_tests :=
  repeat match goal with
    | |- context [if ?b then _ else _] => destruct b eqn:?
    | |- context [let (_, _) := ?x in _] => destruct x eqn:?
    end.

(** * Integer arithmetic *)

Lemma int32_small (x : Z) : INT_MIN <= x <= INT_MAX -> int32 x = x.
Proof.
  unfold int32, INT_MIN, INT_MAX. intros H.
  rewrite Z.mod_small; lia.
Qed.

Lemma int32_range (x : Z) : INT_MIN <= int32 x <= INT_MAX.
Proof.
  unfold int32, INT_MIN, INT_MAX.
  pose proof (Z.mod_pos_bound (x + 2 ^ 31) (2 ^ 32)). lia.
Qed.


Lemma decr_small (x : Z) : INT_MIN < x <= INT_MAX -> decr x = x - 1.
Proof. intros H. apply int32_small. lia. Qed.

Lemma incr_small (x : Z) : INT_MIN <= x < INT_MAX -> incr x = x + 1.
Proof. intros H. apply int32_small. lia. Qed.

Lemma shl_small (x n : Z) :
  0 <= n -> 0 <= x -> x * 2 ^ n <= INT_MAX -> shl x n = x * 2 ^ n.
Proof.
  intros Hn Hx H. unfold shl. rewrite Z.shiftl_mul_pow2 by lia.
  apply int32_small. unfold INT_MIN. lia.
Qed.

(** Bits below [n] and bits from [n] on do not meet. *)
Lemma land_high_low (x y n : Z) :
  0 <= n -> 0 <= y < 2 ^ n -> Z.land (x * 2 ^ n) y = 0.
Proof.
  intros Hn Hy. apply Z.bits_inj'. intros i Hi.
  rewrite Z.land_spec, Z.bits_0.
  destruct (Z.ltb_spec i n).
  - rewrite Z.mul_pow2_bits_low by lia. reflexivity.
  - destruct (Z.eq_dec y 0) as [->|Hy0].
    + rewrite Z.bits_0. apply andb_false_r.
    + rewrite (Z.bits_above_log2 y i); [apply andb_false_r | lia |].
      apply Z.log2_lt_pow2; [lia|].
      apply Z.lt_le_trans with (2 ^ n); [lia|].
      apply Z.pow_le_mono_r; lia.
Qed.

Lemma lor_high_low (x y n : Z) :
  0 <= n -> 0 <= y < 2 ^ n -> Z.lor (x * 2 ^ n) y = x * 2 ^ n + y.
Proof.
  intros Hn Hy.
  rewrite <- Z.lxor_lor by (apply land_high_low; lia).
  symmetry. apply Z.add_nocarry_lxor. apply land_high_low; lia.
Qed.

Lemma field_of_word (hi x lo n w : Z) :
  0 <= n -> 0 <= w -> 0 <= lo < 2 ^ n -> 0 <= x < 2 ^ w ->
  Z.land (Z.shiftr ((hi * 2 ^ w + x) * 2 ^ n + lo) n) (Z.ones w) = x.
Proof.
  intros Hn Hw Hlo Hx.
  rewrite Z.shiftr_div_pow2 by lia.
  rewrite Z.land_ones by lia.
  assert (H2n : 0 < 2 ^ n) by (apply Z.pow_pos_nonneg; lia).
  assert (H2w : 0 < 2 ^ w) by (apply Z.pow_pos_nonneg; lia).
  replace (((hi * 2 ^ w + x) * 2 ^ n + lo) / 2 ^ n) with (hi * 2 ^ w + x).
  - rewrite Z.add_comm, Z.mod_add by lia. apply Z.mod_small; lia.
  - apply Z.div_unique with lo; [lia | ring].
Qed.

(** * Line state words *)

Lemma cmake_word_value (b o lc : Z) :
  0 <= lc <= 1 -> 0 <= o <= 127 -> 0 <= b <= 255 ->
  CMake.lineStateWord b o lc = ((0 * 2 ^ 8 + b) * 2 ^ 8 + (o * 2 + lc)).
Proof.
  intros Hlc Ho Hb. unfold CMake.lineStateWord.
  rewrite (shl_small b 8), (shl_small o 1) by (unfold INT_MAX; lia).
  rewrite (lor_high_low b (o * 2 ^ 1) 8) by lia.
  replace (b * 2 ^ 8 + o * 2 ^ 1) with ((b * 2 ^ 7 + o) * 2 ^ 1) by lia.
  rewrite lor_high_low by lia. lia.
Qed.

Lemma dart_word_value
    (pack : list Z -> Z) (cl lt : Z) (nested : list Z) :
  0 <= cl <= 63 -> 0 <= lt <= 3 -> 0 <= pack nested < 2 ^ 23 ->
  exists p, 0 <= p /\
    Dart.lineStateWord pack cl lt nested = (p * 2 ^ 6 + cl) * 2 ^ 2 + lt.
Proof.
  intros Hcl Hlt Hp. unfold Dart.lineStateWord.
  rewrite (shl_small cl 2) by (unfold INT_MAX; lia).
  rewrite (lor_high_low cl lt 2) by lia.
  destruct nested as [|n ns].
  - exists 0. lia.
  - exists (pack (n :: ns)). split; [lia|].
    rewrite shl_small by (unfold INT_MAX; lia).
    rewrite Z.lor_comm, lor_high_low by lia. lia.
Qed.

Lemma fsharp_flags_range (l : FSharp.Lexer) (flags : Z) :
  0 <= FSharp.lineState l < 256 ->
  flags =
    (if negb (FSharp.nestedEmpty l)
     then Z.lor FSharp.PyLineStateStringInterpolation FSharp.PyLineStateMaskTripleQuote
     else if FSharp.IsMultilineStyle (state (FSharp.sc l))
          then FSharp.PyLineStateMaskTripleQuote
          else if (FSharp.lineState l =? 0) && (FSharp.visibleChars l =? 0)
               then FSharp.PyLineStateMaskEmptyLine
               else FSharp.lineState l) ->
  0 <= flags < 256.
Proof.
  intros H ->.
  destruct (negb _); [vm_compute; split; congruence|].
  destruct (FSharp.IsMultilineStyle _); [vm_compute; split; congruence|].
  destruct (_ && _); [vm_compute; split; congruence|]. exact H.
Qed.

Lemma fsharp_word_value (l : FSharp.Lexer) :
  0 <= FSharp.lineState l < 256 ->
  0 <= FSharp.commentLevel l <= 15 ->
  0 <= FSharp.stringInterpolatorCount l <= 15 ->
  0 <= FSharp.indentCount l < 2 ^ 15 ->
  exists lo, 0 <= lo < 2 ^ 12 /\
    FSharp.lineStateWord l =
    (FSharp.indentCount l * 2 ^ 4 + FSharp.commentLevel l) * 2 ^ 12 + lo.
Proof.
  intros Hf Hc Hs Hi. unfold FSharp.lineStateWord.
  match goal with |- context [Z.lor ?f _] =>
    pose proof (fsharp_flags_range l f Hf eq_refl) as Hfl; set (flags := f) in * end.
  rewrite !shl_small by (unfold INT_MAX; lia).
  exists (FSharp.stringInterpolatorCount l * 2 ^ 8 + flags). split; [lia|].
  rewrite (lor_high_low (FSharp.indentCount l) (FSharp.commentLevel l * 2 ^ 12) 16) by lia.
  replace (FSharp.indentCount l * 2 ^ 16 + FSharp.commentLevel l * 2 ^ 12)
    with ((FSharp.indentCount l * 2 ^ 4 + FSharp.commentLevel l) * 2 ^ 12) by lia.
  rewrite (lor_high_low _ (FSharp.stringInterpolatorCount l * 2 ^ 8) 12) by lia.
  replace ((FSharp.indentCount l * 2 ^ 4 + FSharp.commentLevel l) * 2 ^ 12
           + FSharp.stringInterpolatorCount l * 2 ^ 8)
    with (((FSharp.indentCount l * 2 ^ 4 + FSharp.commentLevel l) * 2 ^ 4
           + FSharp.stringInterpolatorCount l) * 2 ^ 8) by lia.
  rewrite Z.lor_comm, lor_high_low by lia. lia.
Qed.

(** Claim C9.  The CMake line-state word is
    [(bracketNumber << 8) | (outerStyle << 1) | lineComment]; for a
    line-comment flag in {0,1}, an outer style in [0,127] and a bracket number
    in [0,255], reading the word back with [(w >> 1) & 0x7f] and
    [(w >> 8) & 0xff] (and the flag with [w & 1]) gives the packed values. *)
Theorem cmake_line_state_roundtrip (lineComment outerStyle bracketNumber : Z)
    (Hlc : 0 <= lineComment <= 1)
    (Hos : 0 <= outerStyle <= 127)
    (Hbn : 0 <= bracketNumber <= 255) :
  let w := CMake.lineStateWord bracketNumber outerStyle lineComment in
  CMake.outerStyleOf w = outerStyle
  /\ CMake.bracketNumberOf w = bracketNumber
  /\ CMake.GetLineCommentState w = lineComment.
Proof.
  cbv zeta. rewrite cmake_word_value by assumption.
  unfold CMake.outerStyleOf, CMake.bracketNumberOf, CMake.GetLineCommentState, shr.
  repeat split.
  - replace ((0 * 2 ^ 8 + bracketNumber) * 2 ^ 8 + (outerStyle * 2 + lineComment))
      with ((bracketNumber * 2 ^ 7 + outerStyle) * 2 ^ 1 + lineComment) by lia.
    change 127 with (Z.ones 7). apply field_of_word; lia.
  - change 255 with (Z.ones 8). apply field_of_word; lia.
  - change CMake.SimpleLineStateMaskLineComment with (Z.ones 1).
    rewrite Z.land_ones by lia.
    replace ((0 * 2 ^ 8 + bracketNumber) * 2 ^ 8 + (outerStyle * 2 + lineComment))
      with (lineComment + (bracketNumber * 128 + outerStyle) * 2 ^ 1) by lia.
    rewrite Z.mod_add by lia. apply Z.mod_small. lia.
Qed.

Lemma cmake_line_state_roundtrip_witness :
  CMake.outerStyleOf (CMake.lineStateWord 2 3 1) = 3
  /\ CMake.bracketNumberOf (CMake.lineStateWord 2 3 1) = 2
  /\ CMake.GetLineCommentState (CMake.lineStateWord 2 3 1) = 1.
Proof. apply (cmake_line_state_roundtrip 1 3 2); lia. Defined.

(** * The host's line state store *)

Lemma GetLineState_SetLineState (a : Accessor) (line v : Z) :
  GetLineState (SetLineState a line v) line = v.
Proof. unfold GetLineState, SetLineState; cbn. by rewrite lookup_insert_eq. Qed.

Lemma GetLineState_SetLineState_ne (a : Accessor) (line line' v : Z) :
  line <> line' ->
  GetLineState (SetLineState a line v) line' = GetLineState a line'.
Proof.
  intros H. unfold GetLineState, SetLineState; cbn. by rewrite lookup_insert_ne.
Qed.

Lemma Forward_state (sc : StyleContext) : state (SC.Forward sc) = state sc.
Proof. unfold SC.Forward. destruct (currentPos sc <? endPos sc); reflexivity. Qed.

(** * Escape sequences *)

(** Claim C4.  For every character and every escape-sequence record,
    [atEscapeEnd] first decrements the number of digits left (leaving the
    other fields alone) and then reports the end exactly when the decremented
    count is zero or less, or the character is not a digit of the record's
    base: a digit of [numBase] in the Asymptote lexer, a decimal or
    hexadecimal digit in the F# lexer, a hexadecimal digit in the Dart
    lexer. *)
Theorem atEscapeEnd_decrements_then_tests (c : Z) :
  (forall esc : Asy.EscapeSequence,
      let r := Asy.atEscapeEnd esc c in
      Asy.digitsLeft r.1 = decr (Asy.digitsLeft esc)
      /\ Asy.outerState r.1 = Asy.outerState esc
      /\ Asy.numBase r.1 = Asy.numBase esc
      /\ (r.2 = true <->
          Asy.digitsLeft r.1 <= 0 \/ IsADigitBase c (Asy.numBase esc) = false))
  /\ (forall esc : FSharp.EscapeSequence,
      let r := FSharp.atEscapeEnd esc c in
      FSharp.digitsLeft r.1 = decr (FSharp.digitsLeft esc)
      /\ FSharp.outerState r.1 = FSharp.outerState esc
      /\ FSharp.hex r.1 = FSharp.hex esc
      /\ (r.2 = true <->
          FSharp.digitsLeft r.1 <= 0 \/ IsDecimalOrHex c (FSharp.hex esc) = false))
  /\ (forall esc : Dart.EscapeSequence,
      let r := Dart.atEscapeEnd esc c in
      Dart.digitsLeft r.1 = decr (Dart.digitsLeft esc)
      /\ Dart.outerState r.1 = Dart.outerState esc
      /\ Dart.brace r.1 = Dart.brace esc
      /\ (r.2 = true <-> Dart.digitsLeft r.1 <= 0 \/ IsHexDigit c = false)).
Proof.
  repeat split; cbn in *;
    rewrite ?orb_true_iff, ?negb_true_iff, ?Z.leb_le in *; tauto.
Qed.

(** After the character that follows the backslash, an escape sequence takes
    digits of its base only, and at most [digitsLeft - 1] of them. *)
Lemma asy_escape_tail_length (cs : list Z) :
  forall esc : Asy.EscapeSequence,
    1 <= Asy.digitsLeft esc <= INT_MAX ->
    Asy.escapeTail esc cs
    = Nat.min (Z.to_nat (Asy.digitsLeft esc - 1)) (Asy.digitRun (Asy.numBase esc) cs).
Proof.
  induction cs as [|c rest IH]; intros esc Hd; cbn [Asy.escapeTail Asy.digitRun].
  - rewrite Nat.min_0_r. reflexivity.
  - unfold Asy.atEscapeEnd. cbv zeta.
    rewrite decr_small by (unfold INT_MIN; lia).
    destruct (Z.leb_spec (Asy.digitsLeft esc - 1) 0) as [Hle|Hgt]; cbn [orb].
    + replace (Z.to_nat (Asy.digitsLeft esc - 1)) with O by lia. reflexivity.
    + destruct (IsADigitBase c (Asy.numBase esc)); cbn [negb].
      * rewrite IH by (cbn; lia). cbn [Asy.digitsLeft Asy.numBase].
        replace (Z.to_nat (Asy.digitsLeft esc - 1))
          with (S (Z.to_nat (Asy.digitsLeft esc - 1 - 1))) by lia.
        reflexivity.
      * rewrite Nat.min_0_r. reflexivity.
Qed.

(** Claim C5.  For every outer state [st] and every character [c] after a
    backslash, [resetEscapeState] returns false exactly when [c] is an
    end-of-line character, and then leaves the record as it was; otherwise it
    records the outer state and the digit count and returns true (Asymptote
    and Dart records).  The lexers enter the escape-character state exactly in
    the second case: the Asymptote single-quote string, the Dart strings, and
    the F# strings that are not verbatim stay as they are when the backslash
    is followed by an end of line, and otherwise move to the escape state
    with the string state remembered as outer state. *)
Theorem resetEscapeState_false_iff_eol (st c : Z) :
  (forall esc : Asy.EscapeSequence,
      let r := Asy.resetEscapeState esc st c in
      (r.2 = false <-> IsEOLChar c = true)
      /\ (if r.2
          then Asy.outerState r.1 = st
               /\ Asy.digitsLeft r.1 =
                  (if IsOctalDigit c || (c =? C "x") || (c =? C "X") then 3 else 1)
          else r.1 = esc))
  /\ (forall esc : Dart.EscapeSequence,
      let r := Dart.resetEscapeState esc st c in
      (r.2 = false <-> IsEOLChar c = true)
      /\ (if r.2
          then Dart.outerState r.1 = st
               /\ Dart.digitsLeft r.1 =
                  (if c =? C "x" then 3 else if c =? C "u" then 5 else 1)
          else r.1 = esc))
  /\ (forall (kl : LexerWordList) (l : Asy.Lexer),
      let l' := (Asy.switchState kl l).1 in
      if (state (Asy.sc l) =? Asy.SCE_ASY_STRING_SQ)
         && (ch (Asy.sc l) =? CH_BACKSLASH) && (chNext (Asy.sc l) =? c)
      then
        if IsEOLChar c
        then l' = l
        else state (Asy.sc l') = Asy.SCE_ASY_ESCAPECHAR
             /\ Asy.outerState (Asy.escSeq l') = Asy.SCE_ASY_STRING_SQ
      else True)
  /\ (forall l : Dart.Lexer,
      let l' := Dart.stringBackslash l in
      if chNext (Dart.sc l) =? c
      then
        if IsEOLChar c
        then l' = l
        else state (Dart.sc l') = Dart.SCE_DART_ESCAPECHAR
             /\ Dart.outerState (Dart.escSeq l') = state (Dart.sc l)
      else True)
  /\ (forall l : FSharp.Lexer,
      let l' := FSharp.stringBackslash l in
      if (state (FSharp.sc l) <? FSharp.SCE_FSHARP_VERBATIM_STRING)
         && (chNext (FSharp.sc l) =? c)
      then
        if IsEOLChar c
        then l' = l
        else state (FSharp.sc l') = FSharp.SCE_FSHARP_ESCAPECHAR
             /\ FSharp.outerState (FSharp.escSeq l') = state (FSharp.sc l)
      else True).
Proof.
  split; [|split; [|split; [|split]]].
  - intros esc. unfold Asy.resetEscapeState. cbv zeta.
    destruct (IsEOLChar c); cbn.
    + intuition congruence.
    + destruct (IsOctalDigit c); cbn; [intuition congruence|].
      destruct ((c =? C "x") || (c =? C "X")); cbn; intuition congruence.
  - intros esc. unfold Dart.resetEscapeState. cbv zeta.
    destruct (IsEOLChar c); cbn; intuition congruence.
  - intros kl l. cbv zeta.
    destruct (state (Asy.sc l) =? Asy.SCE_ASY_STRING_SQ) eqn:Hs; [|exact I].
    destruct (ch (Asy.sc l) =? CH_BACKSLASH) eqn:Hc; [|exact I].
    destruct (chNext (Asy.sc l) =? c) eqn:Hn; [|exact I]. cbn [andb].
    apply Z.eqb_eq in Hs, Hn. subst c.
    unfold Asy.switchState. rewrite Hs. cbn -[Asy.resetEscapeState SC.Forward SC.SetState].
    rewrite Hc. unfold Asy.resetEscapeState.
    destruct (IsEOLChar (chNext (Asy.sc l))).
    + cbn. destruct l; reflexivity.
    + destruct (IsOctalDigit _); [|destruct (_ || _)];
        cbn -[SC.Forward]; (split; [|reflexivity]);
        unfold SC.Forward; destruct (_ <? _); reflexivity.
  - intros l. cbv zeta.
    destruct (chNext (Dart.sc l) =? c) eqn:Hn; [|exact I].
    apply Z.eqb_eq in Hn. subst c.
    unfold Dart.stringBackslash, Dart.resetEscapeState.
    destruct (IsEOLChar (chNext (Dart.sc l))); [reflexivity|].
    destruct (SC.Match2 _ _ _); cbn -[SC.Forward];
      rewrite ?Forward_state; split; reflexivity.
  - intros l. cbv zeta.
    destruct (state (FSharp.sc l) <? FSharp.SCE_FSHARP_VERBATIM_STRING) eqn:Hs;
      [|exact I].
    destruct (chNext (FSharp.sc l) =? c) eqn:Hn; [|exact I]. cbn [andb].
    apply Z.eqb_eq in Hn. subst c.
    unfold FSharp.stringBackslash. rewrite Hs.
    destruct (IsEOLChar (chNext (FSharp.sc l))); [reflexivity|].
    cbn -[SC.Forward FSharp.resetEscapeState]. rewrite Forward_state.
    split; [reflexivity|].
    unfold FSharp.resetEscapeState. break_tests; reflexivity.
Qed.

(** * The style context keeps the runs contiguous *)

Ltac split_all := repeat match goal with |- _ /\ _ => split end.

Lemma covers_le (lo hi : Z) (segs : list StyleRun) : covers lo hi segs -> lo <= hi.
Proof.
  revert hi. induction segs as [|r rest IH]; cbn; intros hi H; [lia|].
  destruct H as (H1 & H2 & H3). apply IH in H3. lia.
Qed.

Lemma ColourTo_covers (lo : Z) (a : Accessor) (pos style : Z) :
  startSeg a - 1 <= pos ->
  covers lo (startSeg a) (segments a) ->
  startSeg (ColourTo a pos style) = pos + 1
  /\ covers lo (pos + 1) (segments (ColourTo a pos style)).
Proof.
  intros Hpos Hc. unfold ColourTo.
  destruct (Z.eqb_spec pos (startSeg a - 1)) as [->|Hne].
  - split; [lia|]. replace (startSeg a - 1 + 1) with (startSeg a) by lia. exact Hc.
  - destruct (Z.ltb_spec pos (startSeg a)); [lia|]. cbn.
    split; [reflexivity|]. split; [lia|]. split; [reflexivity | exact Hc].
Qed.

Lemma Forward_fields (sc : StyleContext) :
  styler (SC.Forward sc) = styler sc
  /\ endPos (SC.Forward sc) = endPos sc
  /\ lengthDocument (SC.Forward sc) = lengthDocument sc
  /\ state (SC.Forward sc) = state sc
  /\ currentPos (SC.Forward sc) =
     (if currentPos sc <? endPos sc then currentPos sc + 1 else currentPos sc).
Proof. unfold SC.Forward. destruct (currentPos sc <? endPos sc); cbn; auto. Qed.

Lemma Forward_inv (lo hi p0 : Z) (sc : StyleContext) :
  scInv lo hi p0 sc -> scInv lo hi p0 (SC.Forward sc).
Proof.
  unfold scInv. intros H.
  destruct (Forward_fields sc) as (-> & -> & -> & _ & ->).
  destruct (Z.ltb_spec (currentPos sc) (endPos sc)); intuition lia.
Qed.

Lemma ChangeState_inv (lo hi p0 s : Z) (sc : StyleContext) :
  scInv lo hi p0 sc -> scInv lo hi p0 (SC.ChangeState s sc).
Proof. unfold scInv. cbn. auto. Qed.

Lemma SetState_inv (lo hi p0 s : Z) (sc : StyleContext) :
  scInv lo hi p0 sc -> scInv lo hi p0 (SC.SetState s sc).
Proof.
  unfold scInv, SC.SetState, SC.tokenEnd. cbn. intros (H1 & H2 & H3 & H4 & H5 & H6).
  destruct (Z.gtb_spec (currentPos sc) (lengthDocument sc)); [lia|].
  destruct (ColourTo_covers lo (styler sc) (currentPos sc - 1) (state sc)) as [E1 E2];
    [lia | assumption |].
  replace (currentPos sc - 1 + 1) with (currentPos sc) in E1, E2 by lia. rewrite E1.
  split_all; try lia; assumption.
Qed.

Lemma ForwardSetState_inv (lo hi p0 s : Z) (sc : StyleContext) :
  scInv lo hi p0 sc -> scInv lo hi p0 (SC.ForwardSetState s sc).
Proof. intros H. apply SetState_inv, Forward_inv, H. Qed.

Lemma SetLineState_inv (lo hi p0 line v : Z) (sc : StyleContext) :
  scInv lo hi p0 sc ->
  scInv lo hi p0 (SC.with_styler (SetLineState (styler sc) line v) sc).
Proof. unfold scInv. cbn. auto. Qed.

Lemma scInv_here (lo hi p0 : Z) (sc : StyleContext) :
  scInv lo hi p0 sc -> scInv lo hi (currentPos sc) sc.
Proof. unfold scInv. intuition lia. Qed.

Lemma scInv_weaken (lo hi p0 p1 : Z) (sc : StyleContext) :
  p1 <= p0 -> scInv lo hi p0 sc -> scInv lo hi p1 sc.
Proof. unfold scInv. intuition lia. Qed.

Lemma make_inv (startPos length initStyle : Z) (text : list Z) :
  0 <= length -> startPos + length <= Z.of_nat (List.length text) ->
  scInv startPos (startPos + length) startPos
        (SC.make startPos length initStyle (openDocument text)).
Proof.
  unfold scInv, SC.make, Length. cbn. intros.
  split_all; try lia; reflexivity.
Qed.

Lemma Complete_covers (lo hi p0 : Z) (sc : StyleContext) :
  scInv lo hi p0 sc ->
  covers lo (currentPos sc) (segments (styler (SC.Complete sc))).
Proof.
  unfold scInv, SC.Complete, SC.tokenEnd. cbn. intros (H1 & H2 & H3 & H4 & H5 & H6).
  destruct (Z.gtb_spec (currentPos sc) (lengthDocument sc)); [lia|].
  destruct (ColourTo_covers lo (styler sc) (currentPos sc - 1) (state sc)) as [E1 E2];
    [lia | assumption |].
  replace (currentPos sc - 1 + 1) with (currentPos sc) in E2 by lia. exact E2.
Qed.

Lemma tiles_snoc (lo mid e st : Z) (l : list StyleRun) :
  tiles lo mid l -> mid <= e -> tiles lo (e + 1) (l ++ [(mid, e, st)]).
Proof.
  revert lo. induction l as [|r l IH]; cbn; intros lo H He.
  - subst. auto.
  - destruct H as (H1 & H2 & H3). auto.
Qed.

Lemma covers_tiles (lo hi : Z) (segs : list StyleRun) :
  covers lo hi segs -> tiles lo hi (rev segs).
Proof.
  revert hi. induction segs as [|[[s e] st] rest IH]; cbn; intros hi H; [exact H|].
  destruct H as (H1 & <- & H3). apply tiles_snoc; auto.
Qed.

(** Runs that tile an interval are contiguous. *)
Lemma tiles_contiguous (lo hi : Z) (runs : list StyleRun) :
  tiles lo hi runs -> contiguous runs.
Proof.
  revert lo. induction runs as [|r1 rest IH]; cbn; intros lo H; [exact I|].
  destruct H as (H1 & H2 & H3). split; [|eapply IH; exact H3].
  destruct rest as [|r2 rest']; [exact I|].
  cbn in H3. destruct H3 as (H4 & _). lia.
Qed.

#[local] Hint Resolve Forward_inv ChangeState_inv SetState_inv ForwardSetState_inv
  SetLineState_inv : scinv.

(** Case analysis on the innermost tests first: those whose condition
    holds no test itself. *)
Ltac break_inner :=
  repeat match goal with
    | |- context [if ?b then _ else _] =>
        lazymatch b with
        | context [if _ then _ else _] => fail
        | _ => destruct b eqn:?
        end
    end.

(** * The Asymptote colouriser: invariant and termination *)

Ltac asy_simpl :=
  cbn [Asy.sc Asy.on_sc Asy.set_escSeq Asy.set_kwType Asy.set_lineType
       Asy.set_chBefore Asy.escSeq Asy.kwType Asy.lineStateLineType
       Asy.visibleChars Asy.chBefore Asy.chPrevNonWhite fst snd] in *.

Lemma asy_classifyIdentifier_inv (kl : LexerWordList) (lo hi p0 : Z) (l : Asy.Lexer) :
  asyInv lo hi p0 l -> asyInv lo hi p0 (Asy.classifyIdentifier kl l).
Proof.
  intros [H1 H2]. unfold Asy.classifyIdentifier, asyInv. cbv zeta.
  break_tests; asy_simpl; auto with scinv.
Qed.

Lemma asy_switchState_inv (kl : LexerWordList) (lo hi p0 : Z) (l : Asy.Lexer) :
  asyInv lo hi p0 l ->
  asyInv lo hi p0 (Asy.switchState kl l).1
  /\ ((Asy.switchState kl l).2 = true ->
      state (Asy.sc l) = Asy.SCE_ASY_ESCAPECHAR
      /\ state (Asy.sc (Asy.switchState kl l).1) <> Asy.SCE_ASY_ESCAPECHAR).
Proof.
  intros [H1 H2].
  pose proof (asy_classifyIdentifier_inv kl lo hi p0 l (conj H1 H2)) as [H3 H4].
  unfold Asy.switchState, asyInv. cbv zeta.
  unfold Asy.resetEscapeState, Asy.atEscapeEnd.
  break_tests; asy_simpl;
    repeat match goal with
      | H : (_, _) = (_, _) |- _ => inversion H; subst; clear H
      end; asy_simpl;
    (split; [split; [auto 6 with scinv | try assumption; try (cbn; discriminate)]
            | try discriminate]).
  all: try (intros _; split; [apply Z.eqb_eq; assumption | cbn; assumption]).
  all: cbn;
    match goal with
    | H : (state _ =? Asy.SCE_ASY_STRING_SQ) = true |- _ =>
        apply Z.eqb_eq in H; rewrite H; discriminate
    end.
Qed.

Lemma asy_defaultState_inv (lo hi p0 : Z) (l : Asy.Lexer) :
  asyInv lo hi p0 l -> asyInv lo hi p0 (Asy.defaultState l).
Proof.
  intros [H1 H2]. unfold Asy.defaultState, asyInv.
  break_tests; asy_simpl; auto with scinv.
Qed.

Lemma asy_lineEnd_inv (lo hi p0 : Z) (l : Asy.Lexer) :
  asyInv lo hi p0 l ->
  asyInv lo hi p0 (Asy.lineEnd l)
  /\ currentPos (Asy.sc (Asy.lineEnd l)) =
     (if currentPos (Asy.sc l) <? endPos (Asy.sc l)
      then currentPos (Asy.sc l) + 1 else currentPos (Asy.sc l)).
Proof.
  intros [H1 H2]. unfold Asy.lineEnd, asyInv. cbv zeta.
  destruct (atLineEnd (Asy.sc _)); asy_simpl.
  - split; [split; [auto with scinv | assumption]|].
    match goal with |- currentPos (SC.Forward ?x) = _ =>
      destruct (Forward_fields x) as (_ & _ & _ & _ & ->) end. reflexivity.
  - split; [split; [auto with scinv | assumption]|].
    match goal with |- currentPos (SC.Forward ?x) = _ =>
      destruct (Forward_fields x) as (_ & _ & _ & _ & ->) end. reflexivity.
Qed.

Lemma asy_iteration_inv (kl : LexerWordList) (lo hi p0 : Z) (l : Asy.Lexer) :
  asyInv lo hi p0 l ->
  SC.More (Asy.sc l) = true ->
  asyInv lo hi p0 (Asy.iteration kl l)
  /\ 0 <= asyMeasure (Asy.iteration kl l) < asyMeasure l.
Proof.
  intros [H1 H2] Hmore. unfold SC.More in Hmore. apply Z.ltb_lt in Hmore.
  assert (Hhi : endPos (Asy.sc l) = hi) by (unfold scInv in H1; tauto).
  destruct (asy_switchState_inv kl lo hi (currentPos (Asy.sc l)) l) as [[S1 S2] S3].
  { split; [eapply scInv_here; eassumption | assumption]. }
  unfold Asy.iteration. destruct (Asy.switchState kl l) as [l1 cont]. cbn [fst snd] in *.
  assert (Hp0 : p0 <= currentPos (Asy.sc l)) by (unfold scInv in H1; tauto).
  destruct cont.
  - destruct (S3 eq_refl) as [E1 E2].
    split; [split; [eapply scInv_weaken; eassumption | assumption]|].
    unfold asyMeasure. rewrite E1, Z.eqb_refl.
    destruct (Z.eqb_spec (state (Asy.sc l1)) Asy.SCE_ASY_ESCAPECHAR); [contradiction|].
    unfold scInv in S1. lia.
  - destruct (asy_defaultState_inv lo hi (currentPos (Asy.sc l)) l1 (conj S1 S2))
      as [D1 D2].
    destruct (asy_lineEnd_inv lo hi (currentPos (Asy.sc l)) _ (conj D1 D2))
      as [[L1 L2] L3].
    split; [split; [eapply scInv_weaken; eassumption | assumption]|].
    unfold asyMeasure.
    set (d := Asy.defaultState l1) in *.
    unfold scInv in D1, L1.
    destruct (Z.ltb_spec (currentPos (Asy.sc d)) (endPos (Asy.sc d)));
      destruct (_ =? _); destruct (_ =? _); lia.
Qed.

Lemma asy_loop_terminates (kl : LexerWordList) (lo hi p0 : Z) (fuel : nat)
    (l : Asy.Lexer) :
  asyInv lo hi p0 l ->
  asyMeasure l < Z.of_nat fuel ->
  exists l', Asy.loop fuel kl l = Some l'
             /\ asyInv lo hi p0 l' /\ currentPos (Asy.sc l') = hi.
Proof.
  revert l. induction fuel as [|fuel IH]; intros l Hinv Hm.
  - exfalso. destruct Hinv as [H _]. unfold scInv in H. unfold asyMeasure in Hm.
    destruct (_ =? _); lia.
  - cbn [Asy.loop]. destruct (SC.More (Asy.sc l)) eqn:Hmore.
    + destruct (asy_iteration_inv kl lo hi p0 l Hinv Hmore) as [I1 I2].
      apply IH; [assumption | lia].
    + exists l. split; [reflexivity|]. split; [assumption|].
      unfold SC.More in Hmore. apply Z.ltb_ge in Hmore.
      destruct Hinv as [H _]. unfold scInv in H. lia.
Qed.

(** * Resuming the Asymptote colouriser at a line start *)

(** Claim C1 fails for the Asymptote lexer.  On the document of two lines
    [a] and [b(], one pass over the whole document styles [b] as a function
    definition (the last visible character before it is the identifier
    character [a]), while two passes split at the line boundary at offset 2,
    the second one started with the style in effect at the end of the first,
    style [b] as a plain function: the last visible character is kept in a
    local variable only and is not looked up again when the lexer resumes. *)
Theorem asy_resume_differs :
  option_map styleRuns
    (Asy.ColouriseAsyDoc 0 4 Asy.SCE_ASY_DEFAULT [] (openDocument asyTwoLines))
  = Some [(0, 0, Asy.SCE_ASY_STRUCT); (1, 1, Asy.SCE_ASY_DEFAULT);
          (2, 2, Asy.SCE_ASY_FUNCTION_DEFINITION); (3, 3, Asy.SCE_ASY_OPERATOR)]
  /\ option_map styleRuns
       (Asy.ColouriseInTwoPasses 2 4 [] (openDocument asyTwoLines))
     = Some [(0, 0, Asy.SCE_ASY_STRUCT); (1, 1, Asy.SCE_ASY_DEFAULT);
             (2, 2, Asy.SCE_ASY_FUNCTION); (3, 3, Asy.SCE_ASY_OPERATOR)].
Proof. split; vm_compute; reflexivity. Qed.

(** * Identifier classification *)

Lemma GetDocNextChar_paren (sc : StyleContext) :
  SC.GetDocNextChar sc = C "(" -> (ch sc =? C ".") = false.
Proof.
  unfold SC.GetDocNextChar. intros H.
  destruct (Z.eqb_spec (ch sc) (C ".")) as [E|]; [|reflexivity].
  rewrite E in H. cbn in H. discriminate.
Qed.

Lemma lineNextChar_paren (sc : StyleContext) :
  Dart.lineNextChar (ch sc =? C "?") sc = C "(" ->
  (ch sc =? C ".") = false /\ (ch sc =? C ":") = false.
Proof.
  unfold Dart.lineNextChar, GetLineNextChar. intros H.
  destruct (Z.eqb_spec (ch sc) (C "?")) as [E|N].
  - rewrite E. split; reflexivity.
  - cbn [negb] in H.
    split.
    + destruct (Z.eqb_spec (ch sc) (C ".")) as [E|]; [|reflexivity].
      rewrite E in H. cbn in H. discriminate.
    + destruct (Z.eqb_spec (ch sc) (C ":")) as [E|]; [|reflexivity].
      rewrite E in H. cbn in H. discriminate.
Qed.

(** Claim C6, amended.  An identifier that is in no keyword list, with no
    pending struct type (Asymptote) or class, enum or label type (Dart), and
    whose next visible character (in the document for Asymptote; on the same
    line, after an optional [?], for Dart) is an opening parenthesis, becomes
    FUNCTION_DEFINITION when the pending type is not return and the character
    before the identifier is an identifier character or a closing square
    bracket, and plain FUNCTION otherwise. *)
Theorem function_or_definition :
  (forall (kl : LexerWordList) (l : Asy.Lexer),
      let s := SC.GetCurrent 128 (Asy.sc l) in
      InList (keywords kl 0) s = false -> InList (keywords kl 1) s = false ->
      InList (keywords kl 2) s = false -> InList (keywords kl 3) s = false ->
      Asy.kwType l <> Asy.KeywordType_Struct ->
      SC.GetDocNextChar (Asy.sc l) = C "(" ->
      state (Asy.sc (Asy.classifyIdentifier kl l)) =
      if negb (Asy.kwType l =? Asy.KeywordType_Return)
         && (IsIdentifierChar (Asy.chBefore l) || (Asy.chBefore l =? C "]"))
      then Asy.SCE_ASY_FUNCTION_DEFINITION else Asy.SCE_ASY_FUNCTION)
  /\ (forall (isJumpLabelPrevChar : Z -> bool) (kl : LexerWordList) (l : Dart.Lexer),
      let s := SC.GetCurrent Dart.MaxKeywordSize (Dart.sc l) in
      state (Dart.sc l) = Dart.SCE_DART_IDENTIFIER ->
      InList (keywords kl 0) s = false -> InList (keywords kl 1) s = false ->
      InList (keywords kl 2) s = false -> InList (keywords kl 3) s = false ->
      (Dart.kwType l <= Dart.KeywordType_None
       \/ Dart.KeywordType_Return <= Dart.kwType l) ->
      Dart.lineNextChar (ch (Dart.sc l) =? C "?") (Dart.sc l) = C "(" ->
      state (Dart.sc (Dart.classifyIdentifier isJumpLabelPrevChar kl l)) =
      if negb (Dart.kwType l =? Dart.KeywordType_Return)
         && (Dart.IsDartIdentifierChar (Dart.chBefore l) || (Dart.chBefore l =? C "]"))
      then Dart.SCE_DART_FUNCTION_DEFINITION else Dart.SCE_DART_FUNCTION).
Proof.
  split.
  - intros kl l s H0 H1 H2 H3 Hk Hn. subst s.
    unfold Asy.classifyIdentifier. cbv zeta.
    rewrite H0, H1, H2, H3, Hn, (GetDocNextChar_paren _ Hn).
    destruct (Z.eqb_spec (Asy.kwType l) Asy.KeywordType_Struct); [contradiction|].
    cbn [orb negb]. rewrite Z.eqb_refl.
    destruct (negb (Asy.kwType l =? Asy.KeywordType_Return) && _); reflexivity.
  - intros jl kl l s Hs H0 H1 H2 H3 Hk Hn. subst s.
    destruct (lineNextChar_paren _ Hn) as [Hdot Hcolon].
    unfold Dart.classifyIdentifier. cbv zeta.
    rewrite H0, H1, H2, H3, Hn, Hdot, Hcolon, Hs, !Z.eqb_refl. cbn [andb negb].
    replace ((Dart.kwType l >? Dart.KeywordType_None)
             && (Dart.kwType l <? Dart.KeywordType_Return)) with false
      by (symmetry; apply andb_false_iff;
          rewrite Z.gtb_ltb, !Z.ltb_ge; lia).
    destruct (negb (Dart.kwType l =? Dart.KeywordType_Return) && _);
      cbn; rewrite Hdot; reflexivity.
Qed.

Lemma function_or_definition_witness :
  state (Asy.sc (Asy.classifyIdentifier [] asyAtCall))
  = Asy.SCE_ASY_FUNCTION_DEFINITION.
Proof.
  apply (proj1 function_or_definition [] asyAtCall); vm_compute; congruence.
Defined.

Lemma function_or_definition_counterexample :
  (let s := SC.GetCurrent 128 (Asy.sc asyAtNew) in
   s = bytes "Foo"
   /\ existsb (fun i => InList (keywords asyKeywords i) s) [0; 1; 2; 3]%nat = false
   /\ SC.GetDocNextChar (Asy.sc asyAtNew) = C "("
   /\ state (Asy.sc (Asy.classifyIdentifier asyKeywords asyAtNew))
      = Asy.SCE_ASY_STRUCT
   /\ Asy.SCE_ASY_STRUCT <> Asy.SCE_ASY_FUNCTION
   /\ Asy.SCE_ASY_STRUCT <> Asy.SCE_ASY_FUNCTION_DEFINITION)
  /\ (let s := SC.GetCurrent Dart.MaxKeywordSize (Dart.sc dartAtLineEnd) in
      s = bytes "foo"
      /\ SC.GetDocNextChar (Dart.sc dartAtLineEnd) = C "("
      /\ state (Dart.sc (Dart.classifyIdentifier noJumpLabel [] dartAtLineEnd))
         = Dart.SCE_DART_IDENTIFIER).
Proof. vm_compute. repeat split; congruence. Qed.






(** * Nested block comments *)

Lemma make_currentLine (startPos length initStyle : Z) (a : Accessor) :
  currentLine (SC.make startPos length initStyle a) = GetLine a startPos.
Proof. reflexivity. Qed.

(** Claim C3, amended.  In the block-comment state of the Dart and F#
    lexers the opening pair increments the depth and the closing pair
    decrements it; the state is left only when the depth becomes zero; and the
    depth written into the line state at a line end is read back unchanged by
    a pass that resumes after that line, provided it fits the field that holds
    it: at most 63 in Dart (six bits), at most 15 in F# (four bits). *)
Theorem nested_comment_depth :
  (forall (highlightTaskMarker : StyleContext -> Z -> Z -> Z -> StyleContext * Z * bool)
          (pack : list Z -> Z) (unpack : Z -> list Z)
          (lookback : Accessor -> Z -> Z -> Z -> Z) (l : Dart.Lexer),
      (forall sc v vb m, state (highlightTaskMarker sc v vb m).1.1 = state sc) ->
      state (Dart.sc l) = Dart.SCE_DART_COMMENTBLOCK
      \/ state (Dart.sc l) = Dart.SCE_DART_COMMENTBLOCKDOC ->
      let l' := (Dart.commentBlock highlightTaskMarker l).1 in
      (if SC.Match2 (C "*") (C "/") (Dart.sc l) then
         Dart.commentLevel l' = decr (Dart.commentLevel l)
         /\ state (Dart.sc l') =
            (if Dart.commentLevel l' =? 0 then Dart.SCE_DART_DEFAULT
             else state (Dart.sc l))
       else if SC.Match2 (C "/") (C "*") (Dart.sc l) then
         Dart.commentLevel l' = incr (Dart.commentLevel l)
         /\ state (Dart.sc l') = state (Dart.sc l)
       else
         Dart.commentLevel l' = Dart.commentLevel l
         /\ state (Dart.sc l') = state (Dart.sc l))
      /\ (state (Dart.sc l') <> state (Dart.sc l) -> Dart.commentLevel l' = 0)
      /\ (atLineEnd (Dart.sc l) = true ->
          0 <= Dart.commentLevel l <= 63 ->
          0 <= Dart.lineStateLineType l <= 3 ->
          0 <= pack (Dart.nestedState l) < 2 ^ 23 ->
          forall a startPos lengthDoc initStyle,
            GetLine a startPos > 0 ->
            GetLineState a (GetLine a startPos - 1)
            = GetLineState (styler (Dart.sc (Dart.lineEnd pack l)))
                           (currentLine (Dart.sc l)) ->
            Dart.commentLevel
              (Dart.start unpack lookback startPos lengthDoc initStyle a)
            = Dart.commentLevel l))
  /\ (forall l : FSharp.Lexer,
      state (FSharp.sc l) = FSharp.SCE_FSHARP_COMMENT ->
      let l' := FSharp.comment l in
      (if SC.Match2 (C "(") (C "*") (FSharp.sc l) then
         FSharp.commentLevel l' = incr (FSharp.commentLevel l)
         /\ state (FSharp.sc l') = state (FSharp.sc l)
       else if SC.Match2 (C "*") (C ")") (FSharp.sc l) then
         FSharp.commentLevel l' = decr (FSharp.commentLevel l)
         /\ state (FSharp.sc l') =
            (if FSharp.commentLevel l' =? 0 then FSharp.SCE_FSHARP_DEFAULT
             else state (FSharp.sc l))
       else
         FSharp.commentLevel l' = FSharp.commentLevel l
         /\ state (FSharp.sc l') = state (FSharp.sc l))
      /\ (state (FSharp.sc l') <> state (FSharp.sc l) -> FSharp.commentLevel l' = 0)
      /\ (atLineEnd (FSharp.sc l) = true ->
          0 <= FSharp.commentLevel l <= 15 ->
          0 <= FSharp.lineState l < 256 ->
          0 <= FSharp.stringInterpolatorCount l <= 15 ->
          0 <= FSharp.indentCount l < 2 ^ 15 ->
          forall sc2 : StyleContext,
            currentLine sc2 > 0 ->
            GetLineState (styler sc2) (currentLine sc2 - 1)
            = GetLineState (styler (FSharp.sc (FSharp.lineEnd l)))
                           (currentLine (FSharp.sc l)) ->
            FSharp.commentLevel (FSharp.start sc2) = FSharp.commentLevel l)).
Proof.
  split.
  - intros htm pack unpack lookback l Hhtm Hst l'. subst l'. split; [|split].
    + unfold Dart.commentBlock.
      destruct (SC.Match2 (C "*") (C "/") (Dart.sc l)).
      * cbn -[SC.Forward SC.ForwardSetState decr].
        destruct (decr (Dart.commentLevel l) =? 0) eqn:E; cbn -[SC.Forward decr];
          rewrite ?E, ?Forward_state; split; reflexivity.
      * destruct (SC.Match2 (C "/") (C "*") (Dart.sc l)).
        -- cbn -[SC.Forward incr]. rewrite Forward_state. split; reflexivity.
        -- specialize (Hhtm (Dart.sc l) (Dart.visibleChars l)
                            (Dart.visibleCharsBefore l) Dart.SCE_DART_TASKMARKER).
           destruct (htm _ _ _ _) as [[sc1 vis] found]. cbn in *. auto.
    + unfold Dart.commentBlock.
      destruct (SC.Match2 (C "*") (C "/") (Dart.sc l)).
      * cbn -[SC.Forward SC.ForwardSetState decr].
        destruct (Z.eqb_spec (decr (Dart.commentLevel l)) 0) as [E|E];
          cbn -[SC.Forward decr]; rewrite ?Forward_state;
          [auto | intros H; exfalso; apply H; reflexivity].
      * destruct (SC.Match2 (C "/") (C "*") (Dart.sc l)).
        -- cbn -[SC.Forward incr]. rewrite Forward_state.
           intros H; exfalso; apply H; reflexivity.
        -- specialize (Hhtm (Dart.sc l) (Dart.visibleChars l)
                            (Dart.visibleCharsBefore l) Dart.SCE_DART_TASKMARKER).
           destruct (htm _ _ _ _) as [[sc1 vis] found]. cbn in *.
           intros H; exfalso; apply H; assumption.
    + intros Hend Hc Ht Hp a startPos lengthDoc initStyle Hline Hword.
      assert (Hcl : Dart.commentLevel
                      (Dart.start unpack lookback startPos lengthDoc initStyle a)
                    = Dart.commentLevelOf (GetLineState a (GetLine a startPos - 1))).
      { unfold Dart.start. rewrite make_currentLine.
        destruct (Z.gtb_spec (GetLine a startPos) 0); [|lia].
        cbv zeta. break_tests; reflexivity. }
      rewrite Hcl, Hword. unfold Dart.lineEnd. rewrite Hend. cbn [Dart.sc styler SC.with_styler].
      rewrite GetLineState_SetLineState.
      destruct (dart_word_value pack _ _ (Dart.nestedState l) Hc Ht Hp) as (p & Hp0 & ->).
      unfold Dart.commentLevelOf, shr. change 63 with (Z.ones 6).
      apply field_of_word; lia.
  - intros l Hst l'. subst l'. split; [|split].
    + unfold FSharp.comment.
      destruct (atLineStart (FSharp.sc l)); cbn -[SC.Forward SC.ForwardSetState decr incr];
        (destruct (SC.Match2 (C "(") (C "*") (FSharp.sc l));
         [cbn -[SC.Forward incr]; rewrite Forward_state; split; reflexivity|]);
        (destruct (SC.Match2 (C "*") (C ")") (FSharp.sc l)); [|split; reflexivity]);
        cbn -[SC.Forward SC.ForwardSetState decr];
        (destruct (decr (FSharp.commentLevel l) =? 0) eqn:E;
         [|cbn -[SC.Forward decr]; rewrite ?E, Forward_state; split; reflexivity]);
        break_tests; cbn -[SC.Forward decr GetLineNextChar] in *;
        try congruence; split; reflexivity.
    + unfold FSharp.comment.
      destruct (atLineStart (FSharp.sc l)); cbn -[SC.Forward SC.ForwardSetState decr incr];
        (destruct (SC.Match2 (C "(") (C "*") (FSharp.sc l));
         [cbn -[SC.Forward incr]; rewrite Forward_state;
          intros H; exfalso; apply H; reflexivity|]);
        (destruct (SC.Match2 (C "*") (C ")") (FSharp.sc l));
         [|intros H; exfalso; apply H; reflexivity]);
        cbn -[SC.Forward SC.ForwardSetState decr];
        (destruct (Z.eqb_spec (decr (FSharp.commentLevel l)) 0) as [E|E];
         [|cbn -[SC.Forward decr]; rewrite Forward_state;
           intros H; exfalso; apply H; reflexivity]);
        break_tests; cbn -[SC.Forward decr GetLineNextChar] in *; auto.
    + intros Hend Hc Hf Hs Hi sc2 Hline Hword.
      unfold FSharp.start.
      destruct (Z.gtb_spec (currentLine sc2) 0); [|lia].
      cbn [FSharp.commentLevel]. rewrite Hword.
      unfold FSharp.lineEnd. rewrite Hend. cbn [FSharp.sc styler SC.with_styler].
      rewrite GetLineState_SetLineState.
      destruct (fsharp_word_value l Hf Hc Hs Hi) as (lo & Hlo & ->).
      unfold FSharp.commentLevelOf, shr. change 15 with (Z.ones 4).
      apply field_of_word; lia.
Qed.

Lemma nested_comment_depth_witness :
  Dart.commentLevel (Dart.commentBlock noTaskMarker dartInComment).1 = 2
  /\ state (Dart.sc (Dart.commentBlock noTaskMarker dartInComment).1)
     = Dart.SCE_DART_COMMENTBLOCK.
Proof.
  destruct (proj1 nested_comment_depth noTaskMarker noPack noUnpack noLookback
              dartInComment (fun _ _ _ _ => eq_refl) (or_introl eq_refl))
    as [H _].
  exact H.
Defined.

Lemma nested_comment_depth_counterexample :
  atLineEnd (Dart.sc dartDeep) = true
  /\ Dart.commentLevel dartDeep = 64
  /\ Dart.commentLevel
       (Dart.start noUnpack noLookback 2 1 Dart.SCE_DART_COMMENTBLOCK
          (styler (Dart.sc (Dart.lineEnd noPack dartDeep)))) = 0
  /\ atLineEnd (FSharp.sc fsharpDeep) = true
  /\ FSharp.commentLevel fsharpDeep = 16
  /\ FSharp.commentLevel
       (FSharp.start
          (SC.make 2 1 FSharp.SCE_FSHARP_COMMENT
             (styler (FSharp.sc (FSharp.lineEnd fsharpDeep))))) = 0.
Proof. vm_compute. repeat split; reflexivity. Qed.

(** * Lines of a document *)

Lemma countLines_nonneg (l : list Z) (n : nat) : 0 <= countLines l n.
Proof.
  revert n. induction l as [|c rest IH]; intros [|n]; cbn; try lia.
  specialize (IH n). destruct (endsLine c rest); lia.
Qed.

Lemma countLines_S (l : list Z) (n : nat) :
  countLines l (S n) = countLines l n + (if endAt l n then 1 else 0).
Proof.
  revert n. induction l as [|c rest IH]; intros n.
  - unfold endAt. destruct n; reflexivity.
  - destruct n as [|m].
    + cbn. unfold endAt. cbn. destruct rest; cbn; lia.
    + change (countLines (c :: rest) (S (S m)))
        with ((if endsLine c rest then 1 else 0) + countLines rest (S m)).
      change (countLines (c :: rest) (S m))
        with ((if endsLine c rest then 1 else 0) + countLines rest m).
      change (endAt (c :: rest) (S m)) with (endAt rest m).
      rewrite IH. lia.
Qed.

Lemma countLines_mono (l : list Z) (n m : nat) :
  (n <= m)%nat -> countLines l n <= countLines l m.
Proof.
  induction 1 as [|m Hle IH]; [lia|].
  rewrite countLines_S. destruct (endAt l m); lia.
Qed.

Lemma lineStartFrom_0 (l : list Z) (pos : Z) : lineStartFrom l pos 0 = pos.
Proof. destruct l; reflexivity. Qed.

Lemma lineStartFrom_ge (l : list Z) :
  forall pos k, pos <= lineStartFrom l pos k.
Proof.
  induction l as [|c rest IH]; intros pos [|k]; cbn; try lia.
  destruct (endsLine c rest).
  - specialize (IH (pos + 1) k). lia.
  - specialize (IH (pos + 1) (S k)). lia.
Qed.

Lemma lineStartFrom_one_gt (l : list Z) (pos : Z) :
  l <> [] -> pos < lineStartFrom l pos 1.
Proof.
  destruct l as [|c rest]; [congruence|]. intros _. cbn.
  destruct (endsLine c rest).
  - pose proof (lineStartFrom_ge rest (pos + 1) 0). lia.
  - pose proof (lineStartFrom_ge rest (pos + 1) 1). lia.
Qed.

Lemma endAt_eol (l : list Z) :
  forall n : nat, endAt l n = true -> IsEOLChar (nth n l 0) = true.
Proof.
  induction l as [|c rest IH]; intros n H.
  - unfold endAt in H. destruct n; discriminate.
  - destruct n as [|m].
    + change (endAt (c :: rest) 0) with (endsLine c rest) in H. cbn [nth].
      unfold endsLine in H. unfold IsEOLChar.
      destruct (c =? CH_LF); [apply orb_true_r|].
      destruct (c =? CH_CR); [reflexivity | discriminate].
    + change (endAt (c :: rest) (S m)) with (endAt rest m) in H. cbn [nth].
      apply IH, H.
Qed.

(** The start of the line after the one that holds index [n]. *)
Lemma lineStartFrom_next (l : list Z) :
  forall (pos : Z) (n : nat),
    (n < length l)%nat ->
    let k := S (Z.to_nat (countLines l n)) in
    if endAt l n
    then lineStartFrom l pos k = pos + Z.of_nat n + 1
    else pos + Z.of_nat n + 1 < lineStartFrom l pos k
         \/ (lineStartFrom l pos k = pos + Z.of_nat (length l)
             /\ countLines l (length l) = countLines l n).
Proof.
  induction l as [|c rest IH]; intros pos n Hn; [cbn in Hn; lia|].
  destruct n as [|m].
  - cbn [countLines]. cbv zeta. change (Z.to_nat 0) with O.
    change (endAt (c :: rest) 0) with (endsLine c rest).
    cbn [lineStartFrom].
    destruct (endsLine c rest) eqn:He.
    + rewrite lineStartFrom_0. change (Z.of_nat 0) with 0. lia.
    + destruct rest as [|d r].
      * right. split; [cbn; lia|].
        cbn [countLines length]. reflexivity.
      * left.
        pose proof (lineStartFrom_one_gt (d :: r) (pos + 1) ltac:(congruence)).
        change (Z.of_nat 0) with 0. lia.
  - change (endAt (c :: rest) (S m)) with (endAt rest m).
    change (countLines (c :: rest) (S m))
      with ((if endsLine c rest then 1 else 0) + countLines rest m).
    pose proof (countLines_nonneg rest m) as Hc.
    cbn [length] in Hn. specialize (IH (pos + 1) m ltac:(lia)). cbv zeta in IH.
    cbv zeta.
    assert (Hstep :
      lineStartFrom (c :: rest) pos
        (S (Z.to_nat ((if endsLine c rest then 1 else 0) + countLines rest m)))
      = lineStartFrom rest (pos + 1) (S (Z.to_nat (countLines rest m)))).
    { cbn [lineStartFrom]. destruct (endsLine c rest).
      - replace (Z.to_nat (1 + countLines rest m))
          with (S (Z.to_nat (countLines rest m))) by lia. reflexivity.
      - reflexivity. }
    rewrite Hstep.
    destruct (endAt rest m).
    + rewrite IH. lia.
    + destruct IH as [IH | [IH1 IH2]].
      * left. lia.
      * right. split.
        -- rewrite IH1. cbn [length]. lia.
        -- change (countLines (c :: rest) (length (c :: rest)))
             with ((if endsLine c rest then 1 else 0) + countLines rest (length rest)).
           rewrite IH2. reflexivity.
Qed.

(** The line-end test of the cursor is true exactly on the last character of
    a line. *)
Lemma lineEndAt_isLineEnd (a : Accessor) (pos : Z) :
  0 <= pos < Length a ->
  SC.lineEndAt (GetLine a (Length a)) (GetLine a pos)
               (LineStart a (GetLine a pos + 1)) pos
  = isLineEnd (buf a) pos.
Proof.
  intros Hpos. unfold isLineEnd, GetLine, LineStart, Length in *.
  replace (0 <=? pos) with true by (symmetry; apply Z.leb_le; lia). cbn [andb].
  set (l := buf a) in *. set (n := Z.to_nat pos).
  assert (Hn : (n < length l)%nat) by lia.
  pose proof (countLines_nonneg l n) as Hc.
  replace (countLines l n + 1 <? 0) with false by (symmetry; apply Z.ltb_ge; lia).
  replace (Z.to_nat (countLines l n + 1)) with (S (Z.to_nat (countLines l n))) by lia.
  rewrite Nat2Z.id.
  pose proof (lineStartFrom_next l 0 n Hn) as H. cbv zeta in H.
  pose proof (countLines_mono l (S n) (length l) ltac:(lia)) as Hm.
  rewrite countLines_S in Hm.
  unfold SC.lineEndAt.
  destruct (endAt l n).
  - rewrite H.
    replace (countLines l n <? countLines l (length l)) with true
      by (symmetry; apply Z.ltb_lt; lia).
    apply Z.geb_le. lia.
  - destruct H as [H | [H1 H2]].
    + destruct (_ <? _); rewrite Z.geb_leb; apply Z.leb_gt; lia.
    + rewrite H2, Z.ltb_irrefl, H1. rewrite Z.geb_leb. apply Z.leb_gt. lia.
Qed.

Lemma GetLine_succ (a : Accessor) (pos : Z) :
  0 <= pos ->
  GetLine a (pos + 1) = GetLine a pos + (if isLineEnd (buf a) pos then 1 else 0).
Proof.
  intros Hpos. unfold GetLine, isLineEnd.
  replace (0 <=? pos) with true by (symmetry; apply Z.leb_le; lia). cbn [andb].
  replace (Z.to_nat (pos + 1)) with (S (Z.to_nat pos)) by lia.
  apply countLines_S.
Qed.

Lemma isLineEnd_eol (text : list Z) (pos : Z) :
  isLineEnd text pos = true -> IsEOLChar (charAt text pos) = true.
Proof.
  unfold isLineEnd, charAt. intros H. apply andb_true_iff in H as [H1 H2].
  apply Z.leb_le in H1.
  replace (pos <? 0) with false by (symmetry; apply Z.ltb_ge; lia).
  apply endAt_eol, H2.
Qed.

(** * VHDL strings end with their line *)




(** * Folding comment and import lines *)










(** * VHDL: a string never runs over a line end *)

Lemma ColourTo_buf (a : Accessor) (pos style : Z) : buf (ColourTo a pos style) = buf a.
Proof. unfold ColourTo. break_tests; reflexivity. Qed.

Lemma LineStart_buf (a : Accessor) (line : Z) :
  LineStart a line = LineStart (openDocument (buf a)) line.
Proof. reflexivity. Qed.

Lemma lineInv_atLineEnd (text : list Z) (sc : StyleContext) :
  lineInv text sc ->
  currentPos sc < endPos sc -> endPos sc <= Z.of_nat (List.length text) ->
  atLineEnd sc = isLineEnd text (currentPos sc).
Proof.
  intros (Hb & Hl & Hd & H0 & H) Hlt Hle.
  destruct (H Hlt) as (_ & _ & E1 & E2 & E3).
  rewrite E3, E2, E1, Hd.
  apply (lineEndAt_isLineEnd (openDocument text) (currentPos sc)).
  unfold Length. cbn. lia.
Qed.

Lemma lineInv_char_not_end (text : list Z) (sc : StyleContext) :
  lineInv text sc -> currentPos sc < endPos sc ->
  IsEOLChar (ch sc) = false -> isLineEnd text (currentPos sc) = false.
Proof.
  intros (_ & _ & _ & _ & H) Hlt Hc. destruct (H Hlt) as (E & _).
  destruct (isLineEnd text (currentPos sc)) eqn:He; [|reflexivity].
  apply isLineEnd_eol in He. rewrite <- E in He. congruence.
Qed.

Lemma Forward_lineInv (text : list Z) (sc : StyleContext) :
  lineInv text sc -> endPos sc <= Z.of_nat (List.length text) ->
  lineInv text (SC.Forward sc).
Proof.
  intros Hinv Hle.
  pose proof Hinv as (Hb & Hl & Hd & H0 & H).
  unfold SC.Forward. destruct (Z.ltb_spec (currentPos sc) (endPos sc)) as [Hlt|Hge].
  - pose proof (lineInv_atLineEnd text sc Hinv Hlt Hle) as Hend.
    destruct (H Hlt) as (E0 & E1 & E2 & E3 & E4).
    unfold lineInv. cbn [styler lengthDocument lineDocEnd currentPos endPos ch chNext
                         currentLine lineStartNext atLineEnd].
    split_all; try assumption; try lia. intros Hlt'.
    assert (Hline : (if atLineEnd sc then currentLine sc + 1 else currentLine sc)
                    = GetLine (openDocument text) (currentPos sc + 1)).
    { rewrite GetLine_succ by lia. cbn [buf openDocument]. rewrite <- Hend, E2.
      destruct (atLineEnd sc); lia. }
    split_all.
    + exact E1.
    + unfold SafeGetCharAt. rewrite Hb. reflexivity.
    + exact Hline.
    + rewrite LineStart_buf, Hb. destruct (atLineEnd sc); [reflexivity | exact E3].
    + reflexivity.
  - unfold lineInv. cbn [styler lengthDocument lineDocEnd currentPos endPos].
    split_all; try assumption. intros Hlt'. lia.
Qed.

Lemma make_lineInv (startPos length initStyle : Z) (text : list Z) :
  0 <= startPos ->
  lineInv text (SC.make startPos length initStyle (openDocument text)).
Proof.
  intros H. unfold lineInv, SC.make, Length. cbn.
  split_all; try reflexivity; try lia. intros _. split_all; reflexivity.
Qed.

Lemma SetState_fields (lo hi p0 s : Z) (sc : StyleContext) :
  scInv lo hi p0 sc ->
  startSeg (styler (SC.SetState s sc)) = currentPos sc
  /\ buf (styler (SC.SetState s sc)) = buf (styler sc)
  /\ (segments (styler (SC.SetState s sc)) = segments (styler sc)
      \/ segments (styler (SC.SetState s sc))
         = (startSeg (styler sc), currentPos sc - 1, state sc) :: segments (styler sc)).
Proof.
  unfold scInv, SC.SetState, SC.tokenEnd. cbn. intros (H1 & H2 & H3 & H4 & H5 & H6).
  destruct (Z.gtb_spec (currentPos sc) (lengthDocument sc)); [lia|].
  unfold ColourTo.
  destruct (Z.eqb_spec (currentPos sc - 1) (startSeg (styler sc) - 1));
    [split_all; [lia | reflexivity | left; reflexivity]|].
  destruct (Z.ltb_spec (currentPos sc - 1) (startSeg (styler sc))); [lia|].
  cbn. split_all; [lia | reflexivity | right; reflexivity].
Qed.

Lemma SetState_vhdlInv (text : list Z) (lo hi p0 s : Z) (sc : StyleContext) :
  vhdlInv text lo hi p0 sc -> vhdlInv text lo hi p0 (SC.SetState s sc).
Proof.
  intros (H1 & H2 & H3 & H4).
  destruct (SetState_fields lo hi p0 s sc H1) as (E1 & E2 & E3).
  unfold vhdlInv. split_all.
  - apply SetState_inv, H1.
  - destruct H2 as (Hb & Hrest). split; [rewrite E2; exact Hb | exact Hrest].
  - intros _ p Hp. rewrite E1 in Hp. cbn in Hp. lia.
  - destruct E3 as [-> | ->]; [exact H4|].
    intros s0 e0 [Heq | Hin] p Hp.
    + inversion Heq; subst. apply H3; [assumption | lia].
    + eapply H4; eassumption.
Qed.

Lemma ChangeState_vhdlInv (text : list Z) (lo hi p0 s : Z) (sc : StyleContext) :
  s <> VHDL.SCE_VHDL_STRING ->
  vhdlInv text lo hi p0 sc -> vhdlInv text lo hi p0 (SC.ChangeState s sc).
Proof.
  intros Hs (H1 & H2 & H3 & H4). unfold vhdlInv. split_all.
  - apply ChangeState_inv, H1.
  - exact H2.
  - cbn. intros Hc. contradiction.
  - exact H4.
Qed.

Lemma Forward_vhdlInv (text : list Z) (lo hi p0 : Z) (sc : StyleContext) :
  hi <= Z.of_nat (List.length text) ->
  notOnLineEnd text sc ->
  vhdlInv text lo hi p0 sc -> vhdlInv text lo hi p0 (SC.Forward sc).
Proof.
  intros Hhi Hn (H1 & H2 & H3 & H4).
  assert (Hend : endPos sc = hi) by (unfold scInv in H1; tauto).
  destruct (Forward_fields sc) as (F1 & F2 & F3 & F4 & F5).
  unfold vhdlInv. split_all.
  - apply Forward_inv, H1.
  - apply Forward_lineInv; [exact H2 | lia].
  - rewrite F4, F1, F5. intros Hs p Hp.
    destruct (Z.ltb_spec (currentPos sc) (endPos sc)).
    + destruct (Z.eq_dec p (currentPos sc)) as [-> | Hne].
      * apply Hn; assumption.
      * apply H3; [assumption | lia].
    + apply H3; assumption.
  - rewrite F1. exact H4.
Qed.

Lemma Forward_vhdlInv_other (text : list Z) (lo hi p0 : Z) (sc : StyleContext) :
  hi <= Z.of_nat (List.length text) ->
  state sc <> VHDL.SCE_VHDL_STRING ->
  vhdlInv text lo hi p0 sc -> vhdlInv text lo hi p0 (SC.Forward sc).
Proof.
  intros Hhi Hs. apply Forward_vhdlInv; [exact Hhi|]. intros Hc. contradiction.
Qed.

Ltac vhdl_inv :=
  unfold SC.ForwardSetState;
  repeat first
    [ assumption
    | apply SetState_vhdlInv
    | apply ChangeState_vhdlInv; [discriminate|]
    | apply Forward_vhdlInv_other;
      [assumption | rewrite ?Forward_state; cbn; (assumption || discriminate)|] ].

Lemma vhdl_terminate_other (kl : LexerWordList) (text : list Z) (lo hi p0 : Z)
    (sc : StyleContext) :
  state sc <> VHDL.SCE_VHDL_STRING ->
  hi <= Z.of_nat (List.length text) ->
  vhdlInv text lo hi p0 sc ->
  vhdlInv text lo hi p0 (VHDL.terminate kl sc)
  /\ state (VHDL.terminate kl sc) <> VHDL.SCE_VHDL_STRING.
Proof.
  intros Hs Hhi Hinv. unfold VHDL.terminate. cbv zeta.
  replace (state sc =? VHDL.SCE_VHDL_STRING) with false
    by (symmetry; apply Z.eqb_neq; exact Hs).
  break_tests; (split; [vhdl_inv |]);
    unfold SC.ForwardSetState; cbn; rewrite ?Forward_state;
    (assumption || discriminate).
Qed.

Lemma Forward_ch (sc : StyleContext) :
  currentPos sc < endPos sc ->
  ch (SC.Forward sc) = chNext sc /\ currentPos (SC.Forward sc) = currentPos sc + 1.
Proof.
  intros H. unfold SC.Forward. apply Z.ltb_lt in H. rewrite H. split; reflexivity.
Qed.

Lemma vhdl_terminate_string (kl : LexerWordList) (text : list Z) (lo hi p0 : Z)
    (sc : StyleContext) :
  state sc = VHDL.SCE_VHDL_STRING ->
  currentPos sc < endPos sc ->
  hi <= Z.of_nat (List.length text) ->
  vhdlInv text lo hi p0 sc ->
  vhdlInv text lo hi p0 (VHDL.terminate kl sc)
  /\ notOnLineEnd text (VHDL.terminate kl sc).
Proof.
  intros Hs Hlt Hhi Hinv.
  pose proof Hinv as (H1 & H2 & H3 & H4).
  assert (Hend : endPos sc = hi) by (unfold scInv in H1; tauto).
  assert (E : VHDL.terminate kl sc =
    if ch sc =? CH_BACKSLASH then
      if (chNext sc =? CH_DQUOTE) || (chNext sc =? CH_SQUOTE)
         || (chNext sc =? CH_BACKSLASH)
      then SC.Forward sc else sc
    else if ch sc =? CH_DQUOTE then SC.ForwardSetState VHDL.SCE_VHDL_DEFAULT sc
    else if atLineEnd sc then
      SC.ForwardSetState VHDL.SCE_VHDL_DEFAULT
        (SC.ChangeState VHDL.SCE_VHDL_STRINGEOL sc)
    else sc).
  { unfold VHDL.terminate. rewrite Hs. reflexivity. }
  rewrite E. clear E.
  destruct (Z.eqb_spec (ch sc) CH_BACKSLASH) as [Hb|Hb].
  - assert (Hn : notOnLineEnd text sc).
    { intros _ _. apply lineInv_char_not_end; [assumption..|]. rewrite Hb. reflexivity. }
    destruct (_ || _) eqn:Hq.
    + split; [apply Forward_vhdlInv; assumption|].
      intros _ Hlt'. destruct (Forward_ch sc Hlt) as [Fc Fp].
      apply lineInv_char_not_end; [|assumption|].
      * apply Forward_lineInv; [assumption | lia].
      * rewrite Fc. rewrite !orb_true_iff, !Z.eqb_eq in Hq.
        destruct Hq as [[-> | ->] | ->]; reflexivity.
    + split; assumption.
  - destruct (Z.eqb_spec (ch sc) CH_DQUOTE) as [Hq|Hq].
    + assert (Hn : notOnLineEnd text sc).
      { intros _ _. apply lineInv_char_not_end; [assumption..|]. rewrite Hq. reflexivity. }
      split.
      * unfold SC.ForwardSetState. apply SetState_vhdlInv, Forward_vhdlInv; assumption.
      * intros Hc. cbn in Hc. discriminate.
    + destruct (atLineEnd sc) eqn:Ha.
      * split; [vhdl_inv|]. intros Hc. cbn in Hc. discriminate.
      * split; [assumption|]. intros _ _.
        rewrite <- (lineInv_atLineEnd text sc) by (assumption || lia). exact Ha.
Qed.

Lemma vhdl_enter_inv (text : list Z) (lo hi p0 : Z) (sc : StyleContext) :
  vhdlInv text lo hi p0 sc ->
  notOnLineEnd text sc ->
  vhdlInv text lo hi p0 (VHDL.enter sc) /\ notOnLineEnd text (VHDL.enter sc).
Proof.
  intros Hinv Hn. unfold VHDL.enter.
  destruct (state sc =? VHDL.SCE_VHDL_DEFAULT) eqn:Hd; [|split; assumption].
  break_tests; (split; [vhdl_inv|]); try (intros Hc; cbn in Hc; discriminate).
  - intros _ Hlt.
    pose proof (SetState_vhdlInv text lo hi p0 VHDL.SCE_VHDL_STRING sc Hinv)
      as (_ & L & _).
    apply lineInv_char_not_end; [exact L | exact Hlt |].
    change (ch (SC.SetState VHDL.SCE_VHDL_STRING sc)) with (ch sc).
    match goal with H : (ch sc =? CH_DQUOTE) = true |- _ =>
      apply Z.eqb_eq in H; rewrite H end. reflexivity.
  - intros Hc. apply Z.eqb_eq in Hd. rewrite Hd in Hc. discriminate.
Qed.

Lemma vhdl_iteration_inv (kl : LexerWordList) (text : list Z) (lo hi p0 : Z)
    (sc : StyleContext) :
  hi <= Z.of_nat (List.length text) ->
  SC.More sc = true ->
  vhdlInv text lo hi p0 sc ->
  vhdlInv text lo hi p0 (VHDL.iteration kl sc)
  /\ currentPos sc < currentPos (VHDL.iteration kl sc).
Proof.
  intros Hhi Hmore Hinv. unfold SC.More in Hmore. apply Z.ltb_lt in Hmore.
  assert (Hhere : vhdlInv text lo hi (currentPos sc) sc).
  { destruct Hinv as (H1 & H2). split; [eapply scInv_here; exact H1 | exact H2]. }
  assert (Hp0 : p0 <= currentPos sc)
    by (destruct Hinv as (H1 & _); unfold scInv in H1; tauto).
  assert (Ht : vhdlInv text lo hi (currentPos sc) (VHDL.terminate kl sc)
               /\ notOnLineEnd text (VHDL.terminate kl sc)).
  { destruct (Z.eq_dec (state sc) VHDL.SCE_VHDL_STRING) as [Hs|Hs].
    - apply vhdl_terminate_string; assumption.
    - destruct (vhdl_terminate_other kl text lo hi (currentPos sc) sc Hs Hhi Hhere)
        as [T1 T2].
      split; [exact T1|]. intros Hc. contradiction. }
  destruct Ht as [T1 T2].
  destruct (vhdl_enter_inv text lo hi (currentPos sc) _ T1 T2) as [E1 E2].
  unfold VHDL.iteration.
  set (sc3 := VHDL.enter (VHDL.terminate kl sc)) in *.
  pose proof (Forward_vhdlInv text lo hi (currentPos sc) sc3 Hhi E2 E1) as F.
  split.
  - destruct F as (F1 & F2). split; [eapply scInv_weaken; eassumption | exact F2].
  - destruct (Forward_fields sc3) as (_ & _ & _ & _ & ->).
    destruct E1 as (S1 & _). unfold scInv in S1.
    destruct Hinv as (I1 & _). unfold scInv in I1.
    destruct (Z.ltb_spec (currentPos sc3) (endPos sc3)); lia.
Qed.

Lemma vhdl_loop_terminates (kl : LexerWordList) (text : list Z) (lo hi p0 : Z)
    (fuel : nat) (sc : StyleContext) :
  hi <= Z.of_nat (List.length text) ->
  vhdlInv text lo hi p0 sc ->
  hi - currentPos sc <= Z.of_nat fuel ->
  exists sc', VHDL.loop fuel kl sc = Some sc'
              /\ vhdlInv text lo hi p0 sc' /\ currentPos sc' = hi.
Proof.
  intros Hhi. revert sc. induction fuel as [|fuel IH]; intros sc Hinv Hm.
  - exists sc. pose proof Hinv as (H1 & _). unfold scInv in H1.
    cbn. unfold SC.More.
    replace (currentPos sc <? endPos sc) with false by (symmetry; apply Z.ltb_ge; lia).
    split; [reflexivity|]. split; [assumption | lia].
  - cbn [VHDL.loop]. destruct (SC.More sc) eqn:Hmore.
    + destruct (vhdl_iteration_inv kl text lo hi p0 sc Hhi Hmore Hinv) as [I1 I2].
      apply IH; [assumption | lia].
    + exists sc. split; [reflexivity|]. split; [assumption|].
      unfold SC.More in Hmore. apply Z.ltb_ge in Hmore.
      destruct Hinv as (H1 & _). unfold scInv in H1. lia.
Qed.



(** * Run contiguity *)

(** Claim C2.  Every pass of the Asymptote and of the VHDL colouriser over a
    range within the document ends, and the runs it produces tile the range:
    the first starts at the start of the range, each next one starts right
    after the end of the one before, none is empty, and the last ends at the
    end of the range; so starts increase strictly and there is no gap and no
    overlap. *)
Theorem runs_contiguous (kl : LexerWordList) (text : list Z)
    (startPos lengthDoc initStyle : Z)
    (Hstart : 0 <= startPos) (Hlen : 0 <= lengthDoc)
    (Hend : startPos + lengthDoc <= Z.of_nat (List.length text)) :
  (exists a',
      Asy.ColouriseAsyDoc startPos lengthDoc initStyle kl (openDocument text) = Some a'
      /\ tiles startPos (startPos + lengthDoc) (styleRuns a')
      /\ contiguous (styleRuns a'))
  /\ (exists a',
      VHDL.ColouriseVHDLDoc startPos lengthDoc initStyle kl (openDocument text) = Some a'
      /\ tiles startPos (startPos + lengthDoc) (styleRuns a')
      /\ contiguous (styleRuns a')).
Proof.
  split.
  - unfold Asy.ColouriseAsyDoc.
    destruct (asy_loop_terminates kl startPos (startPos + lengthDoc) startPos
                (Asy.enough lengthDoc)
                (Asy.start startPos lengthDoc initStyle (openDocument text)))
      as (l' & Hloop & [Hinv _] & Hpos).
    + split; [apply make_inv; assumption | cbn; discriminate].
    + unfold asyMeasure, Asy.enough. cbn. destruct (_ =? _); lia.
    + rewrite Hloop. eexists. split; [reflexivity|].
      apply Complete_covers in Hinv. rewrite Hpos in Hinv.
      apply covers_tiles in Hinv. split; [exact Hinv|].
      eapply tiles_contiguous. exact Hinv.
  - unfold VHDL.ColouriseVHDLDoc.
    destruct (vhdl_loop_terminates kl text startPos (startPos + lengthDoc) startPos
                (Z.to_nat lengthDoc)
                (SC.make startPos lengthDoc initStyle (openDocument text)))
      as (sc' & Hloop & (Hinv & _) & Hpos).
    + exact Hend.
    + unfold vhdlInv. split_all.
      * apply make_inv; assumption.
      * apply make_lineInv; assumption.
      * intros _ p Hp. cbn in Hp. lia.
      * intros s e Hin. cbn in Hin. contradiction.
    + cbn. lia.
    + rewrite Hloop. eexists. split; [reflexivity|].
      apply Complete_covers in Hinv. rewrite Hpos in Hinv.
      apply covers_tiles in Hinv. split; [exact Hinv|].
      eapply tiles_contiguous. exact Hinv.
Qed.

Lemma runs_contiguous_witness :
  (exists a',
      Asy.ColouriseAsyDoc 0 4 0 [] (openDocument (bytes "f(1)")) = Some a'
      /\ tiles 0 (0 + 4) (styleRuns a')
      /\ contiguous (styleRuns a'))
  /\ (exists a',
      VHDL.ColouriseVHDLDoc 0 4 0 [] (openDocument (bytes "f(1)")) = Some a'
      /\ tiles 0 (0 + 4) (styleRuns a')
      /\ contiguous (styleRuns a')).
Proof. apply (runs_contiguous [] (bytes "f(1)") 0 4 0); cbn; lia. Defined.


(** * The PowerShell colouriser: invariant and termination *)

Lemma ps_terminate_inv (kl : LexerWordList) (lo hi p0 : Z) (sc : StyleContext) :
  scInv lo hi p0 sc -> scInv lo hi p0 (PowerShell.terminate kl sc).
Proof.
  intros H. unfold PowerShell.terminate. cbv zeta.
  break_tests; auto 6 with scinv.
Qed.

Lemma ps_enter_inv (lo hi p0 : Z) (sc : StyleContext) :
  scInv lo hi p0 sc -> scInv lo hi p0 (PowerShell.enter sc).
Proof.
  intros H. unfold PowerShell.enter. break_tests; auto with scinv.
Qed.

Lemma ps_iteration_inv (kl : LexerWordList) (lo hi p0 : Z) (sc : StyleContext) :
  scInv lo hi p0 sc ->
  SC.More sc = true ->
  scInv lo hi p0 (PowerShell.iteration kl sc)
  /\ currentPos sc < currentPos (PowerShell.iteration kl sc).
Proof.
  intros H Hmore. unfold SC.More in Hmore. apply Z.ltb_lt in Hmore.
  pose proof (ps_enter_inv lo hi (currentPos sc) _
                (ps_terminate_inv kl lo hi (currentPos sc) sc
                   (scInv_here _ _ _ _ H))) as H1.
  assert (Hp0 : p0 <= currentPos sc) by (unfold scInv in H; tauto).
  assert (Hhi : endPos sc = hi) by (unfold scInv in H; tauto).
  unfold PowerShell.iteration.
  set (sc1 := PowerShell.enter (PowerShell.terminate kl sc)) in *.
  split.
  - eapply scInv_weaken; [exact Hp0|]. apply Forward_inv. exact H1.
  - destruct (Forward_fields sc1) as (_ & _ & _ & _ & ->).
    unfold scInv in H1.
    destruct (Z.ltb_spec (currentPos sc1) (endPos sc1)); lia.
Qed.

Lemma ps_loop_terminates (kl : LexerWordList) (lo hi p0 : Z) (fuel : nat)
    (sc : StyleContext) :
  scInv lo hi p0 sc ->
  endPos sc - currentPos sc <= Z.of_nat fuel ->
  exists sc', PowerShell.loop fuel kl sc = Some sc'
              /\ scInv lo hi p0 sc' /\ currentPos sc' = hi.
Proof.
  revert sc. induction fuel as [|fuel IH]; intros sc Hinv Hm.
  - cbn. destruct (SC.More sc) eqn:Hmore.
    + unfold SC.More in Hmore. apply Z.ltb_lt in Hmore. lia.
    + exists sc. split; [reflexivity|]. split; [assumption|].
      unfold SC.More in Hmore. apply Z.ltb_ge in Hmore. unfold scInv in Hinv. lia.
  - cbn [PowerShell.loop]. destruct (SC.More sc) eqn:Hmore.
    + destruct (ps_iteration_inv kl lo hi p0 sc Hinv Hmore) as [I1 I2].
      apply IH; [assumption|].
      assert (endPos (PowerShell.iteration kl sc) = endPos sc)
        by (unfold scInv in I1, Hinv; lia).
      lia.
    + exists sc. split; [reflexivity|]. split; [assumption|].
      unfold SC.More in Hmore. apply Z.ltb_ge in Hmore. unfold scInv in Hinv. lia.
Qed.

(** Property X1.  Every pass of the PowerShell colouriser over a range
    within the document ends, and the runs it commits tile the range: the
    first starts at the start of the range, each one is not empty and starts
    right after the one before, and the last ends at the end of the range. *)
Theorem ps_runs_contiguous (kl : LexerWordList) (text : list Z)
    (startPos length initStyle : Z)
    (Hstart : 0 <= startPos) (Hlen : 0 <= length)
    (Hend : startPos + length <= Z.of_nat (List.length text)) :
  exists a',
    PowerShell.ColourisePowerShellDoc startPos length initStyle kl (openDocument text)
    = Some a'
    /\ tiles startPos (startPos + length) (styleRuns a')
    /\ contiguous (styleRuns a').
Proof.
  unfold PowerShell.ColourisePowerShellDoc.
  destruct (ps_loop_terminates kl startPos (startPos + length) startPos
              (Z.to_nat length)
              (SC.make startPos length initStyle (openDocument text)))
    as (sc' & Hloop & Hinv & Hpos).
  - apply make_inv; assumption.
  - cbn. lia.
  - rewrite Hloop. eexists. split; [reflexivity|].
    apply Complete_covers in Hinv. rewrite Hpos in Hinv.
    apply covers_tiles in Hinv. split; [exact Hinv|].
    eapply tiles_contiguous. exact Hinv.
Qed.

Lemma ps_runs_contiguous_witness :
  exists a',
    PowerShell.ColourisePowerShellDoc 0 6 0 [] (openDocument (bytes "$a = 1"))
    = Some a'
    /\ tiles 0 (0 + 6) (styleRuns a')
    /\ contiguous (styleRuns a').
Proof. apply (ps_runs_contiguous [] (bytes "$a = 1") 0 6 0); cbn; lia. Defined.

(** * Resuming the PowerShell colouriser at a line start *)

Lemma Forward_withEnd (e : Z) (sc : StyleContext) :
  currentPos sc < e -> currentPos sc < endPos sc ->
  SC.Forward (withEnd e sc) = withEnd e (SC.Forward sc).
Proof.
  intros H1 H2. unfold SC.Forward, withEnd.
  cbn [currentPos endPos styler lengthDocument lineDocEnd currentLine lineStartNext
       atLineStart atLineEnd state chPrev ch chNext].
  destruct (Z.ltb_spec (currentPos sc) e); [|lia].
  destruct (Z.ltb_spec (currentPos sc) (endPos sc)); [|lia].
  reflexivity.
Qed.

Lemma SetState_withEnd (e s : Z) (sc : StyleContext) :
  SC.SetState s (withEnd e sc) = withEnd e (SC.SetState s sc).
Proof. reflexivity. Qed.

Lemma ChangeState_withEnd (e s : Z) (sc : StyleContext) :
  SC.ChangeState s (withEnd e sc) = withEnd e (SC.ChangeState s sc).
Proof. reflexivity. Qed.

Lemma ForwardSetState_withEnd (e s : Z) (sc : StyleContext) :
  currentPos sc < e -> currentPos sc < endPos sc ->
  SC.ForwardSetState s (withEnd e sc) = withEnd e (SC.ForwardSetState s sc).
Proof.
  intros H1 H2. unfold SC.ForwardSetState.
  rewrite Forward_withEnd by assumption. apply SetState_withEnd.
Qed.

Lemma ps_terminate_withEnd (kl : LexerWordList) (e : Z) (sc : StyleContext) :
  currentPos sc < e -> currentPos sc < endPos sc ->
  PowerShell.terminate kl (withEnd e sc) = withEnd e (PowerShell.terminate kl sc).
Proof.
  intros H1 H2. unfold PowerShell.terminate. cbv zeta.
  change (state (withEnd e sc)) with (state sc).
  change (ch (withEnd e sc)) with (ch sc).
  change (chPrev (withEnd e sc)) with (chPrev sc).
  change (atLineStart (withEnd e sc)) with (atLineStart sc).
  change (SC.GetCurrentLowered 128 (withEnd e sc)) with (SC.GetCurrentLowered 128 sc).
  rewrite !ForwardSetState_withEnd by assumption.
  break_tests; reflexivity.
Qed.

Lemma ps_enter_withEnd (e : Z) (sc : StyleContext) :
  PowerShell.enter (withEnd e sc) = withEnd e (PowerShell.enter sc).
Proof.
  unfold PowerShell.enter.
  change (state (withEnd e sc)) with (state sc).
  change (ch (withEnd e sc)) with (ch sc).
  change (chNext (withEnd e sc)) with (chNext sc).
  break_tests; reflexivity.
Qed.

Lemma SetState_lineInv (text : list Z) (s : Z) (sc : StyleContext) :
  lineInv text sc -> lineInv text (SC.SetState s sc).
Proof.
  unfold lineInv, SC.SetState. cbn. rewrite ColourTo_buf. auto.
Qed.

Lemma ChangeState_lineInv (text : list Z) (s : Z) (sc : StyleContext) :
  lineInv text sc -> lineInv text (SC.ChangeState s sc).
Proof. unfold lineInv. cbn. auto. Qed.

Lemma ForwardSetState_lineInv (text : list Z) (s : Z) (sc : StyleContext) :
  lineInv text sc -> endPos sc <= Z.of_nat (List.length text) ->
  lineInv text (SC.ForwardSetState s sc).
Proof.
  intros H Hle. apply SetState_lineInv, Forward_lineInv; assumption.
Qed.

Lemma ps_terminate_lineInv (kl : LexerWordList) (text : list Z) (sc : StyleContext) :
  lineInv text sc -> endPos sc <= Z.of_nat (List.length text) ->
  lineInv text (PowerShell.terminate kl sc).
Proof.
  intros H Hle. unfold PowerShell.terminate. cbv zeta.
  break_tests;
    auto using SetState_lineInv, ChangeState_lineInv, ForwardSetState_lineInv.
Qed.

Lemma ps_enter_lineInv (text : list Z) (sc : StyleContext) :
  lineInv text sc -> lineInv text (PowerShell.enter sc).
Proof.
  intros H. unfold PowerShell.enter. break_tests; auto using SetState_lineInv.
Qed.

Lemma ps_terminate_endPos (kl : LexerWordList) (sc : StyleContext) :
  endPos (PowerShell.terminate kl sc) = endPos sc.
Proof.
  unfold PowerShell.terminate, SC.ForwardSetState, SC.SetState. cbv zeta.
  break_tests; cbn; try reflexivity;
    destruct (Forward_fields sc) as (_ & E & _); exact E.
Qed.

Lemma ps_enter_fields (sc : StyleContext) :
  endPos (PowerShell.enter sc) = endPos sc
  /\ currentPos (PowerShell.enter sc) = currentPos sc
  /\ ch (PowerShell.enter sc) = ch sc
  /\ (IsEOLChar (ch sc) = true -> state (PowerShell.enter sc) = state sc).
Proof.
  unfold PowerShell.enter. split_all.
  1-3: break_tests; reflexivity.
  intros He. unfold IsEOLChar in He. apply orb_true_iff in He.
  destruct (state sc =? _); [|reflexivity].
  destruct He as [He|He]; apply Z.eqb_eq in He; rewrite He; reflexivity.
Qed.

Ltac ps_consts :=
  unfold PowerShell.SCE_POWERSHELL_DEFAULT, PowerShell.SCE_POWERSHELL_COMMENT,
    PowerShell.SCE_POWERSHELL_STRING_DQ, PowerShell.SCE_POWERSHELL_STRING_SQ,
    PowerShell.SCE_POWERSHELL_NUMBER, PowerShell.SCE_POWERSHELL_VARIABLE,
    PowerShell.SCE_POWERSHELL_OPERATOR, PowerShell.SCE_POWERSHELL_IDENTIFIER,
    PowerShell.SCE_POWERSHELL_KEYWORD, PowerShell.SCE_POWERSHELL_CMDLET,
    PowerShell.SCE_POWERSHELL_ALIAS, PowerShell.SCE_POWERSHELL_FUNCTION,
    PowerShell.SCE_POWERSHELL_USER1, PowerShell.SCE_POWERSHELL_COMMENTSTREAM in *.

(** What the [switch] does to the cursor: it stays, or it passes a
    character that does not end a line and the state is the default one. *)
Lemma ps_terminate_fields (kl : LexerWordList) (sc : StyleContext) :
  currentPos sc < endPos sc ->
  ((currentPos (PowerShell.terminate kl sc) = currentPos sc
    /\ ch (PowerShell.terminate kl sc) = ch sc)
   \/ (currentPos (PowerShell.terminate kl sc) = currentPos sc + 1
       /\ IsEOLChar (ch sc) = false
       /\ state (PowerShell.terminate kl sc) = PowerShell.SCE_POWERSHELL_DEFAULT))
  /\ (IsEOLChar (ch sc) = true ->
      state (PowerShell.terminate kl sc) <> PowerShell.SCE_POWERSHELL_IDENTIFIER).
Proof.
  intros Hlt. unfold PowerShell.terminate. cbv zeta.
  assert (Hf : forall s, currentPos (SC.ForwardSetState s sc) = currentPos sc + 1
                         /\ state (SC.ForwardSetState s sc) = s).
  { intros s. unfold SC.ForwardSetState, SC.SetState. cbn.
    destruct (Forward_fields sc) as (_ & _ & _ & _ & ->).
    destruct (Z.ltb_spec (currentPos sc) (endPos sc)); [auto | lia]. }
  assert (Hne : forall c, IsEOLChar c = false ->
                          forall x, IsEOLChar x = true -> (x =? c) = false).
  { intros c Hc x Hx. destruct (Z.eqb_spec x c); [congruence | reflexivity]. }
  split.
  - break_tests; try (left; split; reflexivity);
      right; (split; [apply Hf|]); (split; [|apply Hf]);
      (destruct (IsEOLChar (ch sc)) eqn:He; [exfalso|reflexivity]);
      repeat match goal with
        | H : (_ && _) = true |- _ => apply andb_true_iff in H; destruct H
        end;
      match goal with
      | H : (ch sc =? ?c) = true |- _ => rewrite (Hne c eq_refl _ He) in H
      end; discriminate.
  - intros He.
    assert (Hw : PowerShell.IsPSWordChar (ch sc) = false).
    { unfold IsEOLChar in He. apply orb_true_iff in He.
      destruct He as [E|E]; apply Z.eqb_eq in E; rewrite E; reflexivity. }
    rewrite Hw. cbn [negb].
    break_tests; cbn; try discriminate;
      repeat match goal with
        | H : (state sc =? _) = true |- _ => apply Z.eqb_eq in H
        | H : (state sc =? _) = false |- _ => apply Z.eqb_neq in H
        end; try congruence.
    all: try (unfold SC.ForwardSetState; cbn; discriminate).
    all: ps_consts; lia.
Qed.

Lemma ps_body_facts (kl : LexerWordList) (text : list Z) (lo hi : Z)
    (sc : StyleContext) :
  psInv text lo hi sc -> currentPos sc < hi ->
  let sc1 := PowerShell.enter (PowerShell.terminate kl sc) in
  scInv lo hi lo sc1
  /\ lineInv text sc1
  /\ endPos sc1 = hi
  /\ (currentPos sc1 = currentPos sc
      \/ (currentPos sc1 = currentPos sc + 1 /\ IsEOLChar (ch sc) = false))
  /\ (IsEOLChar (ch sc1) = true ->
      state sc1 <> PowerShell.SCE_POWERSHELL_IDENTIFIER).
Proof.
  intros (Hsc & Hline & Hhi & Hprev) Hlt sc1.
  assert (Hend : endPos sc = hi) by (unfold scInv in Hsc; tauto).
  pose proof (ps_terminate_fields kl sc ltac:(lia)) as [Hpos Hst].
  pose proof (ps_enter_fields (PowerShell.terminate kl sc)) as (E1 & E2 & E3 & E4).
  fold sc1 in E1, E2, E3, E4.
  split_all.
  - apply ps_enter_inv, ps_terminate_inv, Hsc.
  - apply ps_enter_lineInv, ps_terminate_lineInv; [exact Hline | lia].
  - rewrite E1, ps_terminate_endPos. exact Hend.
  - rewrite E2. destruct Hpos as [[P1 _]|(P1 & P2 & _)]; [left | right]; auto.
  - rewrite E3. intros He. rewrite (E4 He).
    destruct Hpos as [[_ P2]|(_ & _ & P3)].
    + apply Hst. rewrite <- P2. exact He.
    + rewrite P3. discriminate.
Qed.

Lemma ps_iteration_psInv (kl : LexerWordList) (text : list Z) (lo hi : Z)
    (sc : StyleContext) :
  psInv text lo hi sc -> currentPos sc < hi ->
  psInv text lo hi (PowerShell.iteration kl sc).
Proof.
  intros Hinv Hlt.
  pose proof (ps_body_facts kl text lo hi sc Hinv Hlt) as (B1 & B2 & B3 & B4 & B5).
  destruct Hinv as (Hsc & Hline & Hhi & Hprev).
  unfold PowerShell.iteration.
  set (sc1 := PowerShell.enter (PowerShell.terminate kl sc)) in *.
  assert (Hlo : lo <= currentPos sc) by (unfold scInv in Hsc; tauto).
  unfold psInv. split_all.
  - apply Forward_inv, B1.
  - apply Forward_lineInv; [exact B2 | lia].
  - exact Hhi.
  - intros Hrange.
    destruct (Forward_fields sc1) as (Fs & _ & _ & Fst & Fp).
    rewrite Fp in Hrange |- *. rewrite Fs, Fst.
    destruct (Z.ltb_spec (currentPos sc1) (endPos sc1)) as [Hlt1|Hge1].
    + assert (Ha : atLineStart (SC.Forward sc1) = atLineEnd sc1
                   /\ chPrev (SC.Forward sc1) = ch sc1).
      { unfold SC.Forward. destruct (Z.ltb_spec (currentPos sc1) (endPos sc1));
          [split; reflexivity | lia]. }
      destruct Ha as [-> ->].
      replace (currentPos sc1 + 1 - 1) with (currentPos sc1) by lia.
      split_all.
      * apply lineInv_atLineEnd; [exact B2 | exact Hlt1 | lia].
      * destruct B2 as (_ & _ & _ & _ & H). apply (H Hlt1).
      * unfold scInv in B1. lia.
      * exact B5.
    + unfold scInv in B1. lia.
Qed.

(** Up to the split offset [p], which starts a line, one turn of the loop
    does the same in the range that ends at [p] as in the whole range. *)
Lemma ps_iteration_withEnd (kl : LexerWordList) (text : list Z) (lo p hi : Z)
    (sc : StyleContext) :
  psInv text lo hi sc -> currentPos sc < p -> p <= hi ->
  isLineEnd text (p - 1) = true ->
  PowerShell.iteration kl (withEnd p sc) = withEnd p (PowerShell.iteration kl sc)
  /\ currentPos (PowerShell.iteration kl sc) <= p.
Proof.
  intros Hinv Hlt Hp Heol.
  pose proof (ps_body_facts kl text lo hi sc Hinv ltac:(lia)) as (B1 & B2 & B3 & B4 & B5).
  destruct Hinv as (Hsc & Hline & Hhi & Hprev).
  assert (Hend : endPos sc = hi) by (unfold scInv in Hsc; tauto).
  assert (Hpos1 : currentPos (PowerShell.enter (PowerShell.terminate kl sc)) < p).
  { destruct B4 as [->|[-> Hne]]; [exact Hlt|].
    destruct (Z.eq_dec (currentPos sc + 1) p) as [E|E]; [|lia]. exfalso.
    replace (p - 1) with (currentPos sc) in Heol by lia.
    apply isLineEnd_eol in Heol.
    destruct Hline as (_ & _ & _ & _ & H). destruct (H ltac:(lia)) as (Ec & _).
    rewrite <- Ec in Heol. congruence. }
  unfold PowerShell.iteration.
  rewrite ps_terminate_withEnd, ps_enter_withEnd by lia.
  rewrite Forward_withEnd by lia.
  split; [reflexivity|].
  destruct (Forward_fields (PowerShell.enter (PowerShell.terminate kl sc)))
    as (_ & _ & _ & _ & ->).
  destruct (_ <? _); lia.
Qed.

Lemma ps_loop_fuel (kl : LexerWordList) (fuel : nat) :
  forall (sc r : StyleContext) (fuel' : nat),
    PowerShell.loop fuel kl sc = Some r -> (fuel <= fuel')%nat ->
    PowerShell.loop fuel' kl sc = Some r.
Proof.
  induction fuel as [|fuel IH]; intros sc r fuel' H Hle.
  - cbn in H. destruct (SC.More sc) eqn:Hm; [discriminate|].
    destruct fuel'; cbn; rewrite Hm; exact H.
  - destruct fuel' as [|fuel']; [lia|].
    cbn [PowerShell.loop] in *. destruct (SC.More sc); [|exact H].
    apply IH; [exact H | lia].
Qed.

(** The one-pass run passes through the split offset, and up to there it is
    the run of the first of the two passes. *)
Lemma ps_loop_split (kl : LexerWordList) (text : list Z) (lo p hi : Z) :
  p <= hi -> isLineEnd text (p - 1) = true ->
  forall (fuelB fuelA : nat) (sc : StyleContext),
    psInv text lo hi sc -> currentPos sc <= p ->
    hi - currentPos sc <= Z.of_nat fuelA ->
    p - currentPos sc <= Z.of_nat fuelB ->
    exists (scP : StyleContext) (fuelA' : nat),
      psInv text lo hi scP /\ currentPos scP = p
      /\ PowerShell.loop fuelB kl (withEnd p sc) = Some (withEnd p scP)
      /\ PowerShell.loop fuelA kl sc = PowerShell.loop fuelA' kl scP
      /\ hi - p <= Z.of_nat fuelA'.
Proof.
  intros Hp Heol. induction fuelB as [|fuelB IH]; intros fuelA sc Hinv Hle HA HB.
  - exists sc, fuelA. assert (currentPos sc = p) by lia.
    split_all; try assumption; try lia; try reflexivity.
    cbn. unfold SC.More. cbn. destruct (Z.ltb_spec (currentPos sc) p); [lia|reflexivity].
  - destruct (Z.eq_dec (currentPos sc) p) as [E|E].
    + exists sc, fuelA. split_all; try assumption; try lia; try reflexivity.
      cbn [PowerShell.loop]. unfold SC.More. cbn [currentPos endPos withEnd].
      destruct (Z.ltb_spec (currentPos sc) p); [lia|reflexivity].
    + assert (Hlt : currentPos sc < p) by lia.
      destruct (ps_iteration_withEnd kl text lo p hi sc Hinv Hlt Hp Heol) as [Ew Hle'].
      pose proof (ps_iteration_psInv kl text lo hi sc Hinv ltac:(lia)) as Hinv'.
      assert (Hend : endPos sc = hi)
        by (destruct Hinv as (Hsc & _); unfold scInv in Hsc; tauto).
      assert (Hmore : SC.More sc = true)
        by (unfold SC.More; apply Z.ltb_lt; lia).
      destruct (ps_iteration_inv kl lo hi lo sc) as [_ Hgt];
        [destruct Hinv as (Hsc & _); exact Hsc | exact Hmore |].
      destruct fuelA as [|fuelA]; [lia|].
      destruct (IH fuelA (PowerShell.iteration kl sc) Hinv' Hle' ltac:(lia) ltac:(lia))
        as (scP & fuelA' & I1 & I2 & I3 & I4 & I5).
      exists scP, fuelA'. split_all; try assumption.
      * cbn [PowerShell.loop]. unfold SC.More at 1. cbn [currentPos endPos withEnd].
        destruct (Z.ltb_spec (currentPos sc) p); [|lia].
        rewrite Ew. exact I3.
      * cbn [PowerShell.loop]. rewrite Hmore. exact I4.
Qed.

Lemma StyleAt_ColourTo (a : Accessor) (pos st x : Z) :
  startSeg a - 1 <= pos ->
  StyleAt (ColourTo a pos st) x
  = if (startSeg a <=? x) && (x <=? pos) then st else StyleAt a x.
Proof.
  intros H. unfold ColourTo.
  destruct (Z.eqb_spec pos (startSeg a - 1)) as [E|E].
  - destruct (Z.leb_spec (startSeg a) x); destruct (Z.leb_spec x pos);
      cbn; try reflexivity; lia.
  - destruct (Z.ltb_spec pos (startSeg a)); [lia|].
    unfold StyleAt. cbn [segments find fst snd].
    destruct ((startSeg a <=? x) && (x <=? pos)); reflexivity.
Qed.

Lemma startSeg_ColourTo (a : Accessor) (pos st : Z) :
  startSeg a - 1 <= pos -> startSeg (ColourTo a pos st) = pos + 1.
Proof.
  intros H. unfold ColourTo.
  destruct (Z.eqb_spec pos (startSeg a - 1)); [lia|].
  destruct (Z.ltb_spec pos (startSeg a)); [lia | reflexivity].
Qed.

Lemma styleFn_SetState (s : Z) (sc : StyleContext) (x : Z) :
  startSeg (styler sc) <= currentPos sc -> currentPos sc <= lengthDocument sc ->
  startSeg (styler (SC.SetState s sc)) = currentPos sc
  /\ styleFn (SC.SetState s sc) x
     = if currentPos sc <=? x then s else styleFn sc x.
Proof.
  intros H1 H2. unfold styleFn, SC.SetState, SC.tokenEnd.
  cbn [styler state SC.ChangeState SC.with_styler].
  destruct (Z.gtb_spec (currentPos sc) (lengthDocument sc)); [lia|].
  rewrite startSeg_ColourTo by lia. rewrite StyleAt_ColourTo by lia.
  replace (currentPos sc - 1 + 1) with (currentPos sc) by lia.
  split; [reflexivity|].
  destruct (Z.leb_spec (currentPos sc) x); [reflexivity|].
  destruct (Z.leb_spec (startSeg (styler sc)) x);
    destruct (Z.leb_spec x (currentPos sc - 1)); cbn; try reflexivity; lia.
Qed.

Lemma Sim_SetState (s : Z) (a b : StyleContext) :
  psSim a b -> psSim (SC.SetState s a) (SC.SetState s b).
Proof.
  intros (H1 & H2 & H3 & H4 & H5 & H6 & H7 & H8 & H9 & H10 & H11 & H12 & H13
          & H14 & H15 & H16 & H17 & H18 & H19).
  pose proof (fun x => styleFn_SetState s a x H16 ltac:(lia)) as Ha.
  pose proof (fun x => styleFn_SetState s b x H17 ltac:(lia)) as Hb.
  unfold psSim. split_all; try assumption; try reflexivity.
  - unfold SC.SetState. cbn. rewrite !ColourTo_buf. exact H1.
  - intros x. rewrite (proj2 (Ha x)), (proj2 (Hb x)), H5, H14. reflexivity.
  - intros _. rewrite (proj1 (Ha 0)), (proj1 (Hb 0)). exact H5.
  - rewrite (proj1 (Ha 0)). cbn. lia.
  - rewrite (proj1 (Hb 0)). cbn. lia.
Qed.

Lemma Sim_ChangeState (s : Z) (a b : StyleContext) :
  psSim a b -> startSeg (styler a) = startSeg (styler b) ->
  s <> PowerShell.SCE_POWERSHELL_IDENTIFIER ->
  psSim (SC.ChangeState s a) (SC.ChangeState s b).
Proof.
  intros (H1 & H2 & H3 & H4 & H5 & H6 & H7 & H8 & H9 & H10 & H11 & H12 & H13
          & H14 & H15 & H16 & H17 & H18 & H19) Hseg Hs.
  unfold psSim. cbn. split_all; try assumption; try reflexivity.
  - intros x. specialize (H14 x). unfold styleFn in *. cbn.
    rewrite <- Hseg in *. destruct (startSeg (styler a) <=? x); [reflexivity | exact H14].
  - intros E. contradiction.
Qed.

Lemma Sim_Forward (a b : StyleContext) :
  psSim a b -> psSim (SC.Forward a) (SC.Forward b).
Proof.
  intros (H1 & H2 & H3 & H4 & H5 & H6 & H7 & H8 & H9 & H10 & H11 & H12 & H13
          & H14 & H15 & H16 & H17 & H18 & H19).
  unfold SC.Forward. rewrite <- H5, <- H2.
  destruct (Z.ltb_spec (currentPos a) (endPos a)).
  - unfold psSim, styleFn, LineStart, SafeGetCharAt in *.
    cbn [styler state endPos lengthDocument lineDocEnd currentPos currentLine
         lineStartNext atLineStart atLineEnd chPrev ch chNext].
    rewrite <- H1, <- H3, <- H4, <- H6, <- H7, <- H9, <- H10, <- H11, <- H12.
    split_all; try reflexivity; try assumption; try lia.
    intros x. specialize (H14 x). rewrite <- H10 in H14. exact H14.
  - unfold psSim, styleFn in *.
    cbn [styler state endPos lengthDocument lineDocEnd currentPos currentLine
         lineStartNext atLineStart atLineEnd chPrev ch chNext].
    split_all; try reflexivity; try assumption; lia.
Qed.

Lemma Sim_ForwardSetState (s : Z) (a b : StyleContext) :
  psSim a b -> psSim (SC.ForwardSetState s a) (SC.ForwardSetState s b).
Proof. intros H. apply Sim_SetState, Sim_Forward, H. Qed.

Lemma Sim_GetCurrentLowered (a b : StyleContext) :
  psSim a b -> startSeg (styler a) = startSeg (styler b) ->
  SC.GetCurrentLowered 128 b = SC.GetCurrentLowered 128 a.
Proof.
  intros (H1 & _ & _ & _ & H5 & _) Hseg.
  unfold SC.GetCurrentLowered, SC.GetCurrent, GetRange.
  rewrite <- H1, <- H5, <- Hseg. reflexivity.
Qed.

Lemma ps_terminate_sim (kl : LexerWordList) (a b : StyleContext) :
  psSim a b -> psSim (PowerShell.terminate kl a) (PowerShell.terminate kl b).
Proof.
  intros H.
  pose proof H as (H1 & H2 & H3 & H4 & H5 & H6 & H7 & H8 & H9 & H10 & H11 & H12
                   & H13 & H14 & H15 & H16 & H17 & H18 & H19).
  unfold PowerShell.terminate. cbv zeta.
  rewrite <- H8, <- H10, <- H11, <- H13.
  destruct (Z.eqb_spec (state a) PowerShell.SCE_POWERSHELL_IDENTIFIER) as [Eid|Nid].
  - rewrite (Sim_GetCurrentLowered a b H (H15 Eid)). rewrite Eid. cbn [Z.eqb Pos.eqb
      PowerShell.SCE_POWERSHELL_IDENTIFIER PowerShell.SCE_POWERSHELL_COMMENT
      PowerShell.SCE_POWERSHELL_COMMENTSTREAM PowerShell.SCE_POWERSHELL_STRING_DQ
      PowerShell.SCE_POWERSHELL_STRING_SQ PowerShell.SCE_POWERSHELL_NUMBER
      PowerShell.SCE_POWERSHELL_VARIABLE PowerShell.SCE_POWERSHELL_OPERATOR].
    break_tests; try assumption;
      apply Sim_SetState; try assumption;
      apply Sim_ChangeState; auto; discriminate.
  - break_tests; try assumption;
      auto using Sim_SetState, Sim_ForwardSetState.
Qed.

Lemma ps_enter_sim (a b : StyleContext) :
  psSim a b -> psSim (PowerShell.enter a) (PowerShell.enter b).
Proof.
  intros H.
  pose proof H as (H1 & H2 & H3 & H4 & H5 & H6 & H7 & H8 & H9 & H10 & H11 & H12
                   & H13 & H14 & H15 & H16 & H17 & H18 & H19).
  unfold PowerShell.enter. rewrite <- H10, <- H11, <- H12.
  break_tests; try assumption; apply Sim_SetState; assumption.
Qed.

Lemma ps_iteration_sim (kl : LexerWordList) (a b : StyleContext) :
  psSim a b -> psSim (PowerShell.iteration kl a) (PowerShell.iteration kl b).
Proof.
  intros H. unfold PowerShell.iteration.
  apply Sim_Forward, ps_enter_sim, ps_terminate_sim, H.
Qed.

Lemma ps_loop_sim (kl : LexerWordList) (fuel : nat) :
  forall a b ra : StyleContext,
    psSim a b -> PowerShell.loop fuel kl a = Some ra ->
    exists rb, PowerShell.loop fuel kl b = Some rb /\ psSim ra rb.
Proof.
  induction fuel as [|fuel IH]; intros a b ra H Hl.
  - cbn in *.
    assert (Hm : SC.More b = SC.More a).
    { unfold SC.More. destruct H as (_ & -> & _ & _ & -> & _). reflexivity. }
    rewrite Hm. destruct (SC.More a); [discriminate|].
    inversion Hl; subst. exists b. split; [reflexivity | exact H].
  - cbn [PowerShell.loop] in *.
    assert (Hm : SC.More b = SC.More a).
    { unfold SC.More. destruct H as (_ & -> & _ & _ & -> & _). reflexivity. }
    rewrite Hm. destruct (SC.More a).
    + apply (IH _ _ _ (ps_iteration_sim kl a b H) Hl).
    + inversion Hl; subst. exists b. split; [reflexivity | exact H].
Qed.

Lemma endAt_lt (l : list Z) (n : nat) : endAt l n = true -> (n < List.length l)%nat.
Proof.
  unfold endAt. intros H.
  destruct (Nat.lt_ge_cases n (List.length l)) as [Hlt|Hge]; [exact Hlt|].
  rewrite skipn_all2 in H by exact Hge. discriminate.
Qed.

(** The offset after the last character of a line is the start of its
    line. *)
Lemma LineStart_after_line_end (text : list Z) (p : Z) :
  isLineEnd text (p - 1) = true ->
  LineStart (openDocument text) (GetLine (openDocument text) p) = p
  /\ p <= Z.of_nat (List.length text).
Proof.
  unfold isLineEnd. intros H. apply andb_true_iff in H. destruct H as [H0 He].
  apply Z.leb_le in H0.
  pose proof (endAt_lt _ _ He) as Hlt.
  pose proof (lineStartFrom_next text 0 (Z.to_nat (p - 1)) Hlt) as Hn.
  cbv zeta in Hn. rewrite He in Hn.
  unfold LineStart, GetLine. cbn [buf openDocument].
  replace (Z.to_nat p) with (S (Z.to_nat (p - 1))) by lia.
  rewrite countLines_S, He.
  pose proof (countLines_nonneg text (Z.to_nat (p - 1))).
  destruct (Z.ltb_spec (countLines text (Z.to_nat (p - 1)) + 1) 0); [lia|].
  replace (Z.to_nat (countLines text (Z.to_nat (p - 1)) + 1))
    with (S (Z.to_nat (countLines text (Z.to_nat (p - 1))))) by lia.
  rewrite Hn. split; lia.
Qed.

(** The second pass starts like the one-pass run at the split offset. *)
Lemma ps_resume_sim (text : list Z) (lo p hi : Z) (scP : StyleContext) :
  psInv text lo hi scP -> currentPos scP = p -> lo < p < hi ->
  isLineEnd text (p - 1) = true ->
  let a1 := styler (SC.Complete (withEnd p scP)) in
  StyleAt a1 (p - 1) = state scP
  /\ psSim scP (SC.make p (hi - p) (StyleAt a1 (p - 1)) a1).
Proof.
  intros (Hsc & Hline & Hhi & Hprev) Hp Hrange Heol a1. subst p.
  destruct (Hprev ltac:(lia)) as (P1 & P2 & P3 & P4).
  pose proof Hsc as (S1 & S2 & S3 & S4 & S5 & S6).
  pose proof Hline as (L1 & L2 & L3 & L4 & L5).
  destruct (L5 ltac:(lia)) as (E1 & E2 & E3 & E4 & E5).
  destruct (LineStart_after_line_end text _ Heol) as [Hls _].
  assert (Ha1 : a1 = ColourTo (styler scP) (currentPos scP - 1) (state scP)).
  { unfold a1, SC.Complete, SC.tokenEnd. cbn.
    destruct (Z.gtb_spec (currentPos scP) (lengthDocument scP)); [lia|].
    reflexivity. }
  assert (Hst : StyleAt a1 (currentPos scP - 1) = state scP).
  { rewrite Ha1, StyleAt_ColourTo by lia.
    destruct (Z.leb_spec (startSeg (styler scP)) (currentPos scP - 1)); [|lia].
    rewrite Z.leb_refl. reflexivity. }
  split; [exact Hst|]. rewrite Hst.
  assert (Hbuf : buf a1 = text) by (rewrite Ha1, ColourTo_buf; exact L1).
  assert (Heolc : IsEOLChar (chPrev scP) = true).
  { rewrite P2. apply isLineEnd_eol, Heol. }
  unfold psSim, SC.make, Length, GetLine, LineStart, SafeGetCharAt.
  cbn [styler state endPos lengthDocument lineDocEnd currentPos currentLine
       lineStartNext atLineStart atLineEnd chPrev ch chNext buf startSeg
       StartSegment].
  rewrite Hbuf.
  change (countLines text (Z.to_nat (currentPos scP)))
    with (GetLine (openDocument text) (currentPos scP)).
  change (countLines text (Z.to_nat (Z.of_nat (List.length text))))
    with (GetLine (openDocument text) (Z.of_nat (List.length text))).
  assert (EL : forall line, (if line <? 0 then 0
                             else lineStartFrom text 0 (Z.to_nat line))
                            = LineStart (openDocument text) line) by reflexivity.
  rewrite !EL. rewrite <- !E3, <- L3, <- E4.
  split_all; try reflexivity; try assumption; try lia.
  - rewrite E3, Hls, Z.eqb_refl, P1. exact Heol.
  - unfold IsEOLChar in Heolc. apply orb_true_iff in Heolc.
    destruct Heolc as [E|E]; apply Z.eqb_eq in E; rewrite E; reflexivity.
  - intros x. unfold styleFn. cbn [styler state startSeg StartSegment].
    unfold StyleAt at 2. cbn [segments StartSegment].
    change (match find _ (segments a1) with Some r => r.2 | None => 0 end)
      with (StyleAt a1 x).
    rewrite Ha1, StyleAt_ColourTo by lia.
    destruct (Z.leb_spec (currentPos scP) x).
    + destruct (Z.leb_spec (startSeg (styler scP)) x); [reflexivity | lia].
    + destruct (Z.leb_spec (startSeg (styler scP)) x);
        destruct (Z.leb_spec x (currentPos scP - 1)); cbn; try reflexivity; lia.
  - intros E. exfalso. apply (P4 Heolc E).
Qed.

Lemma StyleAt_Complete (sc : StyleContext) (x : Z) :
  startSeg (styler sc) <= currentPos sc -> currentPos sc <= lengthDocument sc ->
  x < currentPos sc ->
  StyleAt (styler (SC.Complete sc)) x = styleFn sc x.
Proof.
  intros H1 H2 Hx. unfold SC.Complete, SC.tokenEnd, styleFn. cbn [styler SC.with_styler].
  destruct (Z.gtb_spec (currentPos sc) (lengthDocument sc)); [lia|].
  rewrite StyleAt_ColourTo by lia.
  destruct (Z.leb_spec (startSeg (styler sc)) x);
    destruct (Z.leb_spec x (currentPos sc - 1)); cbn; try reflexivity; lia.
Qed.

Lemma make_psInv (text : list Z) (lo hi initStyle : Z) :
  0 <= lo <= hi -> hi <= Z.of_nat (List.length text) ->
  psInv text lo hi (SC.make lo (hi - lo) initStyle (openDocument text)).
Proof.
  intros H1 H2. unfold psInv. split_all.
  - replace hi with (lo + (hi - lo)) at 1 by lia. apply make_inv; lia.
  - apply make_lineInv; lia.
  - exact H2.
  - cbn. lia.
Qed.

Lemma make_withEnd (lo p hi initStyle : Z) (a : Accessor) :
  SC.make lo (p - lo) initStyle a = withEnd p (SC.make lo (hi - lo) initStyle a).
Proof.
  unfold SC.make, withEnd. cbn. f_equal. lia.
Qed.

(** Property X2.  The PowerShell colouriser can be resumed at any line
    start: styling a range in one pass, and styling it in two passes split
    at an offset that starts a line, the second pass started with the style
    the first one gave to the character before the split, give every offset
    of the range the same style. *)
Theorem ps_resumable (kl : LexerWordList) (text : list Z)
    (lo p hi initStyle : Z)
    (Hlo : 0 <= lo < p) (Hhi : p < hi <= Z.of_nat (List.length text))
    (Heol : isLineEnd text (p - 1) = true) :
  exists a a1 a2,
    PowerShell.ColourisePowerShellDoc lo (hi - lo) initStyle kl (openDocument text)
    = Some a
    /\ PowerShell.ColourisePowerShellDoc lo (p - lo) initStyle kl (openDocument text)
       = Some a1
    /\ PowerShell.ColourisePowerShellDoc p (hi - p) (StyleAt a1 (p - 1)) kl a1
       = Some a2
    /\ forall pos, pos < hi -> StyleAt a2 pos = StyleAt a pos.
Proof.
  pose proof (make_psInv text lo hi initStyle ltac:(lia) ltac:(lia)) as Hinv0.
  destruct (ps_loop_split kl text lo p hi ltac:(lia) Heol
              (Z.to_nat (p - lo)) (Z.to_nat (hi - lo)) _ Hinv0)
    as (scP & fuelA' & I1 & I2 & I3 & I4 & I5); try (cbn; lia).
  pose proof I1 as (Hsc & _).
  destruct (ps_loop_terminates kl lo hi lo (Z.to_nat (hi - p)) scP Hsc)
    as (rA & LA & InvA & PA).
  { unfold scInv in Hsc. lia. }
  pose proof (ps_loop_fuel kl _ _ _ fuelA' LA ltac:(lia)) as LA'.
  destruct (ps_resume_sim text lo p hi scP I1 I2 ltac:(lia) Heol) as [Hst Hsim].
  cbv zeta in Hst, Hsim.
  destruct (ps_loop_sim kl _ _ _ _ Hsim LA) as (rB & LB & SimR).
  unfold PowerShell.ColourisePowerShellDoc.
  rewrite I4, LA'. rewrite (make_withEnd lo p hi), I3.
  eexists. eexists. eexists. split; [reflexivity|]. split; [reflexivity|].
  rewrite LB. split; [reflexivity|].
  intros pos Hpos.
  destruct SimR as (_ & _ & H3 & _ & H5 & _ & _ & _ & _ & _ & _ & _ & _ & H14 & _
                    & H16 & H17 & H18 & H19).
  rewrite !StyleAt_Complete; try lia. symmetry. apply H14.
Qed.

Lemma ps_resumable_witness :
  exists a a1 a2,
    PowerShell.ColourisePowerShellDoc 0 (8 - 0) 0 []
      (openDocument (bytes "#a" ++ [CH_LF] ++ bytes "$b={}")) = Some a
    /\ PowerShell.ColourisePowerShellDoc 0 (3 - 0) 0 []
         (openDocument (bytes "#a" ++ [CH_LF] ++ bytes "$b={}")) = Some a1
    /\ PowerShell.ColourisePowerShellDoc 3 (8 - 3) (StyleAt a1 (3 - 1)) [] a1
       = Some a2
    /\ forall pos, pos < 8 -> StyleAt a2 pos = StyleAt a pos.
Proof.
  apply (ps_resumable [] (bytes "#a" ++ [CH_LF] ++ bytes "$b={}") 0 3 8 0);
    [lia | cbn; lia | reflexivity].
Defined.


(** * Letter case *)

Ltac char_codes :=
  change (C "A") with 65 in *; change (C "Z") with 90 in *;
  change (C "a") with 97 in *; change (C "z") with 122 in *;
  change (C "0") with 48 in *; change (C "9") with 57 in *.

Ltac bool_hyps :=
  repeat match goal with
    | H : (_ && _) = true |- _ => apply andb_true_iff in H; destruct H
    | H : (_ && _) = false |- _ => apply andb_false_iff in H; destruct H
    | H : (_ || _) = true |- _ => apply orb_true_iff in H; destruct H
    | H : (_ || _) = false |- _ => apply orb_false_iff in H; destruct H
    | H : (_ <=? _) = true |- _ => apply Z.leb_le in H
    | H : (_ <=? _) = false |- _ => apply Z.leb_gt in H
    | H : (_ <? _) = true |- _ => apply Z.ltb_lt in H
    | H : (_ <? _) = false |- _ => apply Z.ltb_ge in H
    | H : (_ =? _) = true |- _ => apply Z.eqb_eq in H
    | H : (_ =? _) = false |- _ => apply Z.eqb_neq in H
    end.

Ltac bool_cases :=
  intros; break_inner; bool_hyps;
  repeat match goal with
    | |- context [?x <=? ?y] => destruct (Z.leb_spec x y)
    | |- context [?x <? ?y] => destruct (Z.ltb_spec x y)
    | |- context [?x =? ?y] => destruct (Z.eqb_spec x y)
    | |- context [?x >=? ?y] => rewrite (Z.geb_leb x y)
    end; cbn [andb orb negb] in *; intros; try discriminate; try reflexivity;
  try lia; try (exfalso; lia).

Lemma lower_eqb (c x : Z) :
  IsAlpha x = false -> (MakeLowerCase c =? x) = (c =? x).
Proof.
  unfold IsAlpha, MakeLowerCase, IsUpperCase, IsLowerCase. char_codes.
  bool_cases.
Qed.

Lemma lower_IsUpperCase (c : Z) : IsUpperCase (MakeLowerCase c) = false.
Proof. unfold MakeLowerCase, IsUpperCase. char_codes. bool_cases. Qed.

Lemma lower_IsLowerCase (c : Z) : IsLowerCase (MakeLowerCase c) = IsAlpha c.
Proof. unfold MakeLowerCase, IsAlpha, IsUpperCase, IsLowerCase. char_codes. bool_cases. Qed.

Lemma lower_IsAlpha (c : Z) : IsAlpha (MakeLowerCase c) = IsAlpha c.
Proof.
  unfold IsAlpha at 1. rewrite lower_IsUpperCase, lower_IsLowerCase. reflexivity.
Qed.

Lemma lower_IsADigit (c : Z) : IsADigit (MakeLowerCase c) = IsADigit c.
Proof. unfold MakeLowerCase, IsADigit, IsUpperCase. char_codes. bool_cases. Qed.

Lemma lower_IsAlphaNumeric (c : Z) : IsAlphaNumeric (MakeLowerCase c) = IsAlphaNumeric c.
Proof. unfold IsAlphaNumeric. rewrite lower_IsAlpha, lower_IsADigit. reflexivity. Qed.

Lemma lower_idem (c : Z) : MakeLowerCase (MakeLowerCase c) = MakeLowerCase c.
Proof. unfold MakeLowerCase at 1. rewrite lower_IsUpperCase. reflexivity. Qed.

Lemma lower_iswordchar (c : Z) : iswordchar (MakeLowerCase c) = iswordchar c.
Proof.
  unfold iswordchar. rewrite lower_IsAlphaNumeric, !lower_eqb by reflexivity.
  reflexivity.
Qed.

Lemma lower_iswordstart (c : Z) : iswordstart (MakeLowerCase c) = iswordstart c.
Proof.
  unfold iswordstart. rewrite lower_IsAlphaNumeric, !lower_eqb by reflexivity.
  reflexivity.
Qed.

Lemma lower_isoperator (c : Z) : isoperator (MakeLowerCase c) = isoperator c.
Proof.
  unfold isoperator. rewrite lower_IsAlphaNumeric.
  destruct (IsAlphaNumeric c); [reflexivity|].
  cbn [bytes map list_ascii_of_string existsb].
  rewrite !lower_eqb by reflexivity. reflexivity.
Qed.

Lemma lower_IsNumberStart (c d : Z) :
  IsNumberStart (MakeLowerCase c) (MakeLowerCase d) = IsNumberStart c d.
Proof.
  unfold IsNumberStart. rewrite !lower_IsADigit, lower_eqb by reflexivity.
  reflexivity.
Qed.

Lemma lower_IsPSWordChar (c : Z) :
  PowerShell.IsPSWordChar (MakeLowerCase c) = PowerShell.IsPSWordChar c.
Proof.
  unfold PowerShell.IsPSWordChar.
  rewrite lower_IsAlphaNumeric, !lower_eqb by reflexivity.
  f_equal. f_equal. f_equal.
  unfold MakeLowerCase, IsUpperCase. char_codes. bool_cases.
Qed.

Lemma lower_charAt (l : list Z) (pos : Z) :
  charAt (map MakeLowerCase l) pos = MakeLowerCase (charAt l pos).
Proof.
  unfold charAt. destruct (pos <? 0); [reflexivity|].
  change 0 with (MakeLowerCase 0) at 1. apply map_nth.
Qed.

Lemma lower_endsLine (c : Z) (rest : list Z) :
  endsLine (MakeLowerCase c) (map MakeLowerCase rest) = endsLine c rest.
Proof.
  unfold endsLine. rewrite lower_charAt, !lower_eqb by reflexivity. reflexivity.
Qed.

Lemma lower_countLines (l : list Z) (n : nat) :
  countLines (map MakeLowerCase l) n = countLines l n.
Proof.
  revert n. induction l as [|c rest IH]; intros [|n]; cbn [map countLines];
    try reflexivity.
  rewrite lower_endsLine, IH. reflexivity.
Qed.

Lemma lower_lineStartFrom (l : list Z) :
  forall (pos : Z) (line : nat),
    lineStartFrom (map MakeLowerCase l) pos line = lineStartFrom l pos line.
Proof.
  induction l as [|c rest IH]; intros pos [|k]; cbn [map lineStartFrom];
    try reflexivity.
  rewrite lower_endsLine, !IH. reflexivity.
Qed.

Lemma lower_GetLine (a : Accessor) (pos : Z) : GetLine (lowerA a) pos = GetLine a pos.
Proof. unfold GetLine. cbn [buf lowerA]. apply lower_countLines. Qed.

Lemma lower_LineStart (a : Accessor) (line : Z) :
  LineStart (lowerA a) line = LineStart a line.
Proof.
  unfold LineStart. cbn [buf lowerA]. rewrite lower_lineStartFrom. reflexivity.
Qed.

Lemma lower_SafeGetCharAt (a : Accessor) (pos : Z) :
  SafeGetCharAt (lowerA a) pos = MakeLowerCase (SafeGetCharAt a pos).
Proof. unfold SafeGetCharAt. cbn [buf lowerA]. apply lower_charAt. Qed.

Lemma lower_Length (a : Accessor) : Length (lowerA a) = Length a.
Proof. unfold Length. cbn [buf lowerA]. rewrite length_map. reflexivity. Qed.

Lemma lower_make (startPos length initStyle : Z) (a : Accessor) :
  SC.make startPos length initStyle (lowerA a)
  = lowerSC (SC.make startPos length initStyle a).
Proof.
  unfold SC.make.
  change (StartSegment (lowerA a) startPos) with (lowerA (StartSegment a startPos)).
  rewrite !lower_GetLine, !lower_LineStart, !lower_SafeGetCharAt, !lower_Length.
  reflexivity.
Qed.

Lemma lower_Forward (sc : StyleContext) :
  SC.Forward (lowerSC sc) = lowerSC (SC.Forward sc).
Proof.
  unfold SC.Forward.
  change (currentPos (lowerSC sc)) with (currentPos sc).
  change (endPos (lowerSC sc)) with (endPos sc).
  destruct (currentPos sc <? endPos sc).
  - unfold lowerSC.
    cbn [styler endPos lengthDocument lineDocEnd currentPos currentLine
         lineStartNext atLineStart atLineEnd state chPrev ch chNext].
    rewrite !lower_LineStart, !lower_SafeGetCharAt. reflexivity.
  - reflexivity.
Qed.

Lemma lower_ColourTo (a : Accessor) (pos st : Z) :
  ColourTo (lowerA a) pos st = lowerA (ColourTo a pos st).
Proof.
  unfold ColourTo. cbn [startSeg lowerA]. break_tests; reflexivity.
Qed.

Lemma lower_ChangeState (s : Z) (sc : StyleContext) :
  SC.ChangeState s (lowerSC sc) = lowerSC (SC.ChangeState s sc).
Proof. reflexivity. Qed.

Lemma lower_SetState (s : Z) (sc : StyleContext) :
  SC.SetState s (lowerSC sc) = lowerSC (SC.SetState s sc).
Proof.
  unfold SC.SetState, SC.with_styler, SC.ChangeState, SC.tokenEnd.
  cbn [styler endPos lengthDocument lineDocEnd currentPos currentLine
       lineStartNext atLineStart atLineEnd state chPrev ch chNext lowerSC].
  rewrite lower_ColourTo. reflexivity.
Qed.

Lemma lower_ForwardSetState (s : Z) (sc : StyleContext) :
  SC.ForwardSetState s (lowerSC sc) = lowerSC (SC.ForwardSetState s sc).
Proof. unfold SC.ForwardSetState. rewrite lower_Forward. apply lower_SetState. Qed.

Lemma lower_Complete (sc : StyleContext) :
  styler (SC.Complete (lowerSC sc)) = lowerA (styler (SC.Complete sc)).
Proof.
  unfold SC.Complete, SC.with_styler, SC.tokenEnd.
  cbn [styler lengthDocument currentPos state lowerSC]. apply lower_ColourTo.
Qed.

Lemma map_skipn_lower (n : nat) (l : list Z) :
  skipn n (map MakeLowerCase l) = map MakeLowerCase (skipn n l).
Proof. revert l. induction n; intros [|c l]; cbn; auto. Qed.

Lemma map_firstn_lower (n : nat) (l : list Z) :
  firstn n (map MakeLowerCase l) = map MakeLowerCase (firstn n l).
Proof. revert l. induction n; intros [|c l]; cbn; auto. f_equal. auto. Qed.

Lemma lower_GetCurrentLowered (len : Z) (sc : StyleContext) :
  SC.GetCurrentLowered len (lowerSC sc) = SC.GetCurrentLowered len sc.
Proof.
  unfold SC.GetCurrentLowered, SC.GetCurrent, GetRange.
  cbn [styler currentPos lowerSC startSeg buf lowerA].
  rewrite map_skipn_lower, !map_firstn_lower, map_map.
  apply map_ext. intros c. apply lower_idem.
Qed.

Ltac lower_fields sc :=
  change (state (lowerSC sc)) with (state sc);
  change (ch (lowerSC sc)) with (MakeLowerCase (ch sc));
  change (chNext (lowerSC sc)) with (MakeLowerCase (chNext sc));
  change (chPrev (lowerSC sc)) with (MakeLowerCase (chPrev sc));
  change (atLineStart (lowerSC sc)) with (atLineStart sc);
  change (atLineEnd (lowerSC sc)) with (atLineEnd sc);
  change (currentPos (lowerSC sc)) with (currentPos sc);
  change (styler (lowerSC sc)) with (lowerA (styler sc));
  rewrite ?lower_GetCurrentLowered, ?lower_ForwardSetState, ?lower_SetState,
    ?lower_ChangeState, ?lower_SafeGetCharAt, ?lower_IsNumberStart,
    ?lower_iswordchar, ?lower_iswordstart, ?lower_isoperator, ?lower_IsADigit,
    ?lower_IsPSWordChar;
  rewrite ?lower_eqb by reflexivity.

Lemma lower_ps_terminate (kl : LexerWordList) (sc : StyleContext) :
  PowerShell.terminate kl (lowerSC sc) = lowerSC (PowerShell.terminate kl sc).
Proof.
  unfold PowerShell.terminate. cbv zeta. lower_fields sc.
  break_tests; rewrite ?lower_SetState; reflexivity.
Qed.

Lemma lower_ps_enter (sc : StyleContext) :
  PowerShell.enter (lowerSC sc) = lowerSC (PowerShell.enter sc).
Proof.
  unfold PowerShell.enter. lower_fields sc. break_tests; reflexivity.
Qed.

Lemma lower_ps_loop (kl : LexerWordList) (fuel : nat) :
  forall sc, PowerShell.loop fuel kl (lowerSC sc)
             = option_map lowerSC (PowerShell.loop fuel kl sc).
Proof.
  induction fuel as [|fuel IH]; intros sc; cbn [PowerShell.loop];
    change (SC.More (lowerSC sc)) with (SC.More sc);
    destruct (SC.More sc); try reflexivity.
  unfold PowerShell.iteration.
  rewrite lower_ps_terminate, lower_ps_enter, lower_Forward. apply IH.
Qed.

Lemma lower_vhdl_terminate (kl : LexerWordList) (sc : StyleContext) :
  VHDL.terminate kl (lowerSC sc) = lowerSC (VHDL.terminate kl sc).
Proof.
  unfold VHDL.terminate, SC.Match2. cbv zeta. lower_fields sc.
  change (SC.Forward (lowerSC sc)) with (SC.Forward (lowerSC sc)).
  rewrite ?lower_Forward, ?lower_ForwardSetState.
  break_tests; rewrite ?lower_SetState, ?lower_ForwardSetState; reflexivity.
Qed.

Lemma lower_vhdl_enter (sc : StyleContext) :
  VHDL.enter (lowerSC sc) = lowerSC (VHDL.enter sc).
Proof.
  unfold VHDL.enter, SC.Match2, SC.GetRelative. lower_fields sc.
  break_tests; reflexivity.
Qed.

Lemma lower_vhdl_loop (kl : LexerWordList) (fuel : nat) :
  forall sc, VHDL.loop fuel kl (lowerSC sc)
             = option_map lowerSC (VHDL.loop fuel kl sc).
Proof.
  induction fuel as [|fuel IH]; intros sc; cbn [VHDL.loop];
    change (SC.More (lowerSC sc)) with (SC.More sc);
    destruct (SC.More sc); try reflexivity.
  unfold VHDL.iteration.
  rewrite lower_vhdl_terminate, lower_vhdl_enter, lower_Forward. apply IH.
Qed.

(** Property X3.  The VHDL colouriser does not look at letter case: two
    texts that are equal once put in lower case get the same style runs,
    for every range, initial style and keyword lists. *)
Theorem vhdl_case_insensitive (kl : LexerWordList) (text1 text2 : list Z)
    (startPos length initStyle : Z) :
  map MakeLowerCase text1 = map MakeLowerCase text2 ->
  option_map styleRuns
    (VHDL.ColouriseVHDLDoc startPos length initStyle kl (openDocument text1))
  = option_map styleRuns
      (VHDL.ColouriseVHDLDoc startPos length initStyle kl (openDocument text2)).
Proof.
  intros H.
  assert (E : forall text,
    option_map styleRuns
      (VHDL.ColouriseVHDLDoc startPos length initStyle kl (openDocument text))
    = option_map styleRuns
        (VHDL.ColouriseVHDLDoc startPos length initStyle kl
           (openDocument (map MakeLowerCase text)))).
  { intros text. unfold VHDL.ColouriseVHDLDoc.
    change (openDocument (map MakeLowerCase text)) with (lowerA (openDocument text)).
    rewrite lower_make, lower_vhdl_loop.
    destruct (VHDL.loop _ kl _) as [sc|]; [|reflexivity].
    cbn [option_map]. rewrite lower_Complete. reflexivity. }
  rewrite (E text1), (E text2), H. reflexivity.
Qed.

Lemma vhdl_case_insensitive_witness :
  option_map styleRuns
    (VHDL.ColouriseVHDLDoc 0 10 0 [[bytes "entity"]]
       (openDocument (bytes "ENTITY e;")))
  = option_map styleRuns
      (VHDL.ColouriseVHDLDoc 0 10 0 [[bytes "entity"]]
         (openDocument (bytes "entity E;"))).
Proof.
  apply (vhdl_case_insensitive [[bytes "entity"]] (bytes "ENTITY e;")
           (bytes "entity E;") 0 10 0).
  reflexivity.
Defined.

(** Property X4.  The PowerShell colouriser does not look at letter case:
    two texts that are equal once put in lower case get the same style
    runs, for every range, initial style and keyword lists. *)
Theorem ps_case_insensitive (kl : LexerWordList) (text1 text2 : list Z)
    (startPos length initStyle : Z) :
  map MakeLowerCase text1 = map MakeLowerCase text2 ->
  option_map styleRuns
    (PowerShell.ColourisePowerShellDoc startPos length initStyle kl
       (openDocument text1))
  = option_map styleRuns
      (PowerShell.ColourisePowerShellDoc startPos length initStyle kl
         (openDocument text2)).
Proof.
  intros H.
  assert (E : forall text,
    option_map styleRuns
      (PowerShell.ColourisePowerShellDoc startPos length initStyle kl
         (openDocument text))
    = option_map styleRuns
        (PowerShell.ColourisePowerShellDoc startPos length initStyle kl
           (openDocument (map MakeLowerCase text)))).
  { intros text. unfold PowerShell.ColourisePowerShellDoc.
    change (openDocument (map MakeLowerCase text)) with (lowerA (openDocument text)).
    rewrite lower_make, lower_ps_loop.
    destruct (PowerShell.loop _ kl _) as [sc|]; [|reflexivity].
    cbn [option_map]. rewrite lower_Complete. reflexivity. }
  rewrite (E text1), (E text2), H. reflexivity.
Qed.

Lemma ps_case_insensitive_witness :
  option_map styleRuns
    (PowerShell.ColourisePowerShellDoc 0 7 0 [[bytes "foreach"]]
       (openDocument (bytes "ForEach")))
  = option_map styleRuns
      (PowerShell.ColourisePowerShellDoc 0 7 0 [[bytes "foreach"]]
         (openDocument (bytes "FOREACH"))).
Proof.
  apply (ps_case_insensitive [[bytes "foreach"]] (bytes "ForEach")
           (bytes "FOREACH") 0 7 0).
  reflexivity.
Defined.

(** * VHDL: styles the colouriser has no case for *)

Lemma vhdl_iteration_unhandled (kl : LexerWordList) (sc : StyleContext) :
  vhdlHandled (state sc) = false -> VHDL.iteration kl sc = SC.Forward sc.
Proof.
  unfold vhdlHandled. intros H.
  repeat (apply orb_false_iff in H; destruct H as [H ?]).
  unfold VHDL.iteration, VHDL.terminate, VHDL.enter. cbv zeta.
  repeat (progress
            (repeat match goal with
               | E : (state sc =? _) = false |- _ => rewrite E
               end;
             cbn [orb]; cbv beta iota)).
  reflexivity.
Qed.

Lemma vhdl_loop_unhandled (kl : LexerWordList) (fuel : nat) :
  forall sc : StyleContext,
    vhdlHandled (state sc) = false ->
    endPos sc - currentPos sc <= Z.of_nat fuel ->
    exists sc', VHDL.loop fuel kl sc = Some sc'
                /\ styler sc' = styler sc /\ state sc' = state sc
                /\ lengthDocument sc' = lengthDocument sc
                /\ currentPos sc' = Z.max (currentPos sc) (endPos sc).
Proof.
  induction fuel as [|fuel IH]; intros sc Hs Hm.
  - cbn. unfold SC.More. destruct (Z.ltb_spec (currentPos sc) (endPos sc)); [lia|].
    exists sc. split_all; try reflexivity. lia.
  - cbn [VHDL.loop]. unfold SC.More.
    destruct (Z.ltb_spec (currentPos sc) (endPos sc)) as [Hlt|Hge].
    + rewrite vhdl_iteration_unhandled by exact Hs.
      destruct (Forward_fields sc) as (F1 & F2 & F3 & F4 & F5).
      destruct (Z.ltb_spec (currentPos sc) (endPos sc)); [|lia].
      destruct (IH (SC.Forward sc)) as (sc' & L & E1 & E2 & E3 & E4).
      * rewrite F4. exact Hs.
      * rewrite F2, F5. lia.
      * exists sc'. rewrite L, E1, E2, E3, E4, F1, F2, F3, F4, F5.
        split_all; try reflexivity. lia.
    + exists sc. split_all; try reflexivity. lia.
Qed.

(** Property X5.  [ColouriseVHDLDoc] has no case for the string-EOL style
    nor for the word styles (nor for any code that is not a VHDL style): a
    pass started in such a style never leaves it, and commits the whole
    range as one run of that style. *)
Theorem vhdl_unhandled_style_sticks (kl : LexerWordList) (text : list Z)
    (startPos length initStyle : Z)
    (Hstart : 0 <= startPos) (Hlen : 0 < length)
    (Hend : startPos + length <= Z.of_nat (List.length text))
    (Hstyle : vhdlHandled initStyle = false) :
  option_map styleRuns
    (VHDL.ColouriseVHDLDoc startPos length initStyle kl (openDocument text))
  = Some [(startPos, startPos + length - 1, initStyle)].
Proof.
  unfold VHDL.ColouriseVHDLDoc.
  destruct (vhdl_loop_unhandled kl (Z.to_nat length)
              (SC.make startPos length initStyle (openDocument text)))
    as (sc' & L & E1 & E2 & E3 & E4).
  - exact Hstyle.
  - cbn. lia.
  - rewrite L. cbn [option_map]. f_equal.
    unfold SC.Complete, SC.tokenEnd, styleRuns. cbn [styler SC.with_styler].
    rewrite E1, E2, E3, E4. cbn [SC.make currentPos endPos lengthDocument styler state].
    unfold Length. cbn [buf openDocument StartSegment].
    replace (Z.max startPos (startPos + length)) with (startPos + length) by lia.
    destruct (Z.gtb_spec (startPos + length) (Z.of_nat (List.length text))); [lia|].
    unfold ColourTo. cbn [startSeg segments StartSegment openDocument].
    destruct (Z.eqb_spec (startPos + length - 1) (startPos - 1)); [lia|].
    destruct (Z.ltb_spec (startPos + length - 1) startPos); [lia|].
    reflexivity.
Qed.

Lemma vhdl_unhandled_style_sticks_witness :
  option_map styleRuns
    (VHDL.ColouriseVHDLDoc 0 5 VHDL.SCE_VHDL_STRINGEOL []
       (openDocument (bytes "a <= b;")))
  = Some [(0, 0 + 5 - 1, VHDL.SCE_VHDL_STRINGEOL)].
Proof.
  apply (vhdl_unhandled_style_sticks [] (bytes "a <= b;") 0 5
           VHDL.SCE_VHDL_STRINGEOL); [lia | lia | cbn; lia | reflexivity].
Defined.


(** * CMake bracket arguments *)

Lemma scanEquals_spec (l : list Z) :
  forall off : Z,
    0 <= off -> off + Z.of_nat (List.length l) <= INT_MAX ->
    exists k : nat,
      CMakeLexer.scanEquals l off = (nth k l 0, off + Z.of_nat k)
      /\ (forall i, (i < k)%nat -> nth i l 0 = C "=")
      /\ nth k l 0 <> C "=".
Proof.
  induction l as [|c rest IH]; intros off H0 Hmax.
  - exists 0%nat. cbn. split_all; [f_equal; lia | intros; lia | discriminate].
  - cbn [CMakeLexer.scanEquals]. destruct (Z.eqb_spec c (C "=")) as [E|E].
    + cbn [List.length] in Hmax.
      assert (Hi : incr off = off + 1).
      { apply incr_small. unfold INT_MIN, INT_MAX in *. lia. }
      destruct (IH (incr off)) as (k & K1 & K2 & K3); [lia | lia |].
      exists (S k). cbn [nth]. rewrite K1, Hi. split_all.
      * f_equal. lia.
      * intros [|i] Hi'; [exact E | apply K2; lia].
      * exact K3.
    + exists 0%nat. cbn [nth]. split_all; [f_equal; lia | intros; lia | exact E].
Qed.

Lemma nth_skipn_Z (l : list Z) (n i : nat) :
  nth i (skipn n l) 0 = nth (n + i) l 0.
Proof.
  revert l. induction n as [|n IH]; intros l; [reflexivity|].
  destruct l as [|c l]; [destruct i; reflexivity|]. cbn. apply IH.
Qed.

Lemma SafeGetCharAt_skipn (a : Accessor) (pos : Z) (i : nat) :
  0 <= pos ->
  nth i (skipn (Z.to_nat pos) (buf a)) 0 = SafeGetCharAt a (pos + Z.of_nat i).
Proof.
  intros H. rewrite nth_skipn_Z. unfold SafeGetCharAt, charAt.
  destruct (Z.ltb_spec (pos + Z.of_nat i) 0); [lia|].
  f_equal. lia.
Qed.

(** The scan of [IsBracketArgument] stops on the first character after the
    bracket that is not an equal sign. *)
Lemma IsBracketArgument_scan (a : Accessor) (pos : Z) :
  0 <= pos -> Length a <= INT_MAX ->
  exists k : Z,
    0 <= k
    /\ CMakeLexer.scanEquals (skipn (Z.to_nat (pos + 1)) (buf a)) 0
       = (SafeGetCharAt a (pos + 1 + k), k)
    /\ bracketAt a pos (SafeGetCharAt a (pos + 1 + k)) k
    /\ SafeGetCharAt a (pos + 1 + k) <> C "=".
Proof.
  intros H0 Hlen.
  destruct (scanEquals_spec (skipn (Z.to_nat (pos + 1)) (buf a)) 0)
    as (k & K1 & K2 & K3); [lia | |].
  { rewrite length_skipn. unfold Length in Hlen. lia. }
  rewrite SafeGetCharAt_skipn in K1, K3 by lia.
  exists (Z.of_nat k). split_all; try lia.
  - rewrite K1. f_equal.
  - split; [|reflexivity].
    intros i Hi. specialize (K2 (Z.to_nat i) ltac:(lia)).
    rewrite SafeGetCharAt_skipn in K2 by lia.
    replace (pos + 1 + Z.of_nat (Z.to_nat i)) with (pos + 1 + i) in K2 by lia.
    exact K2.
Qed.

Lemma bracketAt_unique (a : Accessor) (pos c c' n n' : Z) :
  0 <= n -> 0 <= n' -> c <> C "=" -> c' <> C "=" ->
  bracketAt a pos c n -> bracketAt a pos c' n' -> n = n' /\ c = c'.
Proof.
  intros H0 H0' Hc Hc' [B1 B2] [B1' B2'].
  destruct (Z.lt_trichotomy n n') as [Hlt|[Heq|Hgt]].
  - exfalso. apply Hc. rewrite <- B2. apply B1'. lia.
  - subst n'. split; [reflexivity | congruence].
  - exfalso. apply Hc'. rewrite <- B2'. apply B1. lia.
Qed.

(** Property X6.  [IsBracketArgument] recognises an opening bracket,
    any number of equal signs and a second opening bracket, and sets the
    bracket number to the number of equal signs; it accepts a closing
    bracket exactly when the closing bracket, the same number of equal signs
    and a second closing bracket follow; and it leaves the bracket number
    as it was when it returns false. *)
Theorem IsBracketArgument_matches (a : Accessor) (pos b : Z)
    (Hpos : 0 <= pos) (Hlen : Length a <= INT_MAX) :
  (forall n, CMakeLexer.IsBracketArgument a pos true b = (true, n)
             <-> 0 <= n /\ bracketAt a pos (C "[") n)
  /\ ((CMakeLexer.IsBracketArgument a pos true b).1 = false ->
      (CMakeLexer.IsBracketArgument a pos true b).2 = b)
  /\ (0 <= b ->
      ((CMakeLexer.IsBracketArgument a pos false b).1 = true
       <-> bracketAt a pos (C "]") b))
  /\ (CMakeLexer.IsBracketArgument a pos false b).2 = b.
Proof.
  destruct (IsBracketArgument_scan a pos Hpos Hlen) as (k & K0 & K1 & K2 & K3).
  unfold CMakeLexer.IsBracketArgument. rewrite K1.
  set (c := SafeGetCharAt a (pos + 1 + k)) in *.
  split_all.
  - intros n. destruct (Z.eqb_spec c (C "[")) as [E|E]; split.
    + intros H. inversion H; subst n. split; [exact K0|]. rewrite <- E. exact K2.
    + intros [Hn Hb].
      destruct (bracketAt_unique a pos c (C "[") k n K0 Hn K3 ltac:(discriminate)
                  K2 Hb) as [-> _].
      reflexivity.
    + discriminate.
    + intros [Hn Hb]. exfalso.
      destruct (bracketAt_unique a pos c (C "[") k n K0 Hn K3 ltac:(discriminate)
                  K2 Hb) as [_ Ec].
      contradiction.
  - destruct (c =? C "["); [discriminate | reflexivity].
  - intros Hb. destruct (Z.eqb_spec c (C "]")) as [E|E];
      destruct (Z.eqb_spec k b) as [E'|E']; cbn [andb fst]; split;
      try discriminate; try reflexivity.
    + intros _. subst b. rewrite <- E. exact K2.
    + intros Hbr. exfalso.
      destruct (bracketAt_unique a pos c (C "]") k b K0 Hb K3 ltac:(discriminate)
                  K2 Hbr) as [Ek _].
      contradiction.
    + intros Hbr. exfalso.
      destruct (bracketAt_unique a pos c (C "]") k b K0 Hb K3 ltac:(discriminate)
                  K2 Hbr) as [_ Ec].
      contradiction.
    + intros Hbr. exfalso.
      destruct (bracketAt_unique a pos c (C "]") k b K0 Hb K3 ltac:(discriminate)
                  K2 Hbr) as [_ Ec].
      contradiction.
  - destruct ((c =? C "]") && (k =? b)); reflexivity.
Qed.

Lemma IsBracketArgument_matches_witness :
  CMakeLexer.IsBracketArgument (openDocument (bytes "[==[x]==]")) 0 true 7
  = (true, 2)
  /\ (CMakeLexer.IsBracketArgument (openDocument (bytes "[==[x]==]")) 5 false 2).1
     = true.
Proof.
  destruct (IsBracketArgument_matches (openDocument (bytes "[==[x]==]")) 0 7
              ltac:(lia) ltac:(vm_compute; discriminate)) as (H1 & _).
  destruct (IsBracketArgument_matches (openDocument (bytes "[==[x]==]")) 5 2
              ltac:(lia) ltac:(vm_compute; discriminate)) as (_ & _ & H3 & _).
  split.
  - apply H1. split; [lia|]. split.
    + intros i Hi. assert (i = 0 \/ i = 1) as [->| ->] by lia; reflexivity.
    + reflexivity.
  - apply (H3 ltac:(lia)). split.
    + intros i Hi. assert (i = 0 \/ i = 1) as [->| ->] by lia; reflexivity.
    + reflexivity.
Defined.

(** * Fold levels *)

Lemma shift_level_word (levelUse levelNext : Z) :
  0 <= levelUse < 2 ^ 16 -> 0 <= levelNext < 2 ^ 15 ->
  shr (PowerShell.levelWord levelUse levelNext) 16 = levelNext.
Proof.
  intros Hu Hn. unfold PowerShell.levelWord, shr.
  rewrite (shl_small levelNext 16) by (unfold INT_MAX; lia).
  assert (E0 : Z.shiftr levelUse 16 = 0).
  { rewrite Z.shiftr_div_pow2 by lia. apply Z.div_small. lia. }
  assert (E1 : Z.shiftr (levelNext * 2 ^ 16) 16 = levelNext).
  { rewrite Z.shiftr_div_pow2 by lia. apply Z.div_mul. lia. }
  destruct (levelUse <? levelNext);
    rewrite ?Z.shiftr_lor, E0, E1; cbn [Z.lor]; rewrite ?Z.lor_0_r; reflexivity.
Qed.

(** The test of the folders for the last character of a line is the one of
    the document. *)
Lemma atEOL_isLineEnd (a : Accessor) (i : Z) :
  0 <= i ->
  ((SafeGetCharAt a i =? CH_CR) && negb (SafeGetCharAt a (i + 1) =? CH_LF))
  || (SafeGetCharAt a i =? CH_LF)
  = isLineEnd (buf a) i.
Proof.
  intros Hi. unfold isLineEnd, endAt.
  destruct (Z.leb_spec 0 i); [|lia]. cbn [andb].
  pose proof (SafeGetCharAt_skipn a i 0 Hi) as E0.
  pose proof (SafeGetCharAt_skipn a i 1 Hi) as E1.
  replace (i + Z.of_nat 0) with i in E0 by lia.
  replace (i + Z.of_nat 1) with (i + 1) in E1 by lia.
  rewrite <- E0, <- E1.
  destruct (skipn (Z.to_nat i) (buf a)) as [|c rest]; [reflexivity|].
  cbn [nth]. unfold endsLine, charAt. cbn [Z.ltb Z.to_nat Z.compare].
  destruct rest as [|d rest']; cbn [nth];
    destruct (c =? CH_CR), (c =? CH_LF); try reflexivity;
    destruct (_ =? CH_LF); reflexivity.
Qed.

Lemma ps_foldSteps_snoc (n : nat) (e : Z) (f : PowerShell.Folder) :
  PowerShell.foldSteps (S n) e f
  = PowerShell.foldStep e (PowerShell.foldSteps n e f).
Proof.
  revert f. induction n as [|n IH]; intros f; [reflexivity|].
  change (PowerShell.foldSteps (S (S n)) e f)
    with (PowerShell.foldSteps (S n) e (PowerShell.foldStep e f)).
  rewrite IH. reflexivity.
Qed.

Lemma ps_foldSteps_add (n m : nat) (e : Z) (f : PowerShell.Folder) :
  PowerShell.foldSteps (n + m) e f
  = PowerShell.foldSteps m e (PowerShell.foldSteps n e f).
Proof.
  revert f. induction n as [|n IH]; intros f; [reflexivity|].
  cbn [Nat.add PowerShell.foldSteps]. apply IH.
Qed.

Lemma StyleAt_segments (a b : Accessor) (pos : Z) :
  segments a = segments b -> StyleAt a pos = StyleAt b pos.
Proof. unfold StyleAt. intros ->. reflexivity. Qed.

Lemma SafeGetCharAt_buf (a b : Accessor) (pos : Z) :
  buf a = buf b -> SafeGetCharAt a pos = SafeGetCharAt b pos.
Proof. unfold SafeGetCharAt. intros ->. reflexivity. Qed.

(** One turn of the fold loop at an offset that is not the last of the
    range, or that ends a line. *)
Lemma ps_foldStep_inv (a : Accessor) (e : Z) (f : PowerShell.Folder) :
  psFoldInv a f ->
  (PowerShell.fpos f = e - 1 -> isLineEnd (buf a) (PowerShell.fpos f) = true) ->
  let f' := PowerShell.foldStep e f in
  psFoldInv a f'
  /\ PowerShell.fpos f' = PowerShell.fpos f + 1
  /\ PowerShell.style f' = StyleAt a (PowerShell.fpos f)
  /\ (isLineEnd (buf a) (PowerShell.fpos f) = true ->
      PowerShell.levelCurrent f' = PowerShell.levelNext f'
      /\ LevelAt (PowerShell.fstyler f') (PowerShell.lineCurrent f' - 1)
         = PowerShell.levelWord (PowerShell.levelCurrent f)
                                (PowerShell.levelNext f'))
  /\ (isLineEnd (buf a) (PowerShell.fpos f) = false ->
      PowerShell.levelCurrent f' = PowerShell.levelCurrent f).
Proof.
  intros (I1 & I2 & I3 & I4 & I5 & I6) Hlast f'.
  unfold f', PowerShell.foldStep. cbv zeta.
  rewrite I4, (SafeGetCharAt_buf _ a _ I1), (StyleAt_segments _ a _ I2).
  rewrite (atEOL_isLineEnd a _ I3).
  destruct (isLineEnd (buf a) (PowerShell.fpos f)) eqn:He.
  - cbn [orb]. unfold psFoldInv.
    cbn [PowerShell.fstyler PowerShell.fpos PowerShell.fchNext PowerShell.styleNext
         PowerShell.lineCurrent PowerShell.style PowerShell.levelCurrent
         PowerShell.levelNext].
    rewrite GetLine_succ, He by lia.
    split_all; try reflexivity; try lia; try discriminate.
    + destruct (negb _); [cbn; exact I1 | exact I1].
    + destruct (negb _); [cbn; exact I2 | exact I2].
    + intros _. split; [reflexivity|].
      replace (PowerShell.lineCurrent f + 1 - 1)
        with (PowerShell.lineCurrent f) by lia.
      match goal with
      | |- context [negb (?w =? ?l)] => destruct (Z.eqb_spec w l) as [E|E]
      end; cbn [negb].
      * symmetry. exact E.
      * unfold LevelAt, SetLevel. cbn [levels]. rewrite lookup_insert_eq. reflexivity.
  - cbn [orb].
    destruct (Z.eqb_spec (PowerShell.fpos f) (e - 1)) as [E|E];
      [discriminate (Hlast E)|].
    unfold psFoldInv.
    cbn [PowerShell.fstyler PowerShell.fpos PowerShell.fchNext PowerShell.styleNext
         PowerShell.lineCurrent PowerShell.style PowerShell.levelCurrent
         PowerShell.levelNext].
    rewrite GetLine_succ, He, I6 by lia.
    split_all; try reflexivity; try assumption; try lia; try discriminate.
Qed.

Lemma ps_foldStep_endPos (a : Accessor) (e e' : Z) (f : PowerShell.Folder) :
  psFoldInv a f ->
  (PowerShell.fpos f = e - 1 \/ PowerShell.fpos f = e' - 1 ->
   isLineEnd (buf a) (PowerShell.fpos f) = true) ->
  PowerShell.foldStep e f = PowerShell.foldStep e' f.
Proof.
  intros (I1 & I2 & I3 & I4 & I5 & I6) H.
  unfold PowerShell.foldStep. cbv zeta.
  rewrite I4, (SafeGetCharAt_buf _ a _ I1). rewrite (atEOL_isLineEnd a _ I3).
  destruct (isLineEnd (buf a) (PowerShell.fpos f)); [reflexivity|].
  destruct (Z.eqb_spec (PowerShell.fpos f) (e - 1)) as [E|E];
    [discriminate (H (or_introl E))|].
  destruct (Z.eqb_spec (PowerShell.fpos f) (e' - 1)) as [E'|E'];
    [discriminate (H (or_intror E'))|].
  reflexivity.
Qed.

Lemma ps_foldStart_inv (a : Accessor) (lo length initStyle : Z) :
  0 <= lo ->
  psFoldInv a (PowerShell.foldStart lo length initStyle a)
  /\ PowerShell.fpos (PowerShell.foldStart lo length initStyle a) = lo
  /\ PowerShell.levelCurrent (PowerShell.foldStart lo length initStyle a)
     = PowerShell.levelNext (PowerShell.foldStart lo length initStyle a).
Proof.
  intros H. unfold psFoldInv, PowerShell.foldStart. cbn.
  split_all; try reflexivity; lia.
Qed.

(** The first turns of the fold loop, up to an offset [p] that starts a
    line, do not depend on where the range ends. *)
Lemma ps_fold_prefix (a : Accessor) (lo p e initStyle : Z) (k : nat) :
  0 <= lo -> p <= e -> isLineEnd (buf a) (p - 1) = true ->
  lo + Z.of_nat k <= p ->
  let f0 := PowerShell.foldStart lo (e - lo) initStyle a in
  psFoldInv a (PowerShell.foldSteps k e f0)
  /\ PowerShell.fpos (PowerShell.foldSteps k e f0) = lo + Z.of_nat k
  /\ PowerShell.foldSteps k e f0 = PowerShell.foldSteps k p f0
  /\ exists j : nat,
       (j <= k)%nat
       /\ PowerShell.levelCurrent (PowerShell.foldSteps k e f0)
          = PowerShell.levelNext (PowerShell.foldSteps j e f0).
Proof.
  intros Hlo Hpe Heol. induction k as [|k IH]; intros Hk f0.
  - destruct (ps_foldStart_inv a lo (e - lo) initStyle Hlo) as (S1 & S2 & S3).
    cbn [PowerShell.foldSteps]. unfold f0.
    split_all; try assumption; try reflexivity.
    + rewrite S2. lia.
    + exists 0%nat. split; [lia | exact S3].
  - destruct (IH ltac:(lia)) as (I1 & I2 & I3 & j & J1 & J2). fold f0 in I1, I2, I3, J2.
    rewrite !ps_foldSteps_snoc. rewrite <- I3.
    set (g := PowerShell.foldSteps k e f0) in *.
    assert (Hlast : forall e', p <= e' ->
              PowerShell.fpos g = e' - 1 -> isLineEnd (buf a) (PowerShell.fpos g) = true).
    { intros e' He' E. rewrite I2 in *.
      replace (lo + Z.of_nat k) with (p - 1) by lia. exact Heol. }
    destruct (ps_foldStep_inv a e g I1 (Hlast e Hpe)) as (F1 & F2 & F3 & F4 & F5).
    split_all.
    + exact F1.
    + rewrite F2, I2. lia.
    + apply ps_foldStep_endPos with a; [exact I1|].
      intros [E|E]; [apply (Hlast e Hpe E) | apply (Hlast p ltac:(lia) E)].
    + destruct (isLineEnd (buf a) (PowerShell.fpos g)) eqn:He.
      * exists (S k). split; [lia|]. rewrite ps_foldSteps_snoc. fold g.
        apply (F4 eq_refl).
      * exists j. split; [lia|]. rewrite (F5 eq_refl). exact J2.
Qed.

Lemma ps_folder_eta (f : PowerShell.Folder) :
  f = PowerShell.mkFolder (PowerShell.fstyler f) (PowerShell.fpos f)
        (PowerShell.lineCurrent f) (PowerShell.levelCurrent f)
        (PowerShell.levelNext f) (PowerShell.fchNext f) (PowerShell.style f)
        (PowerShell.styleNext f).
Proof. destruct f. reflexivity. Qed.

(** Property X7.  The PowerShell folder can be resumed at any line start:
    folding a range in one pass, or in two passes split at an offset that
    starts a line, the second pass started with the style of the character
    before the split, leaves the same fold levels, provided the levels
    reached up to the split are at least 0 and below 2^15, so that the level
    word of the line before the split holds them. *)
Theorem ps_fold_resumable (a : Accessor) (lo p hi initStyle : Z)
    (Hlo : 0 <= lo < p) (Hhi : p < hi)
    (Heol : isLineEnd (buf a) (p - 1) = true)
    (Hrange : forall k : nat,
        lo + Z.of_nat k <= p ->
        0 <= PowerShell.levelNext
               (PowerShell.foldSteps k hi
                  (PowerShell.foldStart lo (hi - lo) initStyle a)) < 2 ^ 15) :
  PowerShell.FoldPowerShellDoc p (hi - p) (StyleAt a (p - 1))
    (PowerShell.FoldPowerShellDoc lo (p - lo) initStyle a)
  = PowerShell.FoldPowerShellDoc lo (hi - lo) initStyle a.
Proof.
  set (f0 := PowerShell.foldStart lo (hi - lo) initStyle a) in *.
  set (K := Z.to_nat (p - lo)).
  assert (HK : K = S (Nat.pred K)) by lia.
  destruct (ps_fold_prefix a lo p hi initStyle K ltac:(lia) ltac:(lia) Heol ltac:(lia))
    as (I1 & I2 & I3 & _). fold f0 in I1, I2, I3.
  destruct (ps_fold_prefix a lo p hi initStyle (Nat.pred K)
              ltac:(lia) ltac:(lia) Heol ltac:(lia))
    as (G1 & G2 & _ & j & J1 & J2). fold f0 in G1, G2, J2.
  set (g := PowerShell.foldSteps (Nat.pred K) hi f0) in *.
  set (f := PowerShell.foldSteps K hi f0) in *.
  assert (Hf : f = PowerShell.foldStep hi g).
  { unfold f. rewrite HK. apply ps_foldSteps_snoc. }
  assert (Hg : PowerShell.fpos g = p - 1) by lia.
  destruct (ps_foldStep_inv a hi g G1) as (_ & _ & F3 & F4 & _).
  { intros _. rewrite Hg. exact Heol. }
  rewrite <- Hf, Hg in F3, F4. specialize (F4 Heol). destruct F4 as [F4 F5].
  destruct I1 as (B1 & B2 & B3 & B4 & B5 & B6).
  assert (Hline : GetLine a p > 0).
  { pose proof (GetLine_succ a (p - 1) ltac:(lia)) as E.
    replace (p - 1 + 1) with p in E by lia. rewrite Heol in E.
    pose proof (countLines_nonneg (buf a) (Z.to_nat (p - 1))). unfold GetLine in *. lia. }
  assert (Hcur : 0 <= PowerShell.levelCurrent g < 2 ^ 15).
  { rewrite J2. apply Hrange. lia. }
  assert (Hnext : 0 <= PowerShell.levelNext f < 2 ^ 15).
  { apply Hrange. lia. }
  assert (Hstart : PowerShell.foldStart p (hi - p) (StyleAt a (p - 1))
                     (PowerShell.fstyler f) = f).
  { rewrite (ps_folder_eta f) at 2. unfold PowerShell.foldStart.
    assert (EL : GetLine (PowerShell.fstyler f) p = GetLine a p)
      by (unfold GetLine; rewrite B1; reflexivity).
    rewrite EL. destruct (Z.gtb_spec (GetLine a p) 0); [|lia].
    assert (Ep : PowerShell.fpos f = p) by lia.
    rewrite Ep in B4, B5, B6. rewrite <- B6.
    rewrite F5, shift_level_word by lia.
    rewrite (SafeGetCharAt_buf _ a _ B1), (StyleAt_segments _ a _ B2).
    rewrite Ep, F3, F4, B4, B5. reflexivity. }
  unfold PowerShell.FoldPowerShellDoc.
  change (PowerShell.foldStart lo (p - lo) initStyle a) with f0.
  fold f0.
  replace (lo + (p - lo)) with p by lia.
  replace (lo + (hi - lo)) with hi by lia.
  replace (p + (hi - p)) with hi by lia.
  fold K. rewrite <- I3. fold f. rewrite Hstart.
  replace (Z.to_nat (hi - lo)) with (K + Z.to_nat (hi - p))%nat by lia.
  rewrite ps_foldSteps_add. reflexivity.
Qed.

Lemma ps_fold_resumable_witness :
  PowerShell.FoldPowerShellDoc 2 (3 - 2) (StyleAt psBlock (2 - 1))
    (PowerShell.FoldPowerShellDoc 0 (2 - 0) 0 psBlock)
  = PowerShell.FoldPowerShellDoc 0 (3 - 0) 0 psBlock.
Proof.
  apply (ps_fold_resumable psBlock 0 2 3 0); [lia | lia | reflexivity |].
  intros k Hk.
  assert (k = 0 \/ k = 1 \/ k = 2)%nat as [-> | [-> | ->]] by lia;
    vm_compute; split; discriminate || reflexivity.
Defined.


(** * The CMake colouriser: invariant and termination *)

Lemma ForwardN_inv (lo hi p0 n : Z) (sc : StyleContext) :
  scInv lo hi p0 sc -> scInv lo hi p0 (SC.ForwardN n sc).
Proof.
  intros H. unfold SC.ForwardN.
  induction (Z.to_nat n) as [|k IH]; [exact H|].
  cbn [Nat.iter]. apply Forward_inv, IH.
Qed.

#[local] Hint Resolve ForwardN_inv : scinv.

Ltac cm_simpl :=
  cbn [CMakeLexer.sc CMakeLexer.on_sc CMakeLexer.set_lineComment
       CMakeLexer.set_outerStyle CMakeLexer.set_varNestedLevel
       CMakeLexer.set_generatorExpr CMakeLexer.set_bracketNumber
       CMakeLexer.set_userDefType CMakeLexer.set_chBeforeNumber
       CMakeLexer.set_chIdentifierStart CMakeLexer.set_visibleChars
       CMakeLexer.lineStateLineComment CMakeLexer.outerStyle
       CMakeLexer.varNestedLevel CMakeLexer.generatorExpr CMakeLexer.bracketNumber
       CMakeLexer.userDefType CMakeLexer.chBeforeNumber CMakeLexer.chIdentifierStart
       CMakeLexer.visibleChars fst snd] in *.

Lemma ForwardSetState_pos (s : Z) (sc : StyleContext) :
  currentPos sc < endPos sc ->
  currentPos (SC.ForwardSetState s sc) = currentPos sc + 1
  /\ state (SC.ForwardSetState s sc) = s.
Proof.
  intros H. unfold SC.ForwardSetState, SC.SetState. cbn.
  destruct (Forward_fields sc) as (_ & _ & _ & _ & ->).
  destruct (Z.ltb_spec (currentPos sc) (endPos sc)); [auto | lia].
Qed.

Lemma cm_identifierEnd_inv (ilp : WordList -> list Z -> Z -> bool)
    (kl : LexerWordList) (lo hi p0 : Z) (l : CMakeLexer.Lexer) :
  cmInv lo hi p0 l -> cmInv lo hi p0 (CMakeLexer.identifierEnd ilp kl l).
Proof.
  intros [H1 H2]. unfold CMakeLexer.identifierEnd, cmInv. cbv zeta.
  break_tests; cm_simpl; auto with scinv.
Qed.

Lemma cm_bracketClose_inv (lo hi p0 : Z) (l : CMakeLexer.Lexer) :
  cmInv lo hi p0 l -> cmInv lo hi p0 (CMakeLexer.bracketClose l).
Proof.
  intros [H1 H2]. unfold CMakeLexer.bracketClose, cmInv. cbv zeta.
  break_tests; cm_simpl; auto with scinv.
Qed.

Ltac cm_progress :=
  match goal with
  | |- _ < currentPos (SC.ForwardSetState ?s ?x) =>
      destruct (ForwardSetState_pos s x) as [-> _]; [cbn; assumption | cbn; lia]
  end.

Ltac cm_flag :=
  intros Hflag; try discriminate Hflag; cbn in Hflag; try discriminate Hflag.

Lemma cm_stringCase_post (lo hi : Z) (l : CMakeLexer.Lexer) :
  cmInv lo hi (currentPos (CMakeLexer.sc l)) l ->
  currentPos (CMakeLexer.sc l) < endPos (CMakeLexer.sc l) ->
  cmPost lo hi l (CMakeLexer.stringCase l).
Proof.
  intros [H1 H2] Hlt. unfold CMakeLexer.stringCase, cmPost, cmInv. cbv zeta.
  break_tests; cm_simpl;
    (split; [split; [auto 6 with scinv | auto] | cm_flag]).
  all: left; cm_progress.
Qed.

Lemma cm_variableCase_post (lo hi : Z) (l : CMakeLexer.Lexer) :
  cmInv lo hi (currentPos (CMakeLexer.sc l)) l ->
  currentPos (CMakeLexer.sc l) < endPos (CMakeLexer.sc l) ->
  cmPost lo hi l (CMakeLexer.variableCase l).
Proof.
  intros [H1 H2] Hlt. unfold CMakeLexer.variableCase, cmPost, cmInv. cbv zeta.
  break_tests; cm_simpl;
    (split; [split; [auto 6 with scinv | auto] | cm_flag]).
  all: left; cm_progress.
Qed.

Lemma cmPending_outer (l : CMakeLexer.Lexer) :
  CMakeLexer.outerStyle l = CMake.SCE_CMAKE_DEFAULT
  \/ CMakeLexer.outerStyle l = CMakeLexer.SCE_CMAKE_STRING ->
  cmPending (CMakeLexer.outerStyle l) = false.
Proof. intros [-> | ->]; reflexivity. Qed.

Lemma cm_escapeCase_post (lo hi : Z) (l : CMakeLexer.Lexer) :
  cmInv lo hi (currentPos (CMakeLexer.sc l)) l ->
  state (CMakeLexer.sc l) = CMakeLexer.SCE_CMAKE_ESCAPE_SEQUENCE ->
  cmPost lo hi l (CMakeLexer.escapeCase l).
Proof.
  intros [H1 H2] Hst. unfold CMakeLexer.escapeCase, cmPost, cmInv. cbv zeta.
  break_tests; cm_simpl;
    (split; [split; [auto 6 with scinv | auto] | cm_flag]).
  right. rewrite Hst. split; [reflexivity|]. cbn. apply cmPending_outer, H2.
Qed.

Lemma cm_variableNameCase_post (lo hi : Z) (l : CMakeLexer.Lexer) :
  cmInv lo hi (currentPos (CMakeLexer.sc l)) l ->
  cmPending (state (CMakeLexer.sc l)) = true ->
  cmPost lo hi l (CMakeLexer.variableNameCase l).
Proof.
  intros [H1 H2] Hst. unfold CMakeLexer.variableNameCase, cmPost, cmInv. cbv zeta.
  break_tests; cm_simpl;
    repeat match goal with
      | H : (_, _) = (_, _) |- _ => inversion H; subst; clear H
      end; cm_simpl;
    (split; [split; [auto 6 with scinv | auto] | cm_flag]).
  all: right; split; [exact Hst|]; cbn; apply cmPending_outer, H2.
Qed.

Lemma cm_switchState_post (ilp : WordList -> list Z -> Z -> bool)
    (kl : LexerWordList) (lo hi : Z) (l : CMakeLexer.Lexer) :
  cmInv lo hi (currentPos (CMakeLexer.sc l)) l ->
  currentPos (CMakeLexer.sc l) < endPos (CMakeLexer.sc l) ->
  cmPost lo hi l (CMakeLexer.switchState ilp kl l).
Proof.
  intros Hinv Hlt.
  pose proof (cm_identifierEnd_inv ilp kl _ _ _ l Hinv) as Hid.
  pose proof (cm_bracketClose_inv _ _ _ l Hinv) as Hbr.
  pose proof (cm_stringCase_post _ _ l Hinv Hlt) as Hstr.
  pose proof (cm_variableCase_post _ _ l Hinv Hlt) as Hvar.
  pose proof (cm_escapeCase_post _ _ l Hinv) as Hesc.
  pose proof (cm_variableNameCase_post _ _ l Hinv) as Hname.
  destruct Hinv as [H1 H2].
  unfold CMakeLexer.switchState. cbv zeta.
  repeat match goal with
    | |- context [if ?b then _ else _] =>
        lazymatch b with
        | context [CMakeLexer.sc l] => destruct b eqn:?
        end
    end;
    first
      [ assumption
      | apply Hesc; apply Z.eqb_eq; assumption
      | apply Hname; unfold cmPending;
        match goal with
        | H : (_ || _) = true |- _ =>
            apply orb_true_iff in H; destruct H as [H|H]; rewrite H
        end; rewrite ?orb_true_r; reflexivity
      | split;
        [ first [ exact Hid | exact Hbr
                | split; cm_simpl; [auto 6 with scinv | auto] ]
        | cm_flag ] ].
Qed.

Lemma cm_enterComment_inv (lo hi p0 : Z) (l : CMakeLexer.Lexer) :
  cmInv lo hi p0 l -> cmInv lo hi p0 (CMakeLexer.enterComment l).
Proof.
  intros [H1 H2]. unfold CMakeLexer.enterComment, cmInv.
  break_tests; cm_simpl; auto with scinv.
Qed.

Lemma cm_outerOfDefault (l : CMakeLexer.Lexer) :
  CMakeLexer.outerStyle l = CMake.SCE_CMAKE_DEFAULT
  \/ CMakeLexer.outerStyle l = CMakeLexer.SCE_CMAKE_STRING ->
  CMakeLexer.outerOfDefault l = CMake.SCE_CMAKE_DEFAULT
  \/ CMakeLexer.outerOfDefault l = CMakeLexer.SCE_CMAKE_STRING.
Proof. unfold CMakeLexer.outerOfDefault. destruct (negb _); auto. Qed.

Lemma cm_defaultState_post (lo hi : Z) (l : CMakeLexer.Lexer) :
  cmInv lo hi (currentPos (CMakeLexer.sc l)) l ->
  cmInv lo hi (currentPos (CMakeLexer.sc l)) (CMakeLexer.defaultState l).1
  /\ ((CMakeLexer.defaultState l).2 = true ->
      currentPos (CMakeLexer.sc l) < endPos (CMakeLexer.sc l) ->
      currentPos (CMakeLexer.sc l)
      < currentPos (CMakeLexer.sc (CMakeLexer.defaultState l).1)).
Proof.
  intros Hinv.
  pose proof (cm_enterComment_inv _ _ _ l Hinv) as Hc.
  pose proof (fun b => cm_enterComment_inv lo hi (currentPos (CMakeLexer.sc l))
                         (CMakeLexer.set_bracketNumber b l)) as Hc'.
  destruct Hinv as [H1 H2].
  pose proof (cm_outerOfDefault l H2) as Ho.
  unfold CMakeLexer.defaultState. cbv zeta.
  break_tests; cm_simpl;
    (split; [try assumption; try (apply Hc'; split; assumption);
             try (split; cm_simpl; [auto 6 with scinv | auto])
            | cm_flag]).
  all: intros Hlt; cm_progress.
Qed.

Lemma cm_lineEnd_inv (lo hi p0 : Z) (l : CMakeLexer.Lexer) :
  cmInv lo hi p0 l ->
  cmInv lo hi p0 (CMakeLexer.lineEnd l)
  /\ currentPos (CMakeLexer.sc (CMakeLexer.lineEnd l)) =
     (if currentPos (CMakeLexer.sc l) <? endPos (CMakeLexer.sc l)
      then currentPos (CMakeLexer.sc l) + 1 else currentPos (CMakeLexer.sc l)).
Proof.
  intros [H1 H2]. unfold CMakeLexer.lineEnd, cmInv. cbv zeta.
  destruct (_ && _); cm_simpl; destruct (atLineEnd _); cm_simpl;
    (split; [split; [auto with scinv | assumption]|]);
    match goal with |- currentPos (SC.Forward ?x) = _ =>
      destruct (Forward_fields x) as (_ & _ & _ & _ & ->) end; reflexivity.
Qed.

Lemma cm_iteration_inv (ilp : WordList -> list Z -> Z -> bool)
    (kl : LexerWordList) (lo hi p0 : Z) (l : CMakeLexer.Lexer) :
  cmInv lo hi p0 l ->
  SC.More (CMakeLexer.sc l) = true ->
  cmInv lo hi p0 (CMakeLexer.iteration ilp kl l)
  /\ 0 <= cmMeasure (CMakeLexer.iteration ilp kl l) < cmMeasure l.
Proof.
  intros [H1 H2] Hmore. unfold SC.More in Hmore. apply Z.ltb_lt in Hmore.
  assert (Hhi : endPos (CMakeLexer.sc l) = hi) by (unfold scInv in H1; tauto).
  assert (Hp0 : p0 <= currentPos (CMakeLexer.sc l)) by (unfold scInv in H1; tauto).
  destruct (cm_switchState_post ilp kl lo hi l) as [[S1 S2] S3];
    [split; [eapply scInv_here; eassumption | assumption] | exact Hmore |].
  unfold CMakeLexer.iteration.
  destruct (CMakeLexer.switchState ilp kl l) as [l1 cont]. cbn [fst snd] in *.
  assert (E1 : endPos (CMakeLexer.sc l1) = hi) by (unfold scInv in S1; tauto).
  destruct cont.
  - split; [split; [eapply scInv_weaken; eassumption | assumption]|].
    unfold cmMeasure. unfold scInv in S1.
    destruct (S3 eq_refl) as [Hp|[Hq1 Hq2]].
    + destruct (cmPending _); destruct (cmPending _); lia.
    + rewrite Hq1, Hq2. lia.
  - destruct (cm_defaultState_post lo hi l1) as [[D1 D2] D3];
      [split; [eapply scInv_here; eassumption | assumption] |].
    destruct (CMakeLexer.defaultState l1) as [l2 cont2]. cbn [fst snd] in *.
    assert (E2 : endPos (CMakeLexer.sc l2) = hi) by (unfold scInv in D1; tauto).
    assert (Hge : currentPos (CMakeLexer.sc l) <= currentPos (CMakeLexer.sc l1))
      by (unfold scInv in S1; tauto).
    destruct cont2.
    + split; [split; [eapply scInv_weaken; [|exact D1]; lia | assumption]|].
      unfold cmMeasure. unfold scInv in D1. specialize (D3 eq_refl).
      destruct (cmPending (state (CMakeLexer.sc l2)));
        destruct (cmPending (state (CMakeLexer.sc l))); lia.
    + destruct (cm_lineEnd_inv lo hi (currentPos (CMakeLexer.sc l1)) l2
                  (conj D1 D2)) as [[L1 L2] L3].
      split; [split; [eapply scInv_weaken; [|exact L1]; lia | assumption]|].
      unfold cmMeasure. unfold scInv in D1, L1.
      destruct (Z.ltb_spec (currentPos (CMakeLexer.sc l2)) (endPos (CMakeLexer.sc l2)));
        destruct (cmPending (state (CMakeLexer.sc (CMakeLexer.lineEnd l2))));
        destruct (cmPending (state (CMakeLexer.sc l))); lia.
Qed.

Lemma cm_loop_terminates (ilp : WordList -> list Z -> Z -> bool)
    (kl : LexerWordList) (lo hi p0 : Z) (fuel : nat) (l : CMakeLexer.Lexer) :
  cmInv lo hi p0 l ->
  cmMeasure l < Z.of_nat fuel ->
  exists l', CMakeLexer.loop ilp fuel kl l = Some l'
             /\ cmInv lo hi p0 l' /\ currentPos (CMakeLexer.sc l') = hi.
Proof.
  revert l. induction fuel as [|fuel IH]; intros l Hinv Hm.
  - exfalso. destruct Hinv as [H _]. unfold scInv in H. unfold cmMeasure in Hm.
    destruct (cmPending _); lia.
  - cbn [CMakeLexer.loop]. destruct (SC.More (CMakeLexer.sc l)) eqn:Hmore.
    + destruct (cm_iteration_inv ilp kl lo hi p0 l Hinv Hmore) as [I1 I2].
      apply IH; [assumption | lia].
    + exists l. split; [reflexivity|]. split; [assumption|].
      unfold SC.More in Hmore. apply Z.ltb_ge in Hmore.
      destruct Hinv as [H _]. unfold scInv in H. lia.
Qed.

(** Property X8.  Every pass of the CMake colouriser over a range of a
    document that has not been styled yet ends, although three of its
    states send the loop round again without moving the cursor, and the
    runs it commits tile the range. *)
Theorem cmake_runs_contiguous (ilp : WordList -> list Z -> Z -> bool)
    (kl : LexerWordList) (text : list Z) (startPos lengthDoc initStyle : Z)
    (Hstart : 0 <= startPos) (Hlen : 0 <= lengthDoc)
    (Hend : startPos + lengthDoc <= Z.of_nat (List.length text)) :
  exists a',
    CMakeLexer.ColouriseCMakeDoc ilp startPos lengthDoc initStyle kl
      (openDocument text) = Some a'
    /\ tiles startPos (startPos + lengthDoc) (styleRuns a')
    /\ contiguous (styleRuns a').
Proof.
  unfold CMakeLexer.ColouriseCMakeDoc.
  assert (Hinv : cmInv startPos (startPos + lengthDoc) startPos
                   (CMakeLexer.start startPos lengthDoc initStyle (openDocument text))).
  { pose proof (make_inv startPos lengthDoc initStyle text Hlen Hend) as Hm.
    unfold CMakeLexer.start, cmInv. cbv zeta.
    change (GetLineState (styler (SC.make startPos lengthDoc initStyle
                                    (openDocument text))) _) with 0.
    change (CMake.outerStyleOf 0) with 0.
    cbn [negb Z.eqb CMake.SCE_CMAKE_DEFAULT].
    destruct (_ >? 0); cm_simpl; split; auto. }
  destruct (cm_loop_terminates ilp kl startPos (startPos + lengthDoc) startPos
              (CMakeLexer.enough lengthDoc) _ Hinv)
    as (l' & Hloop & [Hinv' _] & Hpos).
  - unfold cmMeasure, CMakeLexer.enough.
    assert (E : endPos (CMakeLexer.sc
                  (CMakeLexer.start startPos lengthDoc initStyle (openDocument text)))
                - currentPos (CMakeLexer.sc
                    (CMakeLexer.start startPos lengthDoc initStyle
                       (openDocument text))) = lengthDoc).
    { unfold CMakeLexer.start. cbv zeta.
      change (GetLineState (styler (SC.make startPos lengthDoc initStyle
                                      (openDocument text))) _) with 0.
      change (CMake.outerStyleOf 0) with 0.
      cbn [negb Z.eqb CMake.SCE_CMAKE_DEFAULT].
      destruct (_ >? 0); cbn; lia. }
    rewrite E. destruct (cmPending _); lia.
  - rewrite Hloop. eexists. split; [reflexivity|].
    apply Complete_covers in Hinv'. rewrite Hpos in Hinv'.
    apply covers_tiles in Hinv'. split; [exact Hinv'|].
    eapply tiles_contiguous. exact Hinv'.
Qed.

Lemma cmake_runs_contiguous_witness :
  exists a',
    CMakeLexer.ColouriseCMakeDoc (fun wl s marker => InList wl s) 0 13 0 []
      (openDocument (bytes "set(A ${B}/c)"))
    = Some a'
    /\ tiles 0 (0 + 13) (styleRuns a')
    /\ contiguous (styleRuns a').
Proof.
  apply (cmake_runs_contiguous (fun wl s marker => InList wl s) []
           (bytes "set(A ${B}/c)") 0 13 0); cbn; lia.
Defined.


(** * F# format specifiers *)

Lemma scanAt_next (text : list Z) (s : list Z * Z) :
  scanAt text s -> s.1 <> [] ->
  scanAt text (FSharpFormat.next s) /\ (FSharpFormat.next s).2 = s.2 + 1
  /\ s.2 < Z.of_nat (List.length text)
  /\ FSharpFormat.here s.1 = charAt text s.2.
Proof.
  intros [H1 H2] Hne. unfold FSharpFormat.next, scanAt. cbn [fst snd].
  destruct s.1 as [|c rest] eqn:E; [contradiction Hne; reflexivity|].
  assert (Hlt : s.2 < Z.of_nat (List.length text)).
  { destruct (Z.eq_dec s.2 (Z.of_nat (List.length text))) as [Eq|Ne]; [|lia].
    rewrite Eq, Nat2Z.id, skipn_all in H2. discriminate. }
  split_all; try lia.
  - replace (Z.to_nat (s.2 + 1)) with (1 + Z.to_nat s.2)%nat by lia.
    cbn [tl]. rewrite <- skipn_skipn, <- H2. reflexivity.
  - unfold charAt. destruct (Z.ltb_spec s.2 0); [lia|].
    rewrite <- (Nat.add_0_r (Z.to_nat s.2)), <- nth_skipn_Z, <- H2. reflexivity.
Qed.

Lemma here_nonempty (l : list Z) : FSharpFormat.here l <> 0 -> l <> [].
Proof. destruct l; [intros H; contradiction H; reflexivity | discriminate]. Qed.

Lemma scanAt_skipWhile (p : Z -> bool) (text : list Z) :
  forall (l : list Z) (pos : Z),
    scanAt text (l, pos) ->
    scanAt text (FSharpFormat.skipWhile p l pos)
    /\ pos <= (FSharpFormat.skipWhile p l pos).2.
Proof.
  induction l as [|c rest IH]; intros pos H.
  - cbn. split; [exact H | lia].
  - cbn [FSharpFormat.skipWhile]. destruct (p c).
    + destruct (scanAt_next text (c :: rest, pos) H ltac:(discriminate))
        as (Hn & Hp & _).
      unfold FSharpFormat.next in Hn. cbn [fst snd tl] in Hn.
      destruct (IH _ Hn). split; [assumption | lia].
    + split; [exact H | cbn; lia].
Qed.

Lemma scanAt_skipNumber (text : list Z) (s : list Z * Z) :
  scanAt text s ->
  scanAt text (FSharpFormat.skipNumber s) /\ s.2 <= (FSharpFormat.skipNumber s).2.
Proof.
  intros H. unfold FSharpFormat.skipNumber.
  destruct (Z.eqb_spec (FSharpFormat.here s.1) (C "*")) as [E|E].
  - destruct (scanAt_next text s H) as (Hn & Hp & _).
    { apply here_nonempty. rewrite E. discriminate. }
    split; [exact Hn | lia].
  - destruct s as [l pos]. apply scanAt_skipWhile. exact H.
Qed.

(** Property X9.  [CheckPercentFormatSpecifier], called with the cursor on
    a percent sign inside the document, returns 0 or a length of at least 2;
    a positive length never reaches past the end of the document; and
    unless the percent sign is doubled, the last character of that length
    is a conversion type character. *)
Theorem CheckPercentFormatSpecifier_length (sc : StyleContext) (insideUrl : bool)
    (Hpos : 0 <= currentPos sc < Length (styler sc))
    (Hnext : chNext sc = SafeGetCharAt (styler sc) (currentPos sc + 1)) :
  let n := FSharpFormat.CheckPercentFormatSpecifier sc insideUrl in
  (n = 0 \/ 2 <= n)
  /\ (0 < n -> currentPos sc + n <= Length (styler sc))
  /\ (0 < n -> chNext sc <> C "%" ->
      FSharpFormat.IsPercentFormatSpecifier
        (SafeGetCharAt (styler sc) (currentPos sc + n - 1)) = true).
Proof.
  unfold FSharpFormat.CheckPercentFormatSpecifier. cbv zeta.
  destruct (Z.eqb_spec (chNext sc) (C "%")) as [E|E].
  - split_all; [right; lia | | intros _ H; contradiction].
    intros _. unfold Length in *.
    destruct (Z.ltb_spec (currentPos sc + 1) (Z.of_nat (List.length (buf (styler sc)))));
      [lia|].
    exfalso. rewrite Hnext in E. unfold SafeGetCharAt, charAt in E.
    destruct (_ <? 0); [discriminate|].
    rewrite nth_overflow in E by lia. discriminate.
  - destruct (insideUrl && _); [split_all; [left; reflexivity | lia | lia]|].
    destruct (_ && _); [split_all; [left; reflexivity | lia | lia]|].
    set (text := buf (styler sc)).
    assert (H0 : scanAt text (skipn (Z.to_nat (currentPos sc + 1)) text,
                              currentPos sc + 1)).
    { unfold scanAt, Length in *. cbn [fst snd]. split; [fold text in Hpos; lia|].
      reflexivity. }
    cbn [fst snd].
    destruct (scanAt_skipWhile FSharpFormat.isFlag text _ _ H0) as [H1 L1].
    set (s1 := FSharpFormat.skipWhile FSharpFormat.isFlag _ _) in *.
    destruct (scanAt_skipNumber text s1 H1) as [H2 L2].
    set (s2 := FSharpFormat.skipNumber s1) in *.
    assert (H3 : scanAt text
                   (if FSharpFormat.here s2.1 =? C "."
                    then FSharpFormat.skipNumber (FSharpFormat.next s2) else s2)
                 /\ s2.2 <= (if FSharpFormat.here s2.1 =? C "."
                              then FSharpFormat.skipNumber (FSharpFormat.next s2)
                              else s2).2).
    { destruct (Z.eqb_spec (FSharpFormat.here s2.1) (C ".")) as [Ed|Ed];
        [|split; [exact H2 | lia]].
      destruct (scanAt_next text s2 H2) as (Hn & Hp & _).
      { apply here_nonempty. rewrite Ed. discriminate. }
      destruct (scanAt_skipNumber text _ Hn) as [Hs Ls]. split; [exact Hs | lia]. }
    destruct H3 as [H3 L3].
    set (s3 := if FSharpFormat.here s2.1 =? C "." then _ else s2) in *.
    destruct (FSharpFormat.IsPercentFormatSpecifier (FSharpFormat.here s3.1)) eqn:Ef;
      [|split_all; [left; reflexivity | lia | lia]].
    destruct (scanAt_next text s3 H3) as (_ & _ & Hlt & Hc).
    { apply here_nonempty. intros Z0. rewrite Z0 in Ef. discriminate. }
    split_all.
    + right. lia.
    + intros _. unfold Length. fold text. lia.
    + intros _ _.
      replace (currentPos sc + (s3.2 + 1 - currentPos sc) - 1) with s3.2 by lia.
      unfold SafeGetCharAt. fold text. rewrite <- Hc. exact Ef.
Qed.

Lemma CheckPercentFormatSpecifier_length_witness :
  let n := FSharpFormat.CheckPercentFormatSpecifier fsharpAtPercent false in
  (n = 0 \/ 2 <= n)
  /\ (0 < n -> currentPos fsharpAtPercent + n <= Length (styler fsharpAtPercent))
  /\ (0 < n -> chNext fsharpAtPercent <> C "%" ->
      FSharpFormat.IsPercentFormatSpecifier
        (SafeGetCharAt (styler fsharpAtPercent) (currentPos fsharpAtPercent + n - 1))
      = true).
Proof.
  apply (CheckPercentFormatSpecifier_length fsharpAtPercent false);
    [vm_compute; split; [discriminate | reflexivity] | reflexivity].
Defined.

(** * Asymptote escape sequences end *)

Lemma asy_iteration_escape (kl : LexerWordList) (l : Asy.Lexer) :
  state (Asy.sc l) = Asy.SCE_ASY_ESCAPECHAR ->
  1 <= Asy.digitsLeft (Asy.escSeq l) <= INT_MAX ->
  let l' := Asy.iteration kl l in
  Asy.outerState (Asy.escSeq l') = Asy.outerState (Asy.escSeq l)
  /\ ((state (Asy.sc l') = Asy.outerState (Asy.escSeq l)
       /\ currentPos (Asy.sc l') = currentPos (Asy.sc l))
      \/ (state (Asy.sc l') = Asy.SCE_ASY_ESCAPECHAR
          /\ Asy.digitsLeft (Asy.escSeq l') = Asy.digitsLeft (Asy.escSeq l) - 1
          /\ 1 <= Asy.digitsLeft (Asy.escSeq l')
          /\ IsADigitBase (ch (Asy.sc l)) (Asy.numBase (Asy.escSeq l)) = true
          /\ currentPos (Asy.sc l') <= currentPos (Asy.sc l) + 1)).
Proof.
  intros Hst Hd l'. unfold l', Asy.iteration, Asy.switchState. cbv zeta.
  rewrite Hst.
  cbn [Z.eqb Pos.eqb Asy.SCE_ASY_ESCAPECHAR Asy.SCE_ASY_OPERATOR Asy.SCE_ASY_NUMBER
       Asy.SCE_ASY_IDENTIFIER Asy.SCE_ASY_COMMENTLINE Asy.SCE_ASY_COMMENTBLOCK
       Asy.SCE_ASY_STRING_DQ Asy.SCE_ASY_STRING_SQ].
  unfold Asy.atEscapeEnd. cbv zeta.
  rewrite decr_small by (unfold INT_MIN; lia).
  destruct (Z.leb_spec (Asy.digitsLeft (Asy.escSeq l) - 1) 0) as [Hle|Hgt];
    cbn [orb].
  - split; [reflexivity|]. left. split; reflexivity.
  - destruct (IsADigitBase (ch (Asy.sc l)) (Asy.numBase (Asy.escSeq l))) eqn:Ed;
      cbn [negb].
    + split.
      * unfold Asy.lineEnd, Asy.defaultState, Asy.set_escSeq. cbn [Asy.sc state].
        rewrite Hst. cbv zeta. cbn [Z.eqb Asy.SCE_ASY_ESCAPECHAR Asy.SCE_ASY_DEFAULT].
        destruct (atLineEnd _); reflexivity.
      * right.
        unfold Asy.lineEnd, Asy.defaultState, Asy.set_escSeq. cbn [Asy.sc state].
        rewrite Hst. cbv zeta. cbn [Z.eqb Asy.SCE_ASY_ESCAPECHAR Asy.SCE_ASY_DEFAULT].
        destruct (atLineEnd _); cbn [Asy.sc Asy.on_sc Asy.escSeq Asy.digitsLeft];
          rewrite Forward_state; cbn [state SC.with_styler];
          (split_all; [exact Hst | reflexivity | lia | reflexivity |]);
          match goal with |- currentPos (SC.Forward ?x) <= _ =>
            destruct (Forward_fields x) as (_ & _ & _ & _ & ->) end;
          cbn [currentPos SC.with_styler]; destruct (_ <? _); lia.
    + split; [reflexivity|]. left. split; reflexivity.
Qed.

(** Property X10.  In the Asymptote colouriser an escape sequence ends by
    itself: from the escape state with [digitsLeft] digits left, after at
    most [digitsLeft] turns of the loop the lexer is back in the outer
    state, it had stayed in the escape state until then, and the cursor has
    moved over at most [digitsLeft - 1] characters, all of them digits of
    the base of the escape sequence. *)
Theorem asy_escape_ends (kl : LexerWordList) (n : nat) :
  forall l : Asy.Lexer,
    state (Asy.sc l) = Asy.SCE_ASY_ESCAPECHAR ->
    1 <= Asy.digitsLeft (Asy.escSeq l) <= INT_MAX ->
    Asy.digitsLeft (Asy.escSeq l) = Z.of_nat n ->
    exists k : nat,
      (1 <= k <= n)%nat
      /\ state (Asy.sc (Asy.steps k kl l)) = Asy.outerState (Asy.escSeq l)
      /\ (forall j : nat, (j < k)%nat ->
            state (Asy.sc (Asy.steps j kl l)) = Asy.SCE_ASY_ESCAPECHAR)
      /\ (forall j : nat, (S j < k)%nat ->
            IsADigitBase (ch (Asy.sc (Asy.steps j kl l)))
                         (Asy.numBase (Asy.escSeq (Asy.steps j kl l))) = true)
      /\ currentPos (Asy.sc (Asy.steps k kl l))
         <= currentPos (Asy.sc l) + (Z.of_nat k - 1).
Proof.
  induction n as [|n IH]; intros l Hst Hd Hn; [lia|].
  destruct (asy_iteration_escape kl l Hst Hd) as [Ho [[E1 E2]|(E1 & E2 & E3 & E4 & E5)]].
  - exists 1%nat. cbn [Asy.steps].
    split; [lia|]. split; [exact E1|]. split; [|split].
    + intros j Hj. assert (j = 0)%nat as -> by lia. exact Hst.
    + intros j Hj. lia.
    + lia.
  - destruct (IH (Asy.iteration kl l) E1 ltac:(lia) ltac:(lia))
      as (k & K1 & K2 & K3 & K4 & K5).
    exists (S k). cbn [Asy.steps].
    split; [lia|]. split; [rewrite K2; exact Ho|]. split; [|split].
    + intros [|j] Hj; [exact Hst | apply K3; lia].
    + intros [|j] Hj; [exact E4 | apply K4; lia].
    + lia.
Qed.

Lemma asy_escape_ends_witness :
  exists k : nat,
    (1 <= k <= 3)%nat
    /\ state (Asy.sc (Asy.steps k [] asyInEscape))
       = Asy.outerState (Asy.escSeq asyInEscape)
    /\ (forall j : nat, (j < k)%nat ->
          state (Asy.sc (Asy.steps j [] asyInEscape)) = Asy.SCE_ASY_ESCAPECHAR)
    /\ (forall j : nat, (S j < k)%nat ->
          IsADigitBase (ch (Asy.sc (Asy.steps j [] asyInEscape)))
                       (Asy.numBase (Asy.escSeq (Asy.steps j [] asyInEscape))) = true)
    /\ currentPos (Asy.sc (Asy.steps k [] asyInEscape))
       <= currentPos (Asy.sc asyInEscape) + (Z.of_nat k - 1).
Proof.
  apply (asy_escape_ends [] 3 asyInEscape);
    [reflexivity | vm_compute; split; discriminate | reflexivity].
Defined.

